(** * Janus scheduler: a shallow embedding of the tick-driven SoC simulator

    The development follows [components.py] (classes [Task] and [CPUCore])
    and [scheduler.py] (class [SoC]).  Python [float]s are IEEE binary64
    numbers, so they are modelled by Rocq's primitive floats, whose
    operations are the same correctly rounded binary64 operations; Python
    [int]s are modelled by [Z].  The module-level generator of [random] is
    an explicit stream of raw draws threaded through every operation that
    draws, and the Python exceptions reachable from the code are an explicit
    result.  Console output ([print], [__repr__]) is not modelled. *)

From Stdlib Require Import ZArith List String Bool Lia.
From Stdlib Require Import Floats Permutation Sorted.
Import ListNotations.

Set Warnings "-inexact-float".
Open Scope string_scope.
Open Scope list_scope.
Open Scope Z_scope.

(** ** Python numbers *)

Module Py.

(** [float(z)] for an [int] of magnitude below [2^63]; exact below [2^53]. *)
Definition Z2F (z : Z) : float :=
  match z with
  | Z0 => 0%float
  | Zpos _ => PrimFloat.of_uint63 (Uint63.of_Z z)
  | Zneg p => PrimFloat.opp (PrimFloat.of_uint63 (Uint63.of_Z (Zpos p)))
  end.

(** The builtin [max(a, b)]: [b] replaces [a] only when [b > a]. *)
Definition max (a b : float) : float :=
  if PrimFloat.ltb a b then b else a.

(** [range(n)] for an [int] [n]: empty when [n <= 0]. *)
Definition range (n : Z) : list Z :=
  map Z.of_nat (seq 0 (Z.to_nat n)).

(** The only exception an operation of the code can raise on integer
    arguments: [ValueError], from [randint] on an empty range.  ([pop(0)],
    [task_queue[0]] and the division of the final statistics are guarded by
    emptiness tests, and [remove] is given an element of the list.) *)
Inductive exn : Set := ValueError.

Inductive result (A : Type) : Type :=
| Ok (a : A)
| Raise (e : exn).
Arguments Ok {A} a.
Arguments Raise {A} e.

End Py.

(** ** The random source

    [random.random()] and [random.randint] read the module's hidden
    generator.  The generator is abstracted to the stream of its raw
    outputs: [g 0] is the next raw draw and [fun n => g (S n)] the generator
    afterwards.  No property of the Mersenne Twister is used. *)

Definition Rng : Type := nat -> Z.

(** Computations that may draw and may raise. *)
Definition M (A : Type) : Type := Rng -> Py.result (A * Rng).

Definition ret {A} (a : A) : M A := fun g => Py.Ok (a, g).

Definition bind {A B} (c : M A) (k : A -> M B) : M B :=
  fun g =>
    match c g with
    | Py.Ok (a, g') => k a g'
    | Py.Raise e => Py.Raise e
    end.

Definition raise {A} (e : Py.exn) : M A := fun _ => Py.Raise e.

Notation "x <- c ;; k" := (bind c (fun x => k))
  (at level 61, c at next level, right associativity).
Notation "' pat <- c ;; k" := (bind c (fun x => match x with pat => k end))
  (at level 61, pat pattern, c at next level, right associativity).

Module Random.

Definition next_raw : M Z := fun g => Py.Ok (g 0%nat, fun n => g (S n)).

(** [random.random()]: a 53-bit integer scaled by [2^-53], in [[0, 1)]. *)
Definition random : M float :=
  r <- next_raw ;;
  ret (Py.Z2F (r mod 9007199254740992) / 9007199254740992)%float.

(** [random.randint(a, b)]: [a + randbelow(b - a + 1)], and [ValueError]
    on an empty range. *)
Definition randint (a b : Z) : M Z :=
  if b - a + 1 <=? 0 then raise Py.ValueError
  else r <- next_raw ;; ret (a + r mod (b - a + 1)).

(** A generator that yields the draws of [l], then [d] forever. *)
Definition of_list (l : list Z) (d : Z) : Rng := fun n => nth n l d.

End Random.

(** ** components.py: Task *)

Module Task.

Record t : Type := mk {
  id : Z;
  arrival_time : Z;
  type : string;
  total_cycles : Z;
  io_frequency : Z;
  cycles_done : float;
  io_wait_timer : Z
}.

Definition set_cycles_done (self : t) (v : float) : t :=
  mk (id self) (arrival_time self) (type self) (total_cycles self)
     (io_frequency self) v (io_wait_timer self).

Definition set_io_wait_timer (self : t) (v : Z) : t :=
  mk (id self) (arrival_time self) (type self) (total_cycles self)
     (io_frequency self) (cycles_done self) v.

(** [Task.__init__]: the profile is drawn once.  [cycles_done] starts as the
    [int] 0, which every later comparison and sum treats as [0.0]. *)
Definition init (task_id arrival : Z) : M t :=
  r <- Random.random ;;
  if PrimFloat.ltb 0.5 r then
    c <- Random.randint 200 500 ;;
    ret (mk task_id arrival "CPU-Bound" c 0 0%float 0)
  else
    c <- Random.randint 50 100 ;;
    f <- Random.randint 3 8 ;;
    ret (mk task_id arrival "I/O-Bound" c f 0%float 0).

Definition is_finished (self : t) : bool :=
  PrimFloat.leb (Py.Z2F (total_cycles self)) (cycles_done self).

Definition is_waiting_for_io (self : t) : bool :=
  0 <? io_wait_timer self.

(** [Task.work]: the [and] of the I/O test short-circuits, so a task that is
    not I/O-bound draws nothing. *)
Definition work (self : t) (cycles_to_do : float) : M t :=
  if is_waiting_for_io self then
    ret (set_io_wait_timer self (io_wait_timer self - 1))
  else
    let self := set_cycles_done self (cycles_done self + cycles_to_do)%float in
    if String.eqb (type self) "I/O-Bound" then
      d <- Random.randint 1 100 ;;
      if d <? io_frequency self then
        w <- Random.randint 5 10 ;;
        ret (set_io_wait_timer self w)
      else ret self
    else ret self.

End Task.

(** ** components.py: CPUCore *)

Module CPUCore.

Record t : Type := mk {
  id : Z;
  type : string;
  current_task : option Task.t;
  base_speed : float;
  power_draw : float;
  heat_generation : float;
  idle_power_draw : float;
  temperature : float;
  max_temp : float;
  cooling_factor : float
}.

Definition set_current_task (self : t) (v : option Task.t) : t :=
  mk (id self) (type self) v (base_speed self) (power_draw self)
     (heat_generation self) (idle_power_draw self) (temperature self)
     (max_temp self) (cooling_factor self).

Definition set_temperature (self : t) (v : float) : t :=
  mk (id self) (type self) (current_task self) (base_speed self)
     (power_draw self) (heat_generation self) (idle_power_draw self) v
     (max_temp self) (cooling_factor self).

(** [CPUCore.__init__]: every type other than ["P-core"] gets the
    efficiency profile. *)
Definition init (core_id : Z) (core_type : string) : t :=
  if String.eqb core_type "P-core" then
    mk core_id core_type None 2.0 4.0 0.8 0.1 25.0 90.0 0.4
  else
    mk core_id core_type None 1.0 1.0 0.2 0.1 25.0 90.0 0.4.

Definition get_current_speed (self : t) : float :=
  if PrimFloat.leb (max_temp self) (temperature self)
  then (base_speed self * 0.5)%float
  else base_speed self.

(** A core is active when it has a task that is not waiting for I/O. *)
Definition is_active (self : t) : bool :=
  match current_task self with
  | Some task => negb (Task.is_waiting_for_io task)
  | None => false
  end.

Definition get_current_power_draw (self : t) : float :=
  if is_active self then power_draw self else idle_power_draw self.

Definition update_temperature (self : t) : t :=
  let temp :=
    if is_active self
    then (temperature self + heat_generation self)%float
    else (temperature self - cooling_factor self)%float in
  set_temperature self (Py.max 25.0 temp).

Definition assign_task (self : t) (task : Task.t) : t :=
  set_current_task self (Some task).

(** [CPUCore.tick]: a [Task] object is always truthy, so [if
    self.current_task] tests for [None]. *)
Definition tick (self : t) : M t :=
  let self := update_temperature self in
  match current_task self with
  | Some task =>
      if Task.is_finished task then ret (set_current_task self None)
      else if Task.is_waiting_for_io task then ret self
      else
        let speed := get_current_speed self in
        task' <- Task.work task speed ;;
        ret (set_current_task self (Some task'))
  | None => ret self
  end.

End CPUCore.

(** ** scheduler.py: SoC *)

Module SoC.

(** [p_cores] and [e_cores] hold the very objects of [all_cores] and are
    never read after construction, so the state keeps [all_cores] only.  A
    task object is referenced from one place at a time (a list or a core's
    [current_task]), so tasks are stored by value. *)
Record t : Type := mk {
  all_cores : list CPUCore.t;
  master_task_list : list Task.t;
  task_queue : list Task.t;
  completed_tasks : list Task.t;
  current_tick : Z;
  total_power_consumed : float
}.

(** [tasks.sort(key=lambda x: x.arrival_time)]: the sort is stable, and a
    stable sort has one result; it is computed here by insertion behind the
    tasks that arrive no later. *)
Fixpoint insert_by_arrival (task : Task.t) (tasks : list Task.t)
  : list Task.t :=
  match tasks with
  | [] => [task]
  | x :: rest =>
      if Task.arrival_time task <? Task.arrival_time x then task :: tasks
      else x :: insert_by_arrival task rest
  end.

Definition sort_by_arrival (tasks : list Task.t) : list Task.t :=
  fold_left (fun sorted task => insert_by_arrival task sorted) tasks [].

Fixpoint generate_loop (ids : list Z) (num_tasks : Z) (tasks : list Task.t)
  : M (list Task.t) :=
  match ids with
  | [] => ret tasks
  | i :: rest =>
      arrival <- Random.randint 0 (num_tasks * 5) ;;
      task <- Task.init i arrival ;;
      generate_loop rest num_tasks (tasks ++ [task])
  end.

Definition generate_tasks (num_tasks : Z) : M (list Task.t) :=
  tasks <- generate_loop (Py.range num_tasks) num_tasks [] ;;
  ret (sort_by_arrival tasks).

Definition init (num_p_cores num_e_cores num_tasks : Z) : M t :=
  let p_cores :=
    map (fun i => CPUCore.init i "P-core") (Py.range num_p_cores) in
  let e_cores :=
    map (fun i => CPUCore.init (i + num_p_cores) "E-core")
        (Py.range num_e_cores) in
  let all_cores := p_cores ++ e_cores in
  master <- generate_tasks num_tasks ;;
  ret (mk all_cores master [] [] 0 0%float).

(** [check_for_new_arrivals]: the [while] loop pops the head of the master
    list as long as it has arrived; it runs at most once per listed task. *)
Fixpoint arrivals_loop (tick : Z) (master queue : list Task.t)
  : list Task.t * list Task.t :=
  match master with
  | [] => ([], queue)
  | task :: rest =>
      if Task.arrival_time task <=? tick
      then arrivals_loop tick rest (queue ++ [task])
      else (master, queue)
  end.

Definition check_for_new_arrivals (self : t) : t :=
  let '(master, queue) :=
    arrivals_loop (current_tick self) (master_task_list self)
                  (task_queue self) in
  mk (all_cores self) master queue (completed_tasks self)
     (current_tick self) (total_power_consumed self).

(** The [for task in self.task_queue: if ...: break] scans: the position of
    the first task of type [ty]. *)
Fixpoint scan (ty : string) (queue : list Task.t) : option nat :=
  match queue with
  | [] => None
  | task :: rest =>
      if String.eqb (Task.type task) ty then Some 0%nat
      else option_map S (scan ty rest)
  end.

(** [task_to_assign], as its position in the queue: rule 1 by core type,
    rule 2 the front of a non-empty queue. *)
Definition select (core : CPUCore.t) (queue : list Task.t) : option nat :=
  let task_to_assign :=
    if String.eqb (CPUCore.type core) "P-core" then scan "CPU-Bound" queue
    else scan "I/O-Bound" queue in
  match task_to_assign, queue with
  | None, _ :: _ => Some 0%nat
  | _, _ => task_to_assign
  end.

(** [self.task_queue.remove(task_to_assign)]: [Task] defines no [__eq__], so
    [remove] deletes the first occurrence of the selected object, which is
    at the position where the scan found it. *)
Fixpoint remove_at (i : nat) (queue : list Task.t) : list Task.t :=
  match i, queue with
  | _, [] => []
  | O, _ :: rest => rest
  | S i', task :: rest => task :: remove_at i' rest
  end.

(** The first [if] of the loop body: a finished task is recorded and the
    core freed. *)
Definition reclaim (core : CPUCore.t) (completed : list Task.t)
  : CPUCore.t * list Task.t :=
  match CPUCore.current_task core with
  | Some task =>
      if Task.is_finished task
      then (CPUCore.set_current_task core None, completed ++ [task])
      else (core, completed)
  | None => (core, completed)
  end.

(** The second [if] of the loop body: an idle core facing a non-empty queue
    gets the selected task. *)
Definition assign (core : CPUCore.t) (queue : list Task.t)
  : CPUCore.t * list Task.t :=
  match CPUCore.current_task core, queue with
  | None, _ :: _ =>
      match select core queue with
      | Some i =>
          match nth_error queue i with
          | Some task => (CPUCore.assign_task core task, remove_at i queue)
          | None => (core, queue)
          end
      | None => (core, queue)
      end
  | _, _ => (core, queue)
  end.

(** The [for core in self.all_cores] loop. *)
Fixpoint schedule_cores (cores : list CPUCore.t) (queue completed : list Task.t)
  : list CPUCore.t * list Task.t * list Task.t :=
  match cores with
  | [] => ([], queue, completed)
  | core :: rest =>
      let '(core, completed) := reclaim core completed in
      let '(core, queue) := assign core queue in
      let '(rest, queue, completed) := schedule_cores rest queue completed in
      (core :: rest, queue, completed)
  end.

Definition schedule_rule_based (self : t) : t :=
  match task_queue self with
  | [] => self
  | _ :: _ =>
      let '(cores, queue, completed) :=
        schedule_cores (all_cores self) (task_queue self)
                       (completed_tasks self) in
      mk cores (master_task_list self) queue completed
         (current_tick self) (total_power_consumed self)
  end.

(** Step 3 of [run_simulation_tick]: each core ticks, then its power draw
    is sampled. *)
Fixpoint tick_cores (cores : list CPUCore.t) (power : float)
  : M (list CPUCore.t * float) :=
  match cores with
  | [] => ret ([], power)
  | core :: rest =>
      core <- CPUCore.tick core ;;
      let power := (power + CPUCore.get_current_power_draw core)%float in
      '(rest, power) <- tick_cores rest power ;;
      ret (core :: rest, power)
  end.

Definition run_simulation_tick (self : t) : M t :=
  let self := check_for_new_arrivals self in
  let self := schedule_rule_based self in
  '(cores, power) <- tick_cores (all_cores self) (total_power_consumed self) ;;
  ret (mk cores (master_task_list self) (task_queue self)
          (completed_tasks self) (current_tick self + 1) power).

(** [n] calls of [run_simulation_tick] in a row. *)
Fixpoint run_ticks (n : nat) (self : t) : M t :=
  match n with
  | O => ret self
  | S n' => self <- run_simulation_tick self ;; run_ticks n' self
  end.

(** The number of tasks bound to a core. *)
Definition bound_count (cores : list CPUCore.t) : nat :=
  List.length (filter (fun c => match CPUCore.current_task c with
                           | Some _ => true | None => false end) cores).

(** The sizes of the four task containers, summed. *)
Definition task_count (self : t) : nat :=
  (List.length (master_task_list self) + List.length (task_queue self)
   + bound_count (all_cores self) + List.length (completed_tasks self))%nat.

End SoC.

(** ** main.py *)

Module Main.

(** The [while] loop of [main]: it runs as long as not every task is
    recorded as completed and the tick budget is not used up.  Every
    iteration advances [current_tick] by one, so a loop entered with
    [current_tick >= 0] makes at most [max_ticks] iterations; [fuel] bounds
    them, and [None] is the answer of a loop that ran out of fuel.  The
    periodic status print is not modelled. *)
Fixpoint loop (fuel : nat) (num_tasks max_ticks : Z) (soc : SoC.t)
  : M (option SoC.t) :=
  if (Z.of_nat (List.length (SoC.completed_tasks soc)) <? num_tasks)
     && (SoC.current_tick soc <? max_ticks)
  then
    match fuel with
    | O => ret None
    | S fuel' =>
        soc <- SoC.run_simulation_tick soc ;;
        loop fuel' num_tasks max_ticks soc
    end
  else ret (Some soc).

Definition NUM_P_CORES : Z := 2.
Definition NUM_E_CORES : Z := 4.
Definition NUM_TASKS : Z := 20.
Definition MAX_TICKS : Z := 1000.

(** [main], up to the final statistics print: the simulator as the loop
    leaves it. *)
Definition main (fuel : nat) : M (option SoC.t) :=
  soc <- SoC.init NUM_P_CORES NUM_E_CORES NUM_TASKS ;;
  loop fuel NUM_TASKS MAX_TICKS soc.

End Main.

(** * Notions used in the statements *)

Definition above_floor (core : CPUCore.t) : Prop :=
  PrimFloat.leb 25.0 (CPUCore.temperature core) = true.

(** What [Task.__init__] produces: one of the two profiles, with the drawn
    numbers in their ranges. *)
Definition fresh_task (task_id arrival : Z) (task : Task.t) : Prop :=
  Task.id task = task_id /\ Task.arrival_time task = arrival
  /\ Task.cycles_done task = 0%float /\ Task.io_wait_timer task = 0
  /\ ((Task.type task = "CPU-Bound" /\ 200 <= Task.total_cycles task <= 500
       /\ Task.io_frequency task = 0)
      \/ (Task.type task = "I/O-Bound" /\ 50 <= Task.total_cycles task <= 100
          /\ 3 <= Task.io_frequency task <= 8)).

(** The cores the constructor builds: performance cores first. *)
Definition built_cores (num_p_cores num_e_cores : Z) : list CPUCore.t :=
  map (fun i => CPUCore.init i "P-core") (Py.range num_p_cores)
  ++ map (fun i => CPUCore.init (i + num_p_cores) "E-core")
         (Py.range num_e_cores).

(** The generator that yields [r] first and then behaves as [g]. *)
Definition cons_draw (r : Z) (g : Rng) : Rng :=
  fun n => match n with O => r | S n' => g n' end.

(** Whether a [work] call leaves the task waiting for I/O. *)
Definition fires (task : Task.t) (amount : float) (g : Rng) : bool :=
  match Task.work task amount g with
  | Py.Ok (task', _) => Task.is_waiting_for_io task'
  | Py.Raise _ => false
  end.

(** [randint(1, 100)] takes each of its 100 values for exactly one raw draw
    in [range(100)], so the number of those raw draws on which the event
    fires is the chance of an I/O event in percent. *)
Definition firing_draws (task : Task.t) (amount : float) (g : Rng) : nat :=
  List.length
    (filter (fun r => fires task amount (cons_draw r g)) (Py.range 100)).

(** An I/O-bound task as the constructor makes it, with [io_frequency] 3. *)
Definition io_task_3 : Task.t := Task.mk 0 0 "I/O-Bound" 50 3 0%float 0.

(** The power after [ticks] ticks in which every core of [cores] adds the
    idle draw 0.1 once, summed in the order the loop adds. *)
Fixpoint idle_power (ticks : nat) (cores : list CPUCore.t) (power : float)
  : float :=
  match ticks with
  | O => power
  | S n =>
      idle_power n cores (fold_left (fun p _ => (p + 0.1)%float) cores power)
  end.

Definition is_fresh_core (core : CPUCore.t) : Prop :=
  exists core_id core_type, core = CPUCore.init core_id core_type.

(** [k] halves as a float.  Every amount a constructed core passes to
    [work] (2.0, 1.0, or half of these when throttled) is a whole number of
    halves, and so is every value [cycles_done] takes. *)
Definition half (k : Z) : float := (Py.Z2F k * 0.5)%float.

Definition grid (n : Z) : list (Z * float) :=
  map (fun k => (k, half k)) (Py.range n).

(** On the grid the float order is the order of the indices. *)
Definition order_ok (a b : Z * float) : bool :=
  Bool.eqb (PrimFloat.ltb (snd a) (snd b)) (fst a <? fst b)
  && Bool.eqb (PrimFloat.leb (snd a) (snd b)) (fst a <=? fst b).

Definition order_check (t : list (Z * float)) : bool :=
  forallb (fun a => forallb (order_ok a) t) t.

(** On the grid float addition of an amount is exact. *)
Definition add_ok (a : Z * float) (m : Z) : bool :=
  PrimFloat.Leibniz.eqb (snd a + half m)%float (half (fst a + m)).

Definition add_check (t : list (Z * float)) : bool :=
  forallb (fun a => forallb (add_ok a) [1; 2; 4]) t.

(** An [int] number of cycles converts to an even number of halves. *)
Definition whole_check (l : list Z) : bool :=
  forallb (fun c => PrimFloat.Leibniz.eqb (Py.Z2F c) (half (2 * c))) l.

(** [n] ticks of one core in a row. *)
Fixpoint core_ticks (n : nat) (core : CPUCore.t) : M CPUCore.t :=
  match n with
  | O => ret core
  | S n' => core <- CPUCore.tick core ;; core_ticks n' core
  end.

(** A task within the constructor's range of [total_cycles] whose progress
    is [k] halves and less than [total_cycles + 2]; a fresh task is one with
    [k = 0]. *)
Definition on_grid (task : Task.t) (k : Z) : Prop :=
  0 <= Task.total_cycles task <= 500
  /\ 0 <= k <= 2 * Task.total_cycles task + 3
  /\ Task.cycles_done task = half k.

(** The simulator invariant behind the bound on progress: every core has
    one of the two base speeds, and every task, wherever it is, is on the
    grid. *)
Definition task_ok (task : Task.t) : Prop := exists k, on_grid task k.

Definition core_ok (core : CPUCore.t) : Prop :=
  (CPUCore.base_speed core = 2.0%float \/ CPUCore.base_speed core = 1.0%float)
  /\ forall task, CPUCore.current_task core = Some task -> task_ok task.

Definition soc_ok (s : SoC.t) : Prop :=
  Forall core_ok (SoC.all_cores s)
  /\ Forall task_ok (SoC.master_task_list s)
  /\ Forall task_ok (SoC.task_queue s)
  /\ Forall task_ok (SoC.completed_tasks s).

(** The tasks of a simulator, wherever they are. *)
Definition holds (s : SoC.t) (task : Task.t) : Prop :=
  In task (SoC.master_task_list s) \/ In task (SoC.task_queue s)
  \/ In task (SoC.completed_tasks s)
  \/ exists core, In core (SoC.all_cores s)
                  /\ CPUCore.current_task core = Some task.

(** A fresh I/O-bound task that needs 51 cycles. *)
Definition io_task_51 : Task.t := Task.mk 0 0 "I/O-Bound" 51 3 0%float 0.

(** The progress of the task a core holds after [n] ticks, if any. *)
Definition progress_after (n : nat) (core : CPUCore.t) (g : Rng)
  : option float :=
  match core_ticks n core g with
  | Py.Ok (core', _) => option_map Task.cycles_done (CPUCore.current_task core')
  | Py.Raise _ => None
  end.

(** The number of cores that hold a finished task. *)
Definition finished_bound (cores : list CPUCore.t) : nat :=
  List.length
    (filter (fun c => match CPUCore.current_task c with
                      | Some task => Task.is_finished task
                      | None => false
                      end) cores).

(** The draws of a run of [SoC(1, 0, 1)]: arrival tick 0, an I/O-bound
    profile with 50 cycles and [io_frequency] 3, then 100 at every
    [randint(1, 100)], so no I/O event ever fires. *)
Definition lone_task_draws : Rng := Random.of_list [0; 0; 0; 0] 99.

(** The simulator state after [n] ticks of that run. *)
Definition lone_task_run (n : nat) : option SoC.t :=
  match (s0 <- SoC.init 1 0 1 ;; SoC.run_ticks n s0) lone_task_draws with
  | Py.Ok (s, _) => Some s
  | Py.Raise _ => None
  end.

(** A fresh CPU-bound task. *)
Definition cpu_task_200 : Task.t := Task.mk 1 0 "CPU-Bound" 200 0 0%float 0.


(** The task bound to a core, as a list of at most one task. *)
Definition task_of (core : CPUCore.t) : list Task.t :=
  match CPUCore.current_task core with
  | Some task => [task]
  | None => []
  end.

(** The tasks bound to cores, in core order. *)
Definition bound_tasks (cores : list CPUCore.t) : list Task.t :=
  flat_map task_of cores.

(** The tasks the scheduling phase handles: bound, queued, completed. *)
Definition live_tasks (cores : list CPUCore.t) (queue completed : list Task.t)
  : list Task.t :=
  bound_tasks cores ++ queue ++ completed.

(** Every task of a simulator, container by container. *)
Definition all_tasks (s : SoC.t) : list Task.t :=
  SoC.master_task_list s
  ++ live_tasks (SoC.all_cores s) (SoC.task_queue s) (SoC.completed_tasks s).

Definition busy (core : CPUCore.t) : Prop :=
  CPUCore.current_task core <> None.

(** The order a stable sort by arrival time leaves tasks numbered in
    creation order in: by arrival time, and by id among equal arrivals. *)
Definition arrives_before (x y : Task.t) : Prop :=
  Task.arrival_time x < Task.arrival_time y
  \/ (Task.arrival_time x = Task.arrival_time y /\ Task.id x < Task.id y).

Definition arrives_no_later (x y : Task.t) : Prop :=
  Task.arrival_time x <= Task.arrival_time y.

(** [l'] is [l] with some elements left out. *)
Inductive thinned {A : Type} : list A -> list A -> Prop :=
| thinned_nil : thinned [] []
| thinned_keep x l' l : thinned l' l -> thinned (x :: l') (x :: l)
| thinned_drop x l' l : thinned l' l -> thinned l' (x :: l).

(** What [Task.__init__] fixes for good: id, arrival time, type, cycle
    budget and I/O frequency. *)
Definition profile (task : Task.t) : Z * Z * string * Z * Z :=
  (Task.id task, Task.arrival_time task, Task.type task,
   Task.total_cycles task, Task.io_frequency task).

Definition profile_id (p : Z * Z * string * Z * Z) : Z :=
  let '(i, _, _, _, _) := p in i.

(** A sequence of [work] calls on one task. *)
Fixpoint work_seq (amounts : list float) (task : Task.t) : M Task.t :=
  match amounts with
  | [] => ret task
  | amount :: rest => task <- Task.work task amount ;; work_seq rest task
  end.

(** The fields of a core that no operation touches. *)
Definition same_hardware (c c' : CPUCore.t) : Prop :=
  CPUCore.id c' = CPUCore.id c /\ CPUCore.type c' = CPUCore.type c
  /\ CPUCore.base_speed c' = CPUCore.base_speed c
  /\ CPUCore.power_draw c' = CPUCore.power_draw c
  /\ CPUCore.heat_generation c' = CPUCore.heat_generation c
  /\ CPUCore.idle_power_draw c' = CPUCore.idle_power_draw c
  /\ CPUCore.max_temp c' = CPUCore.max_temp c
  /\ CPUCore.cooling_factor c' = CPUCore.cooling_factor c.

(** Distinct ids within [range(N)], a property that rearranging and leaving
    out tasks keep. *)
Definition ids_ok (N : Z) (s : SoC.t) : Prop :=
  NoDup (map Task.id (all_tasks s))
  /\ forall i, In i (map Task.id (all_tasks s)) -> 0 <= i < N.

(** A CPU-bound task that arrives at tick 7. *)
Definition late_task : Task.t := Task.mk 2 7 "CPU-Bound" 200 0 0%float 0.

(** An I/O-bound task in the middle of a wait of 5 ticks. *)
Definition waiting_task : Task.t := Task.mk 0 0 "I/O-Bound" 50 3 2.0 5.

(** Tick 3 with one task that has arrived and one that has not. *)
Definition arrival_state : SoC.t :=
  SoC.mk [] [io_task_3; late_task] [] [] 3 0%float.

(** One performance core holding the waiting task. *)
Definition waiting_state : SoC.t :=
  SoC.mk [CPUCore.assign_task (CPUCore.init 0 "P-core") waiting_task]
    [] [] [] 0 0%float.

(** One step of the half-grid at [k]: [half k] compares with itself, lies
    strictly below the next point, and adding an amount a core passes is
    exact. *)
Definition step_ok (k : Z) : bool :=
  PrimFloat.leb (half k) (half k)
  && PrimFloat.ltb (half k) (half (k + 1))
  && forallb (fun m => PrimFloat.Leibniz.eqb (half k + half m)%float
                                             (half (k + m))) [1; 2; 4].

(** [step_ok] at the [n] points from [k] on. *)
Fixpoint steps_ok (n : nat) (k : Z) : bool :=
  match n with
  | O => true
  | S n' => step_ok k && steps_ok n' (k + 1)
  end.

(** The amounts a constructed core passes to [work]: base speed 1.0 or 2.0,
    or half of it when throttled. *)
Definition core_amount (a : float) : Prop :=
  In a [0.5%float; 1.0%float; 2.0%float].

(** The draws of [SoC(0, 0, 2)] for two I/O-bound tasks of 50 cycles and
    [io_frequency] 3, the first arriving at tick 0, the second at tick 7. *)
Definition two_task_draws : Rng := Random.of_list [0; 0; 0; 0; 7; 0; 0; 0] 0.

(** The second of these tasks. *)
Definition late_io_task : Task.t := Task.mk 1 7 "I/O-Bound" 50 3 0%float 0.

(** An efficiency core listed before a performance core, both idle, facing
    two I/O-bound tasks and then a CPU-bound one. *)
Definition affinity_state : SoC.t :=
  SoC.mk [CPUCore.init 0 "E-core"; CPUCore.init 1 "P-core"] []
    [io_task_3; io_task_51; cpu_task_200] [] 0 0%float.

(** * Properties *)

(** ** Order facts on binary64 numbers *)

Section FloatOrder.

Lemma SFcompare_antisym (x y : spec_float) :
  SFcompare y x = option_map CompOpp (SFcompare x y).
Proof.
  destruct x as [[]|[]| |[] m e], y as [[]|[]| |[] m' e'];
    simpl; try reflexivity.
  all: rewrite (Z.compare_antisym e e'); destruct (e ?= e');
    simpl; try reflexivity.
  all: change (Pos.compare_cont Eq m' m) with (Pos.compare m' m);
    change (Pos.compare_cont Eq m m') with (Pos.compare m m');
    rewrite (Pos.compare_antisym m m'), ?CompOpp_involutive; reflexivity.
Qed.

Lemma ltb_leb (x y : float) :
  PrimFloat.ltb x y = true -> PrimFloat.leb x y = true.
Proof.
  rewrite ltb_spec, leb_spec. unfold SFltb, SFleb.
  destruct (SFcompare _ _) as [[]|]; congruence.
Qed.

Lemma ltb_not_leb (x y : float) :
  PrimFloat.ltb x y = true -> PrimFloat.leb y x = false.
Proof.
  rewrite ltb_spec, leb_spec. unfold SFltb, SFleb.
  rewrite (SFcompare_antisym (Prim2SF x) (Prim2SF y)).
  destruct (SFcompare _ _) as [[]|]; simpl; congruence.
Qed.

(** [max(25.0, x)] is at least [25.0], whatever [x] is (a NaN included). *)
Lemma max_floor (x : float) : PrimFloat.leb 25.0 (Py.max 25.0 x) = true.
Proof.
  unfold Py.max. destruct (PrimFloat.ltb 25.0 x) eqn:E.
  - now apply ltb_leb.
  - reflexivity.
Qed.

End FloatOrder.

(** ** The random source never fails on a non-empty range *)

Lemma randint_ok (a b : Z) (g : Rng) :
  a <= b ->
  Random.randint a b g = Py.Ok (a + g 0%nat mod (b - a + 1), fun n => g (S n)).
Proof.
  intros H. unfold Random.randint.
  destruct (b - a + 1 <=? 0) eqn:E; [apply Z.leb_le in E; lia | reflexivity].
Qed.

Lemma randint_bounds (a b r : Z) :
  a <= b -> a <= a + r mod (b - a + 1) <= b.
Proof.
  intros H. pose proof (Z.mod_pos_bound r (b - a + 1)). lia.
Qed.

Lemma bind_ok {A B} (c : M A) (k : A -> M B) (g g' : Rng) (a : A) :
  c g = Py.Ok (a, g') -> bind c k g = k a g'.
Proof. intros H. unfold bind. now rewrite H. Qed.

(** ** Task.work, case by case *)

Section TaskWork.

Variables (task : Task.t) (amount : float) (g : Rng).

Lemma work_waiting :
  Task.is_waiting_for_io task = true ->
  Task.work task amount g
  = Py.Ok (Task.set_io_wait_timer task (Task.io_wait_timer task - 1), g).
Proof. intros H. unfold Task.work. now rewrite H. Qed.

Lemma work_not_io :
  Task.is_waiting_for_io task = false ->
  String.eqb (Task.type task) "I/O-Bound" = false ->
  Task.work task amount g
  = Py.Ok (Task.set_cycles_done task (Task.cycles_done task + amount)%float, g).
Proof.
  intros H1 H2. unfold Task.work. rewrite H1.
  cbn [Task.type Task.set_cycles_done]. now rewrite H2.
Qed.

Lemma work_io :
  Task.is_waiting_for_io task = false ->
  String.eqb (Task.type task) "I/O-Bound" = true ->
  let progressed :=
    Task.set_cycles_done task (Task.cycles_done task + amount)%float in
  Task.work task amount g
  = if 1 + g 0%nat mod 100 <? Task.io_frequency task
    then Py.Ok (Task.set_io_wait_timer progressed (5 + g 1%nat mod 6),
                fun n => g (S (S n)))
    else Py.Ok (progressed, fun n => g (S n)).
Proof.
  intros H1 H2 progressed. unfold Task.work. rewrite H1.
  cbn [Task.type Task.io_frequency Task.set_cycles_done]. rewrite H2.
  rewrite (bind_ok _ _ _ _ _ (randint_ok 1 100 g ltac:(lia))).
  change (100 - 1 + 1) with 100.
  destruct (1 + g 0%nat mod 100 <? Task.io_frequency task); [|reflexivity].
  rewrite (bind_ok _ _ _ _ _ (randint_ok 5 10 _ ltac:(lia))).
  reflexivity.
Qed.

(** [work] never raises, and touches [cycles_done] and [io_wait_timer]
    only. *)
Lemma work_total :
  exists cycles timer g',
    Task.work task amount g
    = Py.Ok (Task.set_io_wait_timer (Task.set_cycles_done task cycles) timer, g').
Proof.
  destruct (Task.is_waiting_for_io task) eqn:W.
  - rewrite (work_waiting W).
    exists (Task.cycles_done task). now destruct task; eexists _, _.
  - destruct (String.eqb (Task.type task) "I/O-Bound") eqn:T.
    + rewrite (work_io W T).
      destruct (_ <? _); [now eexists _, _, _|].
      exists (Task.cycles_done task + amount)%float, (Task.io_wait_timer task).
      now eexists.
    + rewrite (work_not_io W T).
      exists (Task.cycles_done task + amount)%float, (Task.io_wait_timer task).
      now eexists.
Qed.

End TaskWork.

(** ** CPUCore.tick and the tick loop never raise *)

Lemma core_tick_shape (core : CPUCore.t) (g : Rng) :
  exists task' g',
    CPUCore.tick core g
    = Py.Ok (CPUCore.set_current_task (CPUCore.update_temperature core) task', g').
Proof.
  unfold CPUCore.tick.
  set (c := CPUCore.update_temperature core).
  destruct (CPUCore.current_task c) as [task|] eqn:T.
  - destruct (Task.is_finished task); [unfold ret; eauto|].
    destruct (Task.is_waiting_for_io task).
    + exists (Some task), g. unfold ret. destruct c; simpl in *. now subst.
    + destruct (work_total task (CPUCore.get_current_speed c) g)
        as (cy & tm & g' & E).
      rewrite (bind_ok _ _ _ _ _ E). unfold ret. eauto.
  - exists None, g. unfold ret. destruct c; simpl in *. now subst.
Qed.

Lemma update_temperature_floor (core : CPUCore.t) :
  above_floor (CPUCore.update_temperature core).
Proof. unfold above_floor, CPUCore.update_temperature. simpl. apply max_floor. Qed.

Lemma core_tick_floor (core : CPUCore.t) (g : Rng) :
  exists core' g',
    CPUCore.tick core g = Py.Ok (core', g') /\ above_floor core'.
Proof.
  destruct (core_tick_shape core g) as (task' & g' & E).
  eexists _, g'. split; [exact E|]. apply update_temperature_floor.
Qed.

Lemma tick_cores_total (cores : list CPUCore.t) :
  forall (power : float) (g : Rng),
  exists cores' power' g',
    SoC.tick_cores cores power g = Py.Ok (cores', power', g')
    /\ Forall above_floor cores'
    /\ List.length cores' = List.length cores.
Proof.
  induction cores as [|core rest IH]; intros power g; simpl.
  - exists [], power, g. repeat split; constructor.
  - destruct (core_tick_floor core g) as (core' & g1 & E & F).
    rewrite (bind_ok _ _ _ _ _ E).
    destruct (IH (power + CPUCore.get_current_power_draw core')%float g1)
      as (rest' & power' & g2 & E2 & F2 & L2).
    rewrite (bind_ok _ _ _ _ _ E2).
    exists (core' :: rest'), power', g2.
    repeat split; [now constructor | simpl; now rewrite L2].
Qed.

Lemma run_simulation_tick_total (s : SoC.t) (g : Rng) :
  exists s' g',
    SoC.run_simulation_tick s g = Py.Ok (s', g')
    /\ Forall above_floor (SoC.all_cores s')
    /\ SoC.current_tick s' = SoC.current_tick s + 1.
Proof.
  unfold SoC.run_simulation_tick.
  set (s1 := SoC.schedule_rule_based (SoC.check_for_new_arrivals s)).
  destruct (tick_cores_total (SoC.all_cores s1) (SoC.total_power_consumed s1) g)
    as (cores' & power' & g' & E & F & _).
  rewrite (bind_ok _ _ _ _ _ E). unfold ret.
  eexists _, g'. split; [reflexivity|]. split; [exact F|]. simpl.
  subst s1. unfold SoC.schedule_rule_based, SoC.check_for_new_arrivals.
  destruct (SoC.arrivals_loop _ _ _) as [m q]. simpl.
  destruct q; simpl; [reflexivity|].
  destruct (SoC.schedule_cores _ _ _) as [[? ?] ?]. reflexivity.
Qed.

Lemma run_ticks_total (n : nat) :
  forall (s : SoC.t) (g : Rng),
  exists s' g',
    SoC.run_ticks n s g = Py.Ok (s', g')
    /\ (Forall above_floor (SoC.all_cores s) ->
        Forall above_floor (SoC.all_cores s'))
    /\ SoC.current_tick s' = SoC.current_tick s + Z.of_nat n.
Proof.
  induction n as [|n IH]; intros s g.
  - exists s, g. cbn [SoC.run_ticks]. unfold ret.
    repeat split; [tauto | lia].
  - cbn [SoC.run_ticks].
    destruct (run_simulation_tick_total s g) as (s1 & g1 & E1 & F1 & T1).
    rewrite (bind_ok _ _ _ _ _ E1).
    destruct (IH s1 g1) as (s2 & g2 & E2 & F2 & T2).
    exists s2, g2. repeat split; [exact E2 | auto | lia].
Qed.

(** ** Construction *)

Lemma task_init_total (task_id arrival : Z) (g : Rng) :
  exists task g',
    Task.init task_id arrival g = Py.Ok (task, g')
    /\ fresh_task task_id arrival task.
Proof.
  unfold Task.init. unfold bind at 1.
  unfold Random.random, Random.next_raw, bind, ret. cbv beta iota.
  destruct (PrimFloat.ltb _ _).
  - rewrite (randint_ok 200 500 _ ltac:(lia)).
    eexists _, _. split; [reflexivity|].
    unfold fresh_task; cbn [Task.id Task.arrival_time Task.cycles_done
      Task.io_wait_timer Task.type Task.total_cycles Task.io_frequency].
    repeat split. left. repeat split;
      apply (randint_bounds 200 500); lia.
  - rewrite (randint_ok 50 100 _ ltac:(lia)).
    rewrite (randint_ok 3 8 _ ltac:(lia)).
    eexists _, _. split; [reflexivity|].
    unfold fresh_task; cbn [Task.id Task.arrival_time Task.cycles_done
      Task.io_wait_timer Task.type Task.total_cycles Task.io_frequency].
    repeat split. right. repeat split;
      first [apply (randint_bounds 50 100); lia
            | apply (randint_bounds 3 8); lia].
Qed.

Lemma generate_loop_total (ids : list Z) (num_tasks : Z) :
  (ids <> [] -> 0 <= num_tasks) ->
  forall (tasks : list Task.t) (g : Rng),
  exists tasks' g',
    SoC.generate_loop ids num_tasks tasks g = Py.Ok (tasks', g')
    /\ List.length tasks' = (List.length tasks + List.length ids)%nat.
Proof.
  intros Hn. induction ids as [|i rest IH]; intros tasks g.
  - exists tasks, g. cbn. split; [reflexivity | lia].
  - cbn [SoC.generate_loop].
    assert (H0 : 0 <= num_tasks) by (apply Hn; discriminate).
    rewrite (bind_ok _ _ _ _ _ (randint_ok 0 (num_tasks * 5) g ltac:(lia))).
    destruct (task_init_total i (0 + g 0%nat mod (num_tasks * 5 - 0 + 1))
                (fun n => g (S n))) as (task & g1 & E & _).
    rewrite (bind_ok _ _ _ _ _ E).
    destruct (IH (fun _ => H0) (tasks ++ [task]) g1) as (tasks' & g2 & E2 & L).
    exists tasks', g2. split; [exact E2|].
    rewrite L, length_app. cbn. lia.
Qed.

Lemma insert_by_arrival_length (task : Task.t) (tasks : list Task.t) :
  List.length (SoC.insert_by_arrival task tasks) = S (List.length tasks).
Proof.
  induction tasks as [|x rest IH]; cbn; [reflexivity|].
  destruct (_ <? _); cbn; [reflexivity | now rewrite IH].
Qed.

Lemma sort_by_arrival_length (tasks : list Task.t) :
  List.length (SoC.sort_by_arrival tasks) = List.length tasks.
Proof.
  unfold SoC.sort_by_arrival.
  enough (H : forall acc,
    List.length (fold_left (fun sorted task => SoC.insert_by_arrival task sorted)
                   tasks acc) = (List.length acc + List.length tasks)%nat)
    by (rewrite H; reflexivity).
  induction tasks as [|x rest IH]; intros acc; cbn; [lia|].
  rewrite IH, insert_by_arrival_length. lia.
Qed.

Lemma range_length (n : Z) : List.length (Py.range n) = Z.to_nat n.
Proof. unfold Py.range. now rewrite length_map, length_seq. Qed.

Lemma range_nonempty (n : Z) : Py.range n <> [] -> 0 <= n.
Proof.
  intros H. destruct (Z.leb_spec 0 n) as [|L]; [assumption|].
  exfalso. apply H. unfold Py.range.
  replace (Z.to_nat n) with 0%nat by lia. reflexivity.
Qed.

Lemma generate_tasks_total (num_tasks : Z) (g : Rng) :
  exists tasks g',
    SoC.generate_tasks num_tasks g = Py.Ok (tasks, g')
    /\ List.length tasks = Z.to_nat num_tasks.
Proof.
  unfold SoC.generate_tasks.
  destruct (generate_loop_total (Py.range num_tasks) num_tasks
              (range_nonempty num_tasks) [] g) as (tasks & g' & E & L).
  rewrite (bind_ok _ _ _ _ _ E). unfold ret.
  eexists _, g'. split; [reflexivity|].
  rewrite sort_by_arrival_length, L, range_length. reflexivity.
Qed.

Lemma init_total (num_p_cores num_e_cores num_tasks : Z) (g : Rng) :
  exists master g',
    SoC.init num_p_cores num_e_cores num_tasks g
    = Py.Ok (SoC.mk (built_cores num_p_cores num_e_cores) master [] [] 0 0%float,
             g')
    /\ SoC.generate_tasks num_tasks g = Py.Ok (master, g')
    /\ List.length master = Z.to_nat num_tasks.
Proof.
  unfold SoC.init.
  destruct (generate_tasks_total num_tasks g) as (master & g' & E & L).
  rewrite (bind_ok _ _ _ _ _ E). unfold ret.
  exists master, g'. repeat split; assumption.
Qed.

Lemma core_init_floor (core_id : Z) (core_type : string) :
  above_floor (CPUCore.init core_id core_type).
Proof.
  unfold above_floor, CPUCore.init.
  destruct (String.eqb core_type "P-core"); reflexivity.
Qed.

Lemma built_cores_floor (num_p_cores num_e_cores : Z) :
  Forall above_floor (built_cores num_p_cores num_e_cores).
Proof.
  unfold built_cores. apply Forall_app. split; apply Forall_map;
    apply Forall_forall; intros; apply core_init_floor.
Qed.

(** ** Thermal throttling *)

(** C7: for every core whose throttle threshold is 90.0 and every
    temperature, [get_current_speed] returns the base speed when the
    temperature is strictly below 90.0, and half the base speed (the product
    [base_speed * 0.5], which is 1.0 for the performance profile and 0.5 for
    the efficiency profile) when the temperature is at least 90.0. *)
Theorem get_current_speed_throttle (core : CPUCore.t) :
  CPUCore.max_temp core = 90.0%float ->
  (PrimFloat.ltb (CPUCore.temperature core) 90.0 = true ->
   CPUCore.get_current_speed core = CPUCore.base_speed core)
  /\ (PrimFloat.leb 90.0 (CPUCore.temperature core) = true ->
      CPUCore.get_current_speed core = (CPUCore.base_speed core * 0.5)%float
      /\ (CPUCore.base_speed core = 2.0%float ->
          CPUCore.get_current_speed core = 1.0%float)
      /\ (CPUCore.base_speed core = 1.0%float ->
          CPUCore.get_current_speed core = 0.5%float)).
Proof.
  intros Hmax. unfold CPUCore.get_current_speed. rewrite Hmax. split.
  - intros Hlt. now rewrite (ltb_not_leb _ _ Hlt).
  - intros Hle. rewrite Hle. repeat split; intros ->; reflexivity.
Qed.

(** A performance core at 95.0 degrees runs at 1.0; at 89.9 it runs at 2.0. *)
Lemma get_current_speed_throttle_witness :
  CPUCore.get_current_speed
    (CPUCore.set_temperature (CPUCore.init 0 "P-core") 95.0) = 1.0%float
  /\ CPUCore.get_current_speed
       (CPUCore.set_temperature (CPUCore.init 0 "P-core") 89.9) = 2.0%float.
Proof.
  split.
  - exact (proj1 (proj2 (proj2 (get_current_speed_throttle
             (CPUCore.set_temperature (CPUCore.init 0 "P-core") 95.0)
             eq_refl) eq_refl)) eq_refl).
  - exact (proj1 (get_current_speed_throttle
             (CPUCore.set_temperature (CPUCore.init 0 "P-core") 89.9)
             eq_refl) eq_refl).
Defined.

(** C8: a core starts at 25.0; each [update_temperature] call adds the heat
    generation rate when a bound task that is not waiting for I/O is
    present and subtracts the cooling rate otherwise, then clamps at 25.0;
    so after any number of simulation ticks of any simulator every core's
    temperature is at least 25.0. *)
Theorem temperature_never_below_ambient :
  (forall core_id core_type,
     CPUCore.temperature (CPUCore.init core_id core_type) = 25.0%float)
  /\ (forall core,
        CPUCore.temperature (CPUCore.update_temperature core)
        = Py.max 25.0
            (if CPUCore.is_active core
             then CPUCore.temperature core + CPUCore.heat_generation core
             else CPUCore.temperature core - CPUCore.cooling_factor core)%float
        /\ PrimFloat.leb 25.0
             (CPUCore.temperature (CPUCore.update_temperature core)) = true)
  /\ (forall num_p_cores num_e_cores num_tasks (ticks : nat) (g : Rng),
      exists s g',
        (s0 <- SoC.init num_p_cores num_e_cores num_tasks ;;
         SoC.run_ticks ticks s0) g = Py.Ok (s, g')
        /\ Forall (fun core => PrimFloat.leb 25.0 (CPUCore.temperature core) = true)
                  (SoC.all_cores s)).
Proof.
  split; [|split].
  - intros i ty. unfold CPUCore.init.
    destruct (String.eqb ty "P-core"); reflexivity.
  - intros core. split; [reflexivity | apply update_temperature_floor].
  - intros p e n k g.
    destruct (init_total p e n g) as (master & g1 & E & _).
    rewrite (bind_ok _ _ _ _ _ E).
    destruct (run_ticks_total k
                (SoC.mk (built_cores p e) master [] [] 0 0%float) g1)
      as (s & g2 & E2 & F & _).
    exists s, g2. split; [exact E2|].
    apply F. apply built_cores_floor.
Qed.

(** ** Construction performs no validation *)

(** C9, amended: construction validates nothing.  For all integer counts,
    negative ones included, it returns a simulator without raising; a
    negative count behaves as zero: there are [max 0 num_p_cores]
    performance cores followed by [max 0 num_e_cores] efficiency cores and
    [max 0 num_tasks] tasks, all in the master list. *)
Theorem init_never_raises (num_p_cores num_e_cores num_tasks : Z) (g : Rng) :
  exists s g',
    SoC.init num_p_cores num_e_cores num_tasks g = Py.Ok (s, g')
    /\ SoC.all_cores s = built_cores num_p_cores num_e_cores
    /\ List.length (SoC.all_cores s)
       = (Z.to_nat num_p_cores + Z.to_nat num_e_cores)%nat
    /\ List.length (SoC.master_task_list s) = Z.to_nat num_tasks
    /\ SoC.task_queue s = [] /\ SoC.completed_tasks s = []
    /\ SoC.current_tick s = 0 /\ SoC.total_power_consumed s = 0%float.
Proof.
  destruct (init_total num_p_cores num_e_cores num_tasks g)
    as (master & g' & E & _ & L).
  eexists _, g'. split; [exact E|]. cbn.
  repeat split; try assumption.
  unfold built_cores. now rewrite length_app, !length_map, !range_length.
Qed.

(** C9 as stated fails: with every count negative the constructor returns
    an empty simulator instead of raising. *)
Lemma init_negative_counts_accepted :
  SoC.init (-1) (-1) (-1) (fun _ => 0)
  = Py.Ok (SoC.mk [] [] [] [] 0 0%float, fun _ => 0).
Proof. reflexivity. Qed.

(** ** Power accounting *)

Lemma core_tick_finished (core : CPUCore.t) (task : Task.t) (g : Rng) :
  CPUCore.current_task core = Some task ->
  Task.is_finished task = true ->
  CPUCore.tick core g
  = Py.Ok (CPUCore.set_current_task (CPUCore.update_temperature core) None, g).
Proof.
  intros Ht Hf. unfold CPUCore.tick.
  change (CPUCore.current_task (CPUCore.update_temperature core))
    with (CPUCore.current_task core).
  now rewrite Ht, Hf.
Qed.

Lemma core_tick_working (core : CPUCore.t) (task : Task.t) (g : Rng) :
  CPUCore.current_task core = Some task ->
  Task.is_finished task = false ->
  Task.is_waiting_for_io task = false ->
  CPUCore.tick core g
  = (task' <- Task.work task
                (CPUCore.get_current_speed (CPUCore.update_temperature core)) ;;
     ret (CPUCore.set_current_task (CPUCore.update_temperature core)
            (Some task'))) g.
Proof.
  intros Ht Hf Hw. unfold CPUCore.tick.
  change (CPUCore.current_task (CPUCore.update_temperature core))
    with (CPUCore.current_task core).
  now rewrite Ht, Hf, Hw.
Qed.



(** ** Assignment by affinity *)

Lemma scan_found (ty : string) (queue : list Task.t) :
  (exists t, In t queue /\ Task.type t = ty) ->
  exists i task,
    SoC.scan ty queue = Some i
    /\ nth_error queue i = Some task
    /\ Task.type task = ty
    /\ (forall j t, (j < i)%nat -> nth_error queue j = Some t ->
                    Task.type t <> ty).
Proof.
  induction queue as [|x rest IH]; intros (t & Hin & Hty).
  - destruct Hin.
  - cbn [SoC.scan]. destruct (String.eqb (Task.type x) ty) eqn:E.
    + exists 0%nat, x. repeat split; [now apply String.eqb_eq | lia].
    + assert (Hrest : exists t, In t rest /\ Task.type t = ty).
      { destruct Hin as [->|Hin]; [|eauto].
        apply String.eqb_neq in E. contradiction. }
      destruct (IH Hrest) as (i & task & Hs & Hn & Ht & Hfirst).
      exists (S i), task. rewrite Hs. repeat split; try assumption.
      intros [|j] t' Hj Hnth; cbn in Hnth.
      * inversion Hnth; subst. now apply String.eqb_neq.
      * apply (Hfirst j); [lia | assumption].
Qed.

Lemma scan_none (ty : string) (queue : list Task.t) :
  (forall t, In t queue -> Task.type t <> ty) -> SoC.scan ty queue = None.
Proof.
  induction queue as [|x rest IH]; intros H; cbn [SoC.scan]; [reflexivity|].
  destruct (String.eqb (Task.type x) ty) eqn:E.
  - apply String.eqb_eq in E. exfalso. apply (H x); [now left | assumption].
  - rewrite IH; [reflexivity|]. intros t Hin. apply H. now right.
Qed.

Lemma schedule_cores_app (cores1 cores2 : list CPUCore.t) :
  forall queue completed,
    SoC.schedule_cores (cores1 ++ cores2) queue completed
    = let '(done1, queue1, completed1) :=
        SoC.schedule_cores cores1 queue completed in
      let '(done2, queue2, completed2) :=
        SoC.schedule_cores cores2 queue1 completed1 in
      (done1 ++ done2, queue2, completed2).
Proof.
  induction cores1 as [|core rest IH]; intros queue completed.
  - cbn. now destruct (SoC.schedule_cores cores2 queue completed) as [[? ?] ?].
  - cbn [SoC.schedule_cores app].
    destruct (SoC.reclaim core completed) as [core1 completed1].
    destruct (SoC.assign core1 queue) as [core2 queue2].
    rewrite IH.
    destruct (SoC.schedule_cores rest queue2 completed1) as [[? ?] ?].
    now destruct (SoC.schedule_cores cores2 _ _) as [[? ?] ?].
Qed.

Lemma schedule_cores_empty_queue (cores : list CPUCore.t) :
  forall completed,
    snd (fst (SoC.schedule_cores cores [] completed)) = [].
Proof.
  induction cores as [|core rest IH]; intros completed; [reflexivity|].
  cbn [SoC.schedule_cores].
  destruct (SoC.reclaim core completed) as [core1 completed1].
  assert (E : SoC.assign core1 [] = (core1, []))
    by (unfold SoC.assign; now destruct (CPUCore.current_task core1)).
  rewrite E. specialize (IH completed1).
  now destruct (SoC.schedule_cores rest [] completed1) as [[? ?] ?].
Qed.

Lemma assign_performance (core : CPUCore.t) (queue : list Task.t) :
  CPUCore.type core = "P-core" ->
  CPUCore.current_task core = None ->
  (exists t, In t queue /\ Task.type t = "CPU-Bound") ->
  exists i task,
    nth_error queue i = Some task
    /\ Task.type task = "CPU-Bound"
    /\ (forall j t, (j < i)%nat -> nth_error queue j = Some t ->
                    Task.type t <> "CPU-Bound")
    /\ SoC.assign core queue
       = (CPUCore.assign_task core task, SoC.remove_at i queue).
Proof.
  intros Hp Hidle Hcpu.
  destruct (scan_found "CPU-Bound" queue Hcpu) as (i & task & Hs & Hn & Ht & Hf).
  exists i, task. repeat split; try assumption.
  unfold SoC.assign, SoC.select. rewrite Hidle, Hp, String.eqb_refl, Hs.
  destruct queue as [|x rest]; [destruct i; discriminate|].
  now rewrite Hn.
Qed.

(** ** I/O events *)

Lemma count_below (n : nat) (k : Z) :
  0 <= k ->
  List.length (filter (fun r => r <? k) (map Z.of_nat (seq 0 n)))
  = Nat.min n (Z.to_nat k).
Proof.
  intros Hk. induction n as [|n IH]; [reflexivity|].
  rewrite seq_S, map_app, filter_app, length_app, IH.
  cbn [Nat.add map filter].
  destruct (Z.ltb_spec (Z.of_nat n) k); cbn [List.length]; lia.
Qed.

Lemma fires_iff (task : Task.t) (amount : float) (g : Rng) :
  Task.type task = "I/O-Bound" ->
  Task.is_waiting_for_io task = false ->
  fires task amount g = (1 + g 0%nat mod 100 <? Task.io_frequency task).
Proof.
  intros Hty Hw. unfold fires.
  assert (Hio : String.eqb (Task.type task) "I/O-Bound" = true)
    by now apply String.eqb_eq.
  pose proof (work_io task amount g Hw Hio) as E. cbv zeta in E. rewrite E.
  destruct (1 + g 0%nat mod 100 <? Task.io_frequency task).
  - unfold Task.is_waiting_for_io. cbn [Task.io_wait_timer Task.set_io_wait_timer].
    apply Z.ltb_lt. pose proof (Z.mod_pos_bound (g 1%nat) 6). lia.
  - exact Hw.
Qed.

(** C5, amended: when [work] is applied to an I/O-bound task that is not
    waiting, the amount is added to [cycles_done] first; then [randint(1,
    100)] is drawn and the I/O event fires exactly when the draw is strictly
    below [io_frequency], setting [io_wait_timer] to a [randint(5, 10)]
    draw.  The event fires on [io_frequency - 1] of the 100 equally likely
    draws, that is with probability [(io_frequency - 1)]%, not
    [io_frequency]%. *)
Theorem io_event_after_progress (task : Task.t) (amount : float) (g : Rng) :
  Task.type task = "I/O-Bound" ->
  Task.is_waiting_for_io task = false ->
  exists d g1 w g2 task' g',
    Random.randint 1 100 g = Py.Ok (d, g1) /\ 1 <= d <= 100
    /\ Random.randint 5 10 g1 = Py.Ok (w, g2) /\ 5 <= w <= 10
    /\ Task.work task amount g = Py.Ok (task', g')
    /\ Task.cycles_done task' = (Task.cycles_done task + amount)%float
    /\ (d < Task.io_frequency task ->
        Task.io_wait_timer task' = w /\ g' = g2)
    /\ (Task.io_frequency task <= d ->
        Task.io_wait_timer task' = Task.io_wait_timer task /\ g' = g1)
    /\ (1 <= Task.io_frequency task <= 101 ->
        firing_draws task amount g = Z.to_nat (Task.io_frequency task - 1)).
Proof.
  intros Hty Hw.
  assert (Hio : String.eqb (Task.type task) "I/O-Bound" = true)
    by now apply String.eqb_eq.
  pose proof (work_io task amount g Hw Hio) as E. cbv zeta in E.
  exists (1 + g 0%nat mod (100 - 1 + 1)), (fun n => g (S n)),
         (5 + g 1%nat mod (10 - 5 + 1)), (fun n => g (S (S n))).
  assert (Hcount : 1 <= Task.io_frequency task <= 101 ->
                   firing_draws task amount g
                   = Z.to_nat (Task.io_frequency task - 1)).
  { intros Hf. unfold firing_draws.
    rewrite (filter_ext_in _ (fun r => r <? Task.io_frequency task - 1)).
    - unfold Py.range. rewrite count_below by lia.
      change (Z.to_nat 100) with 100%nat. lia.
    - intros r Hr. rewrite (fires_iff _ _ _ Hty Hw).
      cbn [cons_draw]. unfold Py.range in Hr.
      apply in_map_iff in Hr. destruct Hr as (k & <- & Hk).
      apply in_seq in Hk. rewrite Z.mod_small by lia.
      destruct (Z.ltb_spec (1 + Z.of_nat k) (Task.io_frequency task));
        destruct (Z.ltb_spec (Z.of_nat k) (Task.io_frequency task - 1));
        (reflexivity || lia). }
  destruct (1 + g 0%nat mod 100 <? Task.io_frequency task) eqn:D.
  - eexists _, _. split; [apply randint_ok; lia|].
    split; [apply (randint_bounds 1 100); lia|].
    split; [apply (randint_ok 5 10); lia|].
    split; [apply (randint_bounds 5 10); lia|].
    split; [exact E|]. split; [reflexivity|].
    apply Z.ltb_lt in D. change (100 - 1 + 1) with 100.
    repeat split; try reflexivity; try assumption; lia.
  - eexists _, _. split; [apply randint_ok; lia|].
    split; [apply (randint_bounds 1 100); lia|].
    split; [apply (randint_ok 5 10); lia|].
    split; [apply (randint_bounds 5 10); lia|].
    split; [exact E|]. split; [reflexivity|].
    apply Z.ltb_ge in D. change (100 - 1 + 1) with 100.
    repeat split; try reflexivity; try assumption; lia.
Qed.

(** C5 as stated fails: with [io_frequency] 3 the I/O event fires on 2 of
    the 100 equally likely draws (2%), not on 3 of them. *)
Lemma io_event_chance_is_not_io_frequency :
  Task.io_frequency io_task_3 = 3
  /\ firing_draws io_task_3 1.0 (fun _ => 0) = 2%nat.
Proof. split; reflexivity. Qed.

(** ** Ticks without cores or without tasks *)

Lemma built_cores_fresh (num_p_cores num_e_cores : Z) :
  Forall is_fresh_core (built_cores num_p_cores num_e_cores).
Proof.
  unfold built_cores. apply Forall_app. split; apply Forall_map;
    apply Forall_forall; intros i _; unfold is_fresh_core; eauto.
Qed.

Lemma fresh_core_tick (core : CPUCore.t) (g : Rng) :
  is_fresh_core core ->
  CPUCore.tick core g = Py.Ok (core, g)
  /\ CPUCore.get_current_power_draw core = 0.1%float.
Proof.
  intros (i & ty & ->). unfold CPUCore.init.
  destruct (String.eqb ty "P-core"); split; reflexivity.
Qed.

Lemma fresh_cores_tick (cores : list CPUCore.t) :
  Forall is_fresh_core cores ->
  forall power g,
    SoC.tick_cores cores power g
    = Py.Ok (cores, fold_left (fun p _ => (p + 0.1)%float) cores power, g).
Proof.
  induction 1 as [|core rest Hc _ IH]; intros power g; [reflexivity|].
  cbn [SoC.tick_cores fold_left].
  destruct (fresh_core_tick core g Hc) as [E D].
  rewrite (bind_ok _ _ _ _ _ E), D.
  now rewrite (bind_ok _ _ _ _ _ (IH _ _)).
Qed.

Lemma run_ticks_no_tasks (cores : list CPUCore.t) (ticks : nat) :
  Forall is_fresh_core cores ->
  forall tick power g,
    SoC.run_ticks ticks (SoC.mk cores [] [] [] tick power) g
    = Py.Ok (SoC.mk cores [] [] [] (tick + Z.of_nat ticks)
               (idle_power ticks cores power), g).
Proof.
  intros Hc. induction ticks as [|n IH]; intros tick power g.
  - cbn [SoC.run_ticks idle_power]. unfold ret.
    now replace (tick + Z.of_nat 0) with tick by lia.
  - cbn [SoC.run_ticks idle_power].
    assert (E : SoC.run_simulation_tick (SoC.mk cores [] [] [] tick power) g
                = Py.Ok (SoC.mk cores [] [] [] (tick + 1)
                           (fold_left (fun p _ => (p + 0.1)%float) cores power),
                         g)).
    { unfold SoC.run_simulation_tick, SoC.check_for_new_arrivals,
        SoC.schedule_rule_based.
      cbn [SoC.arrivals_loop SoC.master_task_list SoC.task_queue SoC.all_cores
           SoC.completed_tasks SoC.current_tick SoC.total_power_consumed].
      now rewrite (bind_ok _ _ _ _ _ (fresh_cores_tick cores Hc power g)). }
    rewrite (bind_ok _ _ _ _ _ E), IH.
    now replace (tick + 1 + Z.of_nat n) with (tick + Z.of_nat (S n)) by lia.
Qed.

Lemma arrivals_keep_tasks (tick : Z) (master : list Task.t) :
  forall queue master' queue',
    SoC.arrivals_loop tick master queue = (master', queue') ->
    queue' ++ master' = queue ++ master.
Proof.
  induction master as [|task rest IH]; intros queue master' queue' E.
  - cbn in E. now inversion E.
  - cbn [SoC.arrivals_loop] in E. destruct (Task.arrival_time task <=? tick).
    + rewrite (IH _ _ _ E), <- app_assoc. reflexivity.
    + now inversion E.
Qed.

Lemma run_ticks_no_cores (ticks : nat) :
  forall master queue tick g,
  exists master' queue',
    SoC.run_ticks ticks (SoC.mk [] master queue [] tick 0%float) g
    = Py.Ok (SoC.mk [] master' queue' [] (tick + Z.of_nat ticks) 0%float, g)
    /\ queue' ++ master' = queue ++ master.
Proof.
  induction ticks as [|n IH]; intros master queue tick g.
  - exists master, queue. cbn [SoC.run_ticks]. unfold ret.
    now replace (tick + Z.of_nat 0) with tick by lia.
  - cbn [SoC.run_ticks].
    destruct (SoC.arrivals_loop tick master queue) as [m1 q1] eqn:A.
    assert (E : SoC.run_simulation_tick (SoC.mk [] master queue [] tick 0%float) g
                = Py.Ok (SoC.mk [] m1 q1 [] (tick + 1) 0%float, g)).
    { unfold SoC.run_simulation_tick, SoC.check_for_new_arrivals,
        SoC.schedule_rule_based.
      cbn [SoC.master_task_list SoC.task_queue SoC.current_tick].
      rewrite A.
      cbn [SoC.master_task_list SoC.task_queue SoC.all_cores
           SoC.completed_tasks SoC.current_tick SoC.total_power_consumed].
      now destruct q1. }
    rewrite (bind_ok _ _ _ _ _ E).
    destruct (IH m1 q1 (tick + 1) g) as (m2 & q2 & E2 & K).
    exists m2, q2. rewrite E2.
    replace (tick + 1 + Z.of_nat n) with (tick + Z.of_nat (S n)) by lia.
    split; [reflexivity|]. rewrite K. exact (arrivals_keep_tasks _ _ _ _ _ A).
Qed.

Lemma range_nonpositive (n : Z) : n <= 0 -> Py.range n = [].
Proof.
  intros H. unfold Py.range. now replace (Z.to_nat n) with 0%nat by lia.
Qed.

(** C4 as stated fails in both of its cases.  With one core and zero tasks
    a tick raises [total_power_consumed] from 0.0 to 0.1; with zero cores
    and one task that arrives at tick 0 a tick moves the task from the
    master list to the ready queue. *)
Lemma idle_tick_changes_state :
  ((s0 <- SoC.init 1 0 0 ;; SoC.run_simulation_tick s0) (fun _ => 0)
   = Py.Ok (SoC.mk [CPUCore.init 0 "P-core"] [] [] [] 1 0.1, fun _ => 0)
   /\ PrimFloat.ltb 0 0.1 = true)
  /\ (SoC.init 0 0 1 (fun _ => 0)
      = Py.Ok (SoC.mk [] [io_task_3] [] [] 0 0, fun _ => 0)
      /\ SoC.run_simulation_tick (SoC.mk [] [io_task_3] [] [] 0 0) (fun _ => 0)
         = Py.Ok (SoC.mk [] [] [io_task_3] [] 1 0, fun _ => 0)).
Proof. repeat split. Qed.

(** ** Progress of a task *)

Lemma in_range (n k : Z) : 0 <= k < n -> In k (Py.range n).
Proof.
  intros H. unfold Py.range. apply in_map_iff.
  exists (Z.to_nat k). split; [lia|]. apply in_seq. lia.
Qed.

Lemma in_grid (n k : Z) : 0 <= k < n -> In (k, half k) (grid n).
Proof.
  intros H. unfold grid. apply in_map_iff.
  exists k. split; [reflexivity | now apply in_range].
Qed.

Lemma order_check_spec (t : list (Z * float)) :
  order_check t = true ->
  forall a b, In a t -> In b t -> order_ok a b = true.
Proof.
  unfold order_check. intros T a b Ha Hb.
  rewrite forallb_forall in T. specialize (T a Ha).
  rewrite forallb_forall in T. exact (T b Hb).
Qed.

Lemma add_check_spec (t : list (Z * float)) :
  add_check t = true ->
  forall a m, In a t -> In m [1; 2; 4] ->
              (snd a + half m)%float = half (fst a + m).
Proof.
  unfold add_check. intros T a m Ha Hm.
  rewrite forallb_forall in T. specialize (T a Ha).
  rewrite forallb_forall in T. specialize (T m Hm).
  now apply FloatAxioms.Leibniz.eqb_spec in T.
Qed.

Lemma whole_check_spec (l : list Z) :
  whole_check l = true -> forall c, In c l -> Py.Z2F c = half (2 * c).
Proof.
  unfold whole_check. intros T c Hc. rewrite forallb_forall in T.
  now apply FloatAxioms.Leibniz.eqb_spec, T.
Qed.

Lemma order_table : order_check (grid 1008) = true.
Proof. vm_compute. reflexivity. Qed.

Lemma add_table : add_check (grid 1004) = true.
Proof. vm_compute. reflexivity. Qed.

Lemma whole_table : whole_check (Py.range 501) = true.
Proof. vm_compute. reflexivity. Qed.

Lemma half_order (j k : Z) :
  0 <= j < 1008 -> 0 <= k < 1008 ->
  PrimFloat.ltb (half j) (half k) = (j <? k)
  /\ PrimFloat.leb (half j) (half k) = (j <=? k).
Proof.
  intros Hj Hk.
  pose proof (order_check_spec _ order_table _ _
                (in_grid 1008 j Hj) (in_grid 1008 k Hk)) as T.
  unfold order_ok in T. cbn [fst snd] in T.
  apply andb_prop in T. destruct T as [T1 T2].
  apply Bool.eqb_prop in T1, T2. now split.
Qed.

Lemma half_add (k m : Z) :
  0 <= k < 1004 -> In m [1; 2; 4] ->
  (half k + half m)%float = half (k + m).
Proof.
  intros Hk Hm.
  exact (add_check_spec _ add_table _ _ (in_grid 1004 k Hk) Hm).
Qed.

Lemma whole_is_half (c : Z) : 0 <= c <= 500 -> Py.Z2F c = half (2 * c).
Proof.
  intros Hc. apply (whole_check_spec _ whole_table), in_range. lia.
Qed.

Lemma work_cycles (task : Task.t) (amount : float) (g : Rng) :
  exists timer g',
    Task.work task amount g
    = Py.Ok (Task.set_io_wait_timer
               (Task.set_cycles_done task
                  (if Task.is_waiting_for_io task then Task.cycles_done task
                   else (Task.cycles_done task + amount)%float)) timer, g').
Proof.
  destruct (Task.is_waiting_for_io task) eqn:W.
  - rewrite (work_waiting _ _ _ W). now destruct task; eexists _, _.
  - destruct (String.eqb (Task.type task) "I/O-Bound") eqn:T.
    + rewrite (work_io _ _ _ W T).
      destruct (_ <? _); [now eexists _, _|].
      exists (Task.io_wait_timer task). now eexists.
    + rewrite (work_not_io _ _ _ W T).
      exists (Task.io_wait_timer task). now eexists.
Qed.

Lemma finished_on_grid (task : Task.t) (k : Z) :
  on_grid task k ->
  Task.is_finished task = (2 * Task.total_cycles task <=? k).
Proof.
  intros (Ht & Hk & Hc). unfold Task.is_finished.
  rewrite Hc, (whole_is_half _ Ht). apply half_order; lia.
Qed.

Lemma work_on_grid (task : Task.t) (k m : Z) (g : Rng) :
  on_grid task k -> In m [1; 2; 4] ->
  exists task' g' k',
    Task.work task (half m) g = Py.Ok (task', g')
    /\ Task.total_cycles task' = Task.total_cycles task
    /\ Task.cycles_done task' = half k'
    /\ k <= k' <= k + m
    /\ (Task.is_finished task = false -> on_grid task' k').
Proof.
  intros G Hm. pose proof G as (Ht & Hk & Hc).
  assert (Hm' : 1 <= m <= 4) by (cbn in Hm; lia).
  destruct (work_cycles task (half m) g) as (timer & g' & E).
  rewrite E. rewrite (finished_on_grid _ _ G).
  destruct (Task.is_waiting_for_io task).
  - exists (Task.set_io_wait_timer
              (Task.set_cycles_done task (Task.cycles_done task)) timer), g', k.
    split; [reflexivity|]. split; [reflexivity|]. split; [exact Hc|].
    split; [lia|]. intros _. unfold on_grid.
    cbn [Task.total_cycles Task.cycles_done Task.set_io_wait_timer
         Task.set_cycles_done].
    repeat split; try assumption; lia.
  - eexists _, g', (k + m). split; [reflexivity|]. split; [reflexivity|].
    assert (Hadd : (Task.cycles_done task + half m)%float = half (k + m))
      by (rewrite Hc; apply half_add; [lia | assumption]).
    split; [exact Hadd|]. split; [lia|].
    intros F. apply Z.leb_gt in F. unfold on_grid.
    cbn [Task.total_cycles Task.cycles_done Task.set_io_wait_timer
         Task.set_cycles_done].
    repeat split; try exact Hadd; lia.
Qed.

Lemma speed_on_grid (core : CPUCore.t) :
  CPUCore.base_speed core = 2.0%float \/ CPUCore.base_speed core = 1.0%float ->
  exists m, In m [1; 2; 4] /\ CPUCore.get_current_speed core = half m.
Proof.
  intros H. unfold CPUCore.get_current_speed.
  destruct (PrimFloat.leb _ _), H as [-> | ->];
    [exists 2 | exists 1 | exists 4 | exists 2];
    (split; [cbn; tauto | reflexivity]).
Qed.

Lemma core_tick_waiting (core : CPUCore.t) (task : Task.t) (g : Rng) :
  CPUCore.current_task core = Some task ->
  Task.is_finished task = false ->
  Task.is_waiting_for_io task = true ->
  CPUCore.tick core g = Py.Ok (CPUCore.update_temperature core, g).
Proof.
  intros Ht Hf Hw. unfold CPUCore.tick.
  change (CPUCore.current_task (CPUCore.update_temperature core))
    with (CPUCore.current_task core).
  now rewrite Ht, Hf, Hw.
Qed.

Lemma core_tick_idle (core : CPUCore.t) (g : Rng) :
  CPUCore.current_task core = None ->
  CPUCore.tick core g = Py.Ok (CPUCore.update_temperature core, g).
Proof.
  intros Ht. unfold CPUCore.tick.
  change (CPUCore.current_task (CPUCore.update_temperature core))
    with (CPUCore.current_task core).
  now rewrite Ht.
Qed.

Lemma core_ticks_idle (n : nat) :
  forall core g,
    CPUCore.current_task core = None ->
    exists core' g',
      core_ticks n core g = Py.Ok (core', g')
      /\ CPUCore.current_task core' = None.
Proof.
  induction n as [|n IH]; intros core g Hidle.
  - exists core, g. now split.
  - cbn [core_ticks]. rewrite (bind_ok _ _ _ _ _ (core_tick_idle core g Hidle)).
    apply IH. exact Hidle.
Qed.

Lemma core_tick_on_grid (core : CPUCore.t) (task : Task.t) (k : Z) (g : Rng) :
  CPUCore.base_speed core = 2.0%float \/ CPUCore.base_speed core = 1.0%float ->
  CPUCore.current_task core = Some task ->
  on_grid task k ->
  exists core' g',
    CPUCore.tick core g = Py.Ok (core', g')
    /\ CPUCore.base_speed core' = CPUCore.base_speed core
    /\ (CPUCore.current_task core' = None
        \/ exists task' k',
             CPUCore.current_task core' = Some task'
             /\ on_grid task' k' /\ k <= k'
             /\ Task.total_cycles task' = Task.total_cycles task).
Proof.
  intros Hb Ht G.
  destruct (Task.is_finished task) eqn:F.
  - rewrite (core_tick_finished core task g Ht F).
    eexists _, g. split; [reflexivity|]. split; [reflexivity|]. now left.
  - destruct (Task.is_waiting_for_io task) eqn:W.
    + rewrite (core_tick_waiting core task g Ht F W).
      eexists _, g. split; [reflexivity|]. split; [reflexivity|].
      right. exists task, k.
      split; [exact Ht|]. split; [exact G|]. split; [lia | reflexivity].
    + rewrite (core_tick_working core task g Ht F W).
      destruct (speed_on_grid (CPUCore.update_temperature core) Hb)
        as (m & Hm & ->).
      destruct (work_on_grid task k m g G Hm)
        as (task' & g' & k' & E & Htot & Hc & Hk & Hg).
      rewrite (bind_ok _ _ _ _ _ E). unfold ret.
      eexists _, g'. split; [reflexivity|]. split; [reflexivity|].
      right. exists task', k'.
      split; [reflexivity|]. split; [exact (Hg F)|]. split; [lia | exact Htot].
Qed.

Lemma core_ticks_on_grid (n : nat) :
  forall (core : CPUCore.t) (task : Task.t) (k : Z) (g : Rng),
    CPUCore.base_speed core = 2.0%float \/ CPUCore.base_speed core = 1.0%float ->
    CPUCore.current_task core = Some task ->
    on_grid task k ->
    exists core' g',
      core_ticks n core g = Py.Ok (core', g')
      /\ forall task', CPUCore.current_task core' = Some task' ->
           exists k', on_grid task' k' /\ k <= k'
                      /\ Task.total_cycles task' = Task.total_cycles task.
Proof.
  induction n as [|n IH]; intros core task k g Hb Ht G.
  - exists core, g. split; [reflexivity|]. intros task' Ht'.
    rewrite Ht in Ht'. inversion Ht'; subst. exists k.
    split; [exact G|]. split; [lia | reflexivity].
  - cbn [core_ticks].
    destruct (core_tick_on_grid core task k g Hb Ht G)
      as (core1 & g1 & E & Hb1 & [Hnone | (task1 & k1 & Ht1 & G1 & Hk1 & Htot1)]).
    + rewrite (bind_ok _ _ _ _ _ E).
      destruct (core_ticks_idle n core1 g1 Hnone) as (core' & g' & E' & Hn').
      exists core', g'. split; [exact E'|]. intros task' Ht'. congruence.
    + rewrite (bind_ok _ _ _ _ _ E). rewrite <- Hb1 in Hb.
      destruct (IH core1 task1 k1 g1 Hb Ht1 G1) as (core' & g' & E' & H').
      exists core', g'. split; [exact E'|]. intros task' Ht'.
      destruct (H' task' Ht') as (k' & G' & Hk' & Htot').
      exists k'. split; [exact G'|]. split; [lia | congruence].
Qed.

Lemma fresh_on_grid (task_id arrival : Z) (task : Task.t) :
  fresh_task task_id arrival task -> on_grid task 0.
Proof.
  intros (_ & _ & Hc & _ & [(_ & Ht & _) | (_ & Ht & _)]);
    (split; [lia | split; [lia | exact Hc]]).
Qed.

Lemma core_init_ok (core_id : Z) (core_type : string) :
  core_ok (CPUCore.init core_id core_type).
Proof.
  unfold core_ok, CPUCore.init.
  destruct (String.eqb core_type "P-core"); cbn;
    (split; [tauto | discriminate]).
Qed.

Lemma generate_loop_ok (ids : list Z) (num_tasks : Z) :
  forall tasks g tasks' g',
    Forall task_ok tasks ->
    SoC.generate_loop ids num_tasks tasks g = Py.Ok (tasks', g') ->
    Forall task_ok tasks'.
Proof.
  induction ids as [|i rest IH]; intros tasks g tasks' g' F E.
  - cbn in E. unfold ret in E. inversion E. now subst.
  - cbn [SoC.generate_loop] in E. unfold bind at 1 in E.
    destruct (Random.randint 0 (num_tasks * 5) g) as [[arrival g1]|] eqn:R;
      [|discriminate].
    destruct (task_init_total i arrival g1) as (task & g2 & Et & Hfresh).
    rewrite (bind_ok _ _ _ _ _ Et) in E.
    assert (Ht : task_ok task) by (exists 0; exact (fresh_on_grid _ _ _ Hfresh)).
    refine (IH _ _ _ _ _ E). apply Forall_app. split; [exact F|].
    constructor; [exact Ht | constructor].
Qed.

Lemma insert_by_arrival_ok (task : Task.t) (tasks : list Task.t) :
  task_ok task -> Forall task_ok tasks ->
  Forall task_ok (SoC.insert_by_arrival task tasks).
Proof.
  intros Ht. induction 1 as [|x rest Hx Hrest IH]; cbn [SoC.insert_by_arrival].
  - now constructor.
  - destruct (_ <? _); repeat constructor; assumption.
Qed.

Lemma sort_by_arrival_ok (tasks : list Task.t) :
  Forall task_ok tasks -> Forall task_ok (SoC.sort_by_arrival tasks).
Proof.
  unfold SoC.sort_by_arrival.
  enough (H : forall acc, Forall task_ok acc -> Forall task_ok tasks ->
    Forall task_ok
      (fold_left (fun sorted task => SoC.insert_by_arrival task sorted)
                 tasks acc)) by (apply H; constructor).
  induction tasks as [|x rest IH]; intros acc Ha Ht; cbn [fold_left];
    [assumption|].
  inversion Ht; subst. apply IH; [now apply insert_by_arrival_ok | assumption].
Qed.

Lemma init_ok (num_p_cores num_e_cores num_tasks : Z) (g : Rng) s g' :
  SoC.init num_p_cores num_e_cores num_tasks g = Py.Ok (s, g') -> soc_ok s.
Proof.
  unfold SoC.init, SoC.generate_tasks. intros E.
  unfold bind at 1 2 in E.
  destruct (SoC.generate_loop _ _ _ _) as [[tasks g1]|] eqn:L; [|discriminate].
  unfold ret in E. inversion E; subst. unfold soc_ok.
  cbn [SoC.all_cores SoC.master_task_list SoC.task_queue SoC.completed_tasks].
  repeat split; try constructor.
  - apply Forall_app. split; apply Forall_map; apply Forall_forall;
      intros; apply core_init_ok.
  - apply sort_by_arrival_ok.
    exact (generate_loop_ok _ _ _ _ _ _ (Forall_nil _) L).
Qed.

Lemma arrivals_loop_ok (tick : Z) (master : list Task.t) :
  forall queue master' queue',
    Forall task_ok master -> Forall task_ok queue ->
    SoC.arrivals_loop tick master queue = (master', queue') ->
    Forall task_ok master' /\ Forall task_ok queue'.
Proof.
  induction master as [|task rest IH]; intros queue master' queue' Hm Hq E.
  - cbn in E. inversion E; subst. now split.
  - cbn [SoC.arrivals_loop] in E. inversion Hm; subst.
    destruct (Task.arrival_time task <=? tick).
    + refine (IH _ _ _ H2 _ E). apply Forall_app. split; [exact Hq|].
      constructor; [exact H1 | constructor].
    + inversion E; subst. now split.
Qed.

Lemma remove_at_ok (i : nat) :
  forall queue, Forall task_ok queue -> Forall task_ok (SoC.remove_at i queue).
Proof.
  induction i as [|i IH]; intros queue Hq; destruct Hq; cbn;
    try constructor; auto.
Qed.

Lemma schedule_cores_ok (cores : list CPUCore.t) :
  forall queue completed cores' queue' completed',
    Forall core_ok cores -> Forall task_ok queue -> Forall task_ok completed ->
    SoC.schedule_cores cores queue completed = (cores', queue', completed') ->
    Forall core_ok cores' /\ Forall task_ok queue'
    /\ Forall task_ok completed'.
Proof.
  induction cores as [|core rest IH];
    intros queue completed cores' queue' completed' Hc Hq Hd E.
  - cbn in E. inversion E; subst. auto.
  - inversion Hc as [|? ? [Hb Ht] Hrest]; subst.
    cbn [SoC.schedule_cores] in E.
    destruct (SoC.reclaim core completed) as [core1 completed1] eqn:R.
    assert (H1 : core_ok core1 /\ Forall task_ok completed1).
    { unfold SoC.reclaim in R.
      destruct (CPUCore.current_task core) as [task|] eqn:T.
      - destruct (Task.is_finished task); inversion R; subst.
        + split; [split; [exact Hb | discriminate]|].
          apply Forall_app. split; [assumption|].
          constructor; [now apply Ht | constructor].
        + split; [split; [exact Hb | now rewrite T]| assumption].
      - inversion R; subst. split; [split; [exact Hb | now rewrite T]|].
        assumption. }
    destruct H1 as [[Hb1 Ht1] Hd1].
    destruct (SoC.assign core1 queue) as [core2 queue2] eqn:A.
    assert (H2 : core_ok core2 /\ Forall task_ok queue2).
    { unfold SoC.assign in A.
      destruct (CPUCore.current_task core1) eqn:T;
        [inversion A; subst; split; [split; [exact Hb1 | now rewrite T]|];
         assumption|].
      destruct queue as [|x q];
        [inversion A; subst; split; [split; [exact Hb1 | now rewrite T]|];
         assumption|].
      destruct (SoC.select core1 (x :: q)) as [i|];
        [|inversion A; subst; split; [split; [exact Hb1 | now rewrite T]|];
          assumption].
      destruct (nth_error (x :: q) i) as [task|] eqn:N;
        [|inversion A; subst; split; [split; [exact Hb1 | now rewrite T]|];
          assumption].
      inversion A; subst. split; [|now apply remove_at_ok].
      split; [exact Hb1|]. intros task' E'. cbn in E'. inversion E'; subst.
      apply nth_error_In in N.
      exact (proj1 (Forall_forall _ _) Hq _ N). }
    destruct H2 as [Hc2 Hq2].
    destruct (SoC.schedule_cores rest queue2 completed1)
      as [[rest' q'] d'] eqn:S.
    inversion E; subst.
    destruct (IH _ _ _ _ _ Hrest Hq2 Hd1 S) as (Hr & Hq' & Hd').
    repeat split; [constructor|..]; assumption.
Qed.

Lemma tick_cores_ok (cores : list CPUCore.t) :
  forall power g cores' power' g',
    Forall core_ok cores ->
    SoC.tick_cores cores power g = Py.Ok (cores', power', g') ->
    Forall core_ok cores'.
Proof.
  induction cores as [|core rest IH]; intros power g cores' power' g' Hc E.
  - cbn in E. unfold ret in E. inversion E. constructor.
  - inversion Hc as [|? ? [Hb Ht] Hrest]; subst.
    cbn [SoC.tick_cores] in E.
    assert (H1 : exists core1 g1,
               CPUCore.tick core g = Py.Ok (core1, g1) /\ core_ok core1).
    { destruct (CPUCore.current_task core) as [task|] eqn:T.
      - destruct (Ht task eq_refl) as (k & G).
        destruct (core_tick_on_grid core task k g Hb T G)
          as (core1 & g1 & E1 & Hb1 & H1).
        exists core1, g1. split; [exact E1|]. split; [now rewrite Hb1|].
        intros task1 T1. destruct H1 as [Hn | (t' & k' & T' & G' & _)].
        + congruence.
        + exists k'. congruence.
      - rewrite (core_tick_idle core g T). eexists _, g.
        split; [reflexivity|]. split; [exact Hb|].
        intros task1 T1. cbn in T1. congruence. }
    destruct H1 as (core1 & g1 & E1 & Hok1).
    rewrite (bind_ok _ _ _ _ _ E1) in E.
    destruct (tick_cores_total rest
                (power + CPUCore.get_current_power_draw core1)%float g1)
      as (rest' & p2 & g2 & E2 & _).
    rewrite (bind_ok _ _ _ _ _ E2) in E. unfold ret in E. inversion E; subst.
    constructor; [exact Hok1|]. exact (IH _ _ _ _ _ Hrest E2).
Qed.

Lemma run_simulation_tick_ok (s : SoC.t) (g : Rng) s' g' :
  soc_ok s -> SoC.run_simulation_tick s g = Py.Ok (s', g') -> soc_ok s'.
Proof.
  intros (Hc & Hm & Hq & Hd) E. unfold SoC.run_simulation_tick in E.
  assert (H1 : soc_ok (SoC.check_for_new_arrivals s)).
  { unfold SoC.check_for_new_arrivals.
    destruct (SoC.arrivals_loop _ _ _) as [m q] eqn:A.
    destruct (arrivals_loop_ok _ _ _ _ _ Hm Hq A) as [Hm' Hq'].
    repeat split; assumption. }
  assert (H2 : soc_ok (SoC.schedule_rule_based (SoC.check_for_new_arrivals s))).
  { revert H1. generalize (SoC.check_for_new_arrivals s).
    intros s1 (Hc1 & Hm1 & Hq1 & Hd1). unfold SoC.schedule_rule_based.
    destruct (SoC.schedule_cores (SoC.all_cores s1) (SoC.task_queue s1)
                (SoC.completed_tasks s1)) as [[cores' q'] d'] eqn:S.
    destruct (schedule_cores_ok _ _ _ _ _ _ Hc1 Hq1 Hd1 S) as (? & ? & ?).
    destruct (SoC.task_queue s1) eqn:Q.
    - unfold soc_ok. rewrite Q. repeat split; assumption.
    - repeat split; assumption. }
  revert H2 E.
  generalize (SoC.schedule_rule_based (SoC.check_for_new_arrivals s)).
  intros s2 (Hc2 & Hm2 & Hq2 & Hd2) E.
  destruct (tick_cores_total (SoC.all_cores s2) (SoC.total_power_consumed s2) g)
    as (cores' & power' & g2 & E2 & _).
  rewrite (bind_ok _ _ _ _ _ E2) in E. unfold ret in E. inversion E; subst.
  repeat split; try assumption. exact (tick_cores_ok _ _ _ _ _ _ Hc2 E2).
Qed.

Lemma run_ticks_ok (n : nat) :
  forall s g s' g',
    soc_ok s -> SoC.run_ticks n s g = Py.Ok (s', g') -> soc_ok s'.
Proof.
  induction n as [|n IH]; intros s g s' g' H E.
  - cbn in E. unfold ret in E. inversion E. now subst.
  - cbn [SoC.run_ticks] in E.
    destruct (run_simulation_tick_total s g) as (s1 & g1 & E1 & _).
    rewrite (bind_ok _ _ _ _ _ E1) in E.
    exact (IH _ _ _ _ (run_simulation_tick_ok _ _ _ _ H E1) E).
Qed.

Lemma soc_ok_holds (s : SoC.t) (task : Task.t) :
  soc_ok s -> holds s task -> task_ok task.
Proof.
  intros (Hc & Hm & Hq & Hd) [H | [H | [H | (core & H & T)]]].
  - exact (proj1 (Forall_forall _ _) Hm _ H).
  - exact (proj1 (Forall_forall _ _) Hq _ H).
  - exact (proj1 (Forall_forall _ _) Hd _ H).
  - exact (proj2 (proj1 (Forall_forall _ _) Hc _ H) _ T).
Qed.

(** ** Sequences of work calls *)

Lemma SFleb_trans (x y z : spec_float) :
  SFleb x y = true -> SFleb y z = true -> SFleb x z = true.
Proof.
  unfold SFleb.
  destruct x as [[]|[]| |[] mx ex], y as [[]|[]| |[] my ey],
           z as [[]|[]| |[] mz ez];
    cbn [SFcompare]; try congruence; try (intros; reflexivity).
  all: change (Pos.compare_cont Eq) with Pos.compare.
  all: destruct (Z.compare_spec ex ey), (Z.compare_spec ey ez),
         (Z.compare_spec ex ez); subst; try lia; try congruence;
       try (intros; reflexivity).
  all: destruct (Pos.compare_spec mx my), (Pos.compare_spec my mz),
         (Pos.compare_spec mx mz); subst; cbn [CompOpp];
       try lia; try congruence; try (intros; reflexivity).
Qed.

Lemma leb_trans (x y z : float) :
  PrimFloat.leb x y = true -> PrimFloat.leb y z = true ->
  PrimFloat.leb x z = true.
Proof. rewrite !leb_spec. apply SFleb_trans. Qed.

Lemma steps_ok_spec (n : nat) :
  forall k0, steps_ok n k0 = true ->
  forall k, k0 <= k < k0 + Z.of_nat n -> step_ok k = true.
Proof.
  induction n as [|n IH]; intros k0 T k Hk; [lia|].
  cbn [steps_ok] in T. apply andb_prop in T. destruct T as [T0 T].
  destruct (Z.eq_dec k k0) as [->|Hne]; [exact T0|].
  apply (IH (k0 + 1) T). lia.
Qed.

Lemma step_table : steps_ok (Z.to_nat 200000) 0 = true.
Proof. vm_compute. reflexivity. Qed.

Lemma half_step (k : Z) :
  0 <= k < 200000 ->
  PrimFloat.leb (half k) (half k) = true
  /\ PrimFloat.ltb (half k) (half (k + 1)) = true
  /\ forall m, In m [1; 2; 4] -> (half k + half m)%float = half (k + m).
Proof.
  intros Hk.
  pose proof (steps_ok_spec _ _ step_table k ltac:(lia)) as T.
  unfold step_ok in T.
  apply andb_prop in T. destruct T as [T T3].
  apply andb_prop in T. destruct T as [T1 T2].
  split; [exact T1|]. split; [exact T2|].
  intros m Hm. rewrite forallb_forall in T3.
  now apply FloatAxioms.Leibniz.eqb_spec, T3.
Qed.

Lemma half_le (j k : Z) :
  0 <= j -> j <= k -> k < 200000 ->
  PrimFloat.leb (half j) (half k) = true.
Proof.
  intros Hj Hjk Hk.
  remember (Z.to_nat (k - j)) as d eqn:Hd. revert k Hjk Hk Hd.
  induction d as [|d IH]; intros k Hjk Hk Hd.
  - replace k with j by lia. apply (half_step j). lia.
  - apply (leb_trans _ (half (k - 1))).
    + apply IH; lia.
    + apply ltb_leb. replace k with (k - 1 + 1) at 2 by lia.
      apply (half_step (k - 1)). lia.
Qed.

Lemma core_amount_half (a : float) :
  core_amount a -> exists m, In m [1; 2; 4] /\ a = half m.
Proof.
  intros [<- | [<- | [<- | []]]];
    [exists 1 | exists 2 | exists 4]; split; try reflexivity; cbn; tauto.
Qed.

Lemma work_seq_app (amounts1 amounts2 : list float) :
  forall task g,
    work_seq (amounts1 ++ amounts2) task g
    = (task1 <- work_seq amounts1 task ;; work_seq amounts2 task1) g.
Proof.
  induction amounts1 as [|a rest IH]; intros task g; [reflexivity|].
  cbn [work_seq app]. unfold bind.
  destruct (Task.work task a g) as [[task' g']|e]; [|reflexivity].
  rewrite IH. reflexivity.
Qed.

Lemma work_seq_grid (amounts : list float) :
  forall task k g,
    0 <= k -> Task.cycles_done task = half k ->
    Forall core_amount amounts ->
    k + 4 * Z.of_nat (List.length amounts) < 200000 ->
    exists task' g' k',
      work_seq amounts task g = Py.Ok (task', g')
      /\ Task.cycles_done task' = half k'
      /\ k <= k' <= k + 4 * Z.of_nat (List.length amounts)
      /\ Task.total_cycles task' = Task.total_cycles task.
Proof.
  induction amounts as [|a rest IH]; intros task k g Hk Hc Ha Hb.
  - exists task, g, k. cbn [work_seq List.length]. unfold ret.
    repeat split; try assumption; lia.
  - cbn [List.length] in Hb. rewrite Nat2Z.inj_succ in Hb.
    inversion Ha as [|a' rest' Ha1 Ha2]; subst.
    destruct (core_amount_half a Ha1) as (m & Hm & ->).
    destruct (work_cycles task (half m) g) as (timer & g1 & E).
    assert (Hm' : 1 <= m <= 4) by (cbn in Hm; lia).
    set (task1 := Task.set_io_wait_timer _ timer) in E.
    assert (H1 : exists k1, Task.cycles_done task1 = half k1
                            /\ k <= k1 <= k + 4).
    { subst task1. cbn [Task.cycles_done Task.set_io_wait_timer
                        Task.set_cycles_done].
      destruct (Task.is_waiting_for_io task).
      - exists k. split; [exact Hc | lia].
      - exists (k + m). rewrite Hc. split; [|lia].
        apply (half_step k); [lia | exact Hm]. }
    destruct H1 as (k1 & Hc1 & Hk1).
    destruct (IH task1 k1 g1 ltac:(lia) Hc1 Ha2 ltac:(lia))
      as (task' & g' & k' & E' & Hc' & Hk' & Ht').
    exists task', g', k'. cbn [work_seq List.length].
    rewrite (bind_ok _ _ _ _ _ E), Nat2Z.inj_succ.
    split; [exact E'|]. split; [exact Hc'|]. split; [lia|].
    rewrite Ht'. subst task1. reflexivity.
Qed.

Lemma core_ticks_speed (n : nat) :
  forall core g core' g',
    core_ticks n core g = Py.Ok (core', g') ->
    CPUCore.base_speed core' = CPUCore.base_speed core.
Proof.
  induction n as [|n IH]; intros core g core' g' E.
  - cbn in E. unfold ret in E. now inversion E.
  - cbn [core_ticks] in E.
    destruct (core_tick_shape core g) as (t1 & g1 & E1).
    rewrite (bind_ok _ _ _ _ _ E1) in E.
    now rewrite (IH _ _ _ _ E).
Qed.

Lemma core_ticks_app (n m : nat) :
  forall core g,
    core_ticks (n + m) core g
    = (core1 <- core_ticks n core ;; core_ticks m core1) g.
Proof.
  induction n as [|n IH]; intros core g; [reflexivity|].
  cbn [core_ticks Nat.add]. unfold bind.
  destruct (CPUCore.tick core g) as [[core1 g1]|e]; [|reflexivity].
  rewrite IH. reflexivity.
Qed.

(** C3, amended: [cycles_done] never decreases but is not capped at
    [total_cycles].  (1) Across any sequence of [work] calls with the
    amounts a core passes (0.5, 1.0 or 2.0), on a task whose progress is a
    whole number of halves and stays below 100000 cycles, the calls all
    return, and [cycles_done] after any part of the sequence is at most
    [cycles_done] after any longer part; the progress is again a whole
    number of halves, so the statement applies to what follows.  (2) For a
    task within the constructor's range ([total_cycles] at most 500) with
    progress below [total_cycles + 2], one such call on an unfinished task
    leaves [cycles_done] strictly below [total_cycles] plus the amount.
    (3) Over the ticks of a core that holds such a task, the task the core
    holds after [n + m] ticks is the one it held after [n] ticks, further
    on: [cycles_done] at the start, after [n] and after [n + m] ticks are in
    non-decreasing order, and the last is strictly below
    [total_cycles + 2].  (4) In every run of every constructed simulator
    every task, wherever it is, has [0 <= cycles_done < total_cycles + 2]. *)
Theorem cycles_done_progress :
  (forall amounts1 amounts2 task k g,
     0 <= k -> Task.cycles_done task = half k ->
     Forall core_amount (amounts1 ++ amounts2) ->
     k + 4 * Z.of_nat (List.length (amounts1 ++ amounts2)) < 200000 ->
     exists task1 g1 task2 g2 k2,
       work_seq amounts1 task g = Py.Ok (task1, g1)
       /\ work_seq amounts2 task1 g1 = Py.Ok (task2, g2)
       /\ work_seq (amounts1 ++ amounts2) task g = Py.Ok (task2, g2)
       /\ PrimFloat.leb (Task.cycles_done task) (Task.cycles_done task1)
          = true
       /\ PrimFloat.leb (Task.cycles_done task1) (Task.cycles_done task2)
          = true
       /\ Task.cycles_done task2 = half k2
       /\ k <= k2 <= k + 4 * Z.of_nat (List.length (amounts1 ++ amounts2)))
  /\ (forall task k m g,
        on_grid task k -> In m [1; 2; 4] ->
        exists task' g',
          Task.work task (half m) g = Py.Ok (task', g')
          /\ PrimFloat.leb (Task.cycles_done task) (Task.cycles_done task')
             = true
          /\ (Task.is_finished task = false ->
              PrimFloat.ltb (Task.cycles_done task')
                (Py.Z2F (Task.total_cycles task) + half m) = true))
  /\ (forall core task k (n m : nat) g,
        CPUCore.base_speed core = 2.0%float
        \/ CPUCore.base_speed core = 1.0%float ->
        CPUCore.current_task core = Some task ->
        on_grid task k ->
        exists core1 g1 core2 g2,
          core_ticks n core g = Py.Ok (core1, g1)
          /\ core_ticks m core1 g1 = Py.Ok (core2, g2)
          /\ core_ticks (n + m) core g = Py.Ok (core2, g2)
          /\ forall task2, CPUCore.current_task core2 = Some task2 ->
               exists task1,
                 CPUCore.current_task core1 = Some task1
                 /\ Task.total_cycles task1 = Task.total_cycles task
                 /\ Task.total_cycles task2 = Task.total_cycles task
                 /\ PrimFloat.leb (Task.cycles_done task)
                                  (Task.cycles_done task1) = true
                 /\ PrimFloat.leb (Task.cycles_done task1)
                                  (Task.cycles_done task2) = true
                 /\ PrimFloat.ltb (Task.cycles_done task2)
                      (Py.Z2F (Task.total_cycles task) + 2.0) = true)
  /\ (forall num_p_cores num_e_cores num_tasks (ticks : nat) g,
      exists s g',
        (s0 <- SoC.init num_p_cores num_e_cores num_tasks ;;
         SoC.run_ticks ticks s0) g = Py.Ok (s, g')
        /\ forall task, holds s task ->
             PrimFloat.leb 0 (Task.cycles_done task) = true
             /\ PrimFloat.ltb (Task.cycles_done task)
                  (Py.Z2F (Task.total_cycles task) + 2.0) = true).
Proof.
  assert (Hsum : forall c m, 0 <= c <= 500 -> In m [1; 2; 4] ->
            (Py.Z2F c + half m)%float = half (2 * c + m)).
  { intros c m Hc Hm. rewrite (whole_is_half c Hc).
    apply half_add; [lia | assumption]. }
  split; [|split; [|split]].
  - intros amounts1 amounts2 task k g Hk Hc Ha Hb.
    apply Forall_app in Ha. destruct Ha as [Ha1 Ha2].
    rewrite length_app, Nat2Z.inj_add in Hb.
    destruct (work_seq_grid amounts1 task k g Hk Hc Ha1 ltac:(lia))
      as (task1 & g1 & k1 & E1 & Hc1 & Hk1 & _).
    destruct (work_seq_grid amounts2 task1 k1 g1 ltac:(lia) Hc1 Ha2
                ltac:(lia))
      as (task2 & g2 & k2 & E2 & Hc2 & Hk2 & _).
    exists task1, g1, task2, g2, k2.
    split; [exact E1|]. split; [exact E2|].
    split; [now rewrite work_seq_app, (bind_ok _ _ _ _ _ E1)|].
    rewrite Hc, Hc1, Hc2, length_app, Nat2Z.inj_add.
    split; [apply half_le; lia|]. split; [apply half_le; lia|].
    split; [reflexivity | lia].
  - intros task k m g G Hm. pose proof G as (Ht & Hk & Hc).
    assert (Hm' : 1 <= m <= 4) by (cbn in Hm; lia).
    destruct (work_on_grid task k m g G Hm)
      as (task' & g' & k' & E & Htot & Hc' & Hk' & Hg).
    exists task', g'. split; [exact E|]. rewrite Hc, Hc'. split.
    + destruct (half_order k k' ltac:(lia) ltac:(lia)) as [_ ->].
      apply Z.leb_le. lia.
    + intros F. rewrite (Hsum _ m Ht Hm).
      rewrite (finished_on_grid _ _ G) in F. apply Z.leb_gt in F.
      destruct (half_order k' (2 * Task.total_cycles task + m)
                  ltac:(lia) ltac:(lia)) as [-> _].
      apply Z.ltb_lt. lia.
  - intros core task k n m g Hb Hcur G. pose proof G as (Ht & Hk & Hc).
    destruct (core_ticks_on_grid n core task k g Hb Hcur G)
      as (core1 & g1 & E1 & H1).
    assert (Hb1 : CPUCore.base_speed core1 = 2.0%float
                  \/ CPUCore.base_speed core1 = 1.0%float)
      by now rewrite (core_ticks_speed _ _ _ _ _ E1).
    assert (H2 : exists core2 g2,
               core_ticks m core1 g1 = Py.Ok (core2, g2)
               /\ forall task2, CPUCore.current_task core2 = Some task2 ->
                    exists task1 k1 k2,
                      CPUCore.current_task core1 = Some task1
                      /\ on_grid task1 k1 /\ on_grid task2 k2
                      /\ k <= k1 <= k2
                      /\ Task.total_cycles task1 = Task.total_cycles task
                      /\ Task.total_cycles task2 = Task.total_cycles task).
    { destruct (CPUCore.current_task core1) as [task1|] eqn:Hcur1.
      - destruct (H1 task1 eq_refl) as (k1 & G1 & Hk1 & Htot1).
        destruct (core_ticks_on_grid m core1 task1 k1 g1 Hb1 Hcur1 G1)
          as (core2 & g2 & E2 & H2).
        exists core2, g2. split; [exact E2|]. intros task2 Hcur2.
        destruct (H2 task2 Hcur2) as (k2 & G2 & Hk2 & Htot2).
        exists task1, k1, k2. split; [reflexivity|]. split; [exact G1|].
        split; [exact G2|]. split; [lia|]. split; [exact Htot1 | congruence].
      - destruct (core_ticks_idle m core1 g1 Hcur1)
          as (core2 & g2 & E2 & Hn2).
        exists core2, g2. split; [exact E2|]. intros task2 Hcur2.
        congruence. }
    destruct H2 as (core2 & g2 & E2 & H2).
    exists core1, g1, core2, g2.
    split; [exact E1|]. split; [exact E2|].
    split; [now rewrite core_ticks_app, (bind_ok _ _ _ _ _ E1)|].
    intros task2 Hcur2.
    destruct (H2 task2 Hcur2)
      as (task1 & k1 & k2 & Hcur1 & G1 & G2 & Hkk & Htot1 & Htot2).
    destruct G1 as (Ht1 & Hk1 & Hc1). destruct G2 as (Ht2 & Hk2 & Hc2).
    rewrite Htot1 in Hk1. rewrite Htot2 in Hk2.
    exists task1. split; [exact Hcur1|]. split; [exact Htot1|].
    split; [exact Htot2|]. rewrite Hc, Hc1, Hc2. split; [|split].
    + destruct (half_order k k1 ltac:(lia) ltac:(lia)) as [_ ->].
      apply Z.leb_le. lia.
    + destruct (half_order k1 k2 ltac:(lia) ltac:(lia)) as [_ ->].
      apply Z.leb_le. lia.
    + change 2.0%float with (half 4).
      rewrite (Hsum _ 4 Ht) by (cbn; tauto).
      destruct (half_order k2 (2 * Task.total_cycles task + 4)
                  ltac:(lia) ltac:(lia)) as [-> _].
      apply Z.ltb_lt. lia.
  - intros p e n ticks g.
    destruct (init_total p e n g) as (master & g1 & E & _).
    pose proof (init_ok _ _ _ _ _ _ E) as Hok.
    rewrite (bind_ok _ _ _ _ _ E).
    destruct (run_ticks_total ticks
                (SoC.mk (built_cores p e) master [] [] 0 0%float) g1)
      as (s & g2 & E2 & _).
    exists s, g2. split; [exact E2|]. intros task Hin.
    destruct (soc_ok_holds _ _ (run_ticks_ok _ _ _ _ _ Hok E2) Hin)
      as (k & Ht & Hk & Hc).
    rewrite Hc. split.
    + change 0%float with (half 0).
      destruct (half_order 0 k ltac:(lia) ltac:(lia)) as [_ ->].
      apply Z.leb_le. lia.
    + change 2.0%float with (half 4).
      rewrite (Hsum _ 4 Ht) by (cbn; tauto).
      destruct (half_order k (2 * Task.total_cycles task + 4)
                  ltac:(lia) ltac:(lia)) as [-> _].
      apply Z.ltb_lt. lia.
Qed.

(** C3 as stated fails: a performance core works 2.0 cycles per tick, so a
    task of 51 cycles stands at 50.0 after 25 ticks and at 52.0, above its
    [total_cycles], after 26 (no I/O event: every draw is 100). *)
Lemma cycles_done_overshoots :
  progress_after 25
    (CPUCore.assign_task (CPUCore.init 0 "P-core") io_task_51) (fun _ => 99)
  = Some 50.0%float
  /\ progress_after 26
       (CPUCore.assign_task (CPUCore.init 0 "P-core") io_task_51) (fun _ => 99)
     = Some 52.0%float
  /\ PrimFloat.ltb (Py.Z2F (Task.total_cycles io_task_51)) 52.0 = true.
Proof. repeat split. Qed.

(** The amended statement at a fresh task of 51 cycles on which no I/O event
    fires: three [work] calls of 2.0 cycles, split after the second; one
    call; and 10 then 10 more ticks of a performance core, after which the
    core still holds the task, at 20.0 and then 40.0 cycles. *)
Lemma cycles_done_progress_witness :
  (exists task1 g1 task2 g2 k2,
     work_seq [2.0; 2.0]%float io_task_51 (fun _ => 99) = Py.Ok (task1, g1)
     /\ work_seq [2.0%float] task1 g1 = Py.Ok (task2, g2)
     /\ work_seq ([2.0; 2.0]%float ++ [2.0%float]) io_task_51 (fun _ => 99)
        = Py.Ok (task2, g2)
     /\ PrimFloat.leb (Task.cycles_done io_task_51) (Task.cycles_done task1)
        = true
     /\ PrimFloat.leb (Task.cycles_done task1) (Task.cycles_done task2)
        = true
     /\ Task.cycles_done task2 = half k2
     /\ 0 <= k2
        <= 0 + 4 * Z.of_nat (List.length ([2.0; 2.0]%float ++ [2.0%float])))
  /\ (exists task' g',
        Task.work io_task_51 (half 4) (fun _ => 99) = Py.Ok (task', g')
        /\ PrimFloat.leb (Task.cycles_done io_task_51) (Task.cycles_done task')
           = true
        /\ (Task.is_finished io_task_51 = false ->
            PrimFloat.ltb (Task.cycles_done task')
              (Py.Z2F (Task.total_cycles io_task_51) + half 4) = true))
  /\ (exists core1 g1 core2 g2,
        core_ticks 10
          (CPUCore.assign_task (CPUCore.init 0 "P-core") io_task_51)
          (fun _ => 99) = Py.Ok (core1, g1)
        /\ core_ticks 10 core1 g1 = Py.Ok (core2, g2)
        /\ core_ticks (10 + 10)
             (CPUCore.assign_task (CPUCore.init 0 "P-core") io_task_51)
             (fun _ => 99) = Py.Ok (core2, g2)
        /\ forall task2, CPUCore.current_task core2 = Some task2 ->
             exists task1,
               CPUCore.current_task core1 = Some task1
               /\ Task.total_cycles task1 = Task.total_cycles io_task_51
               /\ Task.total_cycles task2 = Task.total_cycles io_task_51
               /\ PrimFloat.leb (Task.cycles_done io_task_51)
                                (Task.cycles_done task1) = true
               /\ PrimFloat.leb (Task.cycles_done task1)
                                (Task.cycles_done task2) = true
               /\ PrimFloat.ltb (Task.cycles_done task2)
                    (Py.Z2F (Task.total_cycles io_task_51) + 2.0) = true)
  /\ progress_after 10
       (CPUCore.assign_task (CPUCore.init 0 "P-core") io_task_51)
       (fun _ => 99) = Some 20.0%float
  /\ progress_after 20
       (CPUCore.assign_task (CPUCore.init 0 "P-core") io_task_51)
       (fun _ => 99) = Some 40.0%float.
Proof.
  assert (G : on_grid io_task_51 0).
  { unfold on_grid. cbn [Task.total_cycles Task.cycles_done io_task_51].
    repeat split; try lia. }
  split; [|split; [|split; [|split; reflexivity]]].
  - apply (proj1 cycles_done_progress [2.0; 2.0]%float [2.0%float]
             io_task_51 0 (fun _ => 99)).
    + lia.
    + reflexivity.
    + repeat constructor; unfold core_amount; simpl; tauto.
    + simpl. lia.
  - apply (proj1 (proj2 cycles_done_progress) io_task_51 0 4 (fun _ => 99) G).
    simpl. tauto.
  - apply (proj1 (proj2 (proj2 cycles_done_progress))
             (CPUCore.assign_task (CPUCore.init 0 "P-core") io_task_51)
             io_task_51 0 10%nat 10%nat (fun _ => 99)).
    + left. reflexivity.
    + reflexivity.
    + exact G.
Defined.

(** ** A finished task is lost when the ready queue is empty *)

Lemma schedule_empty_queue (s : SoC.t) :
  SoC.task_queue s = [] -> SoC.schedule_rule_based s = s.
Proof. intros H. unfold SoC.schedule_rule_based. now rewrite H. Qed.

Lemma core_tick_binding (core : CPUCore.t) (g : Rng) :
  exists core' g',
    CPUCore.tick core g = Py.Ok (core', g')
    /\ match CPUCore.current_task core with
       | Some task =>
           if Task.is_finished task then CPUCore.current_task core' = None
           else exists task', CPUCore.current_task core' = Some task'
       | None => CPUCore.current_task core' = None
       end.
Proof.
  destruct (CPUCore.current_task core) as [task|] eqn:T.
  - destruct (Task.is_finished task) eqn:F.
    + rewrite (core_tick_finished core task g T F). now eexists _, _.
    + destruct (Task.is_waiting_for_io task) eqn:W.
      * rewrite (core_tick_waiting core task g T F W).
        eexists _, _. split; [reflexivity|]. now exists task.
      * rewrite (core_tick_working core task g T F W).
        destruct (work_total task
                    (CPUCore.get_current_speed (CPUCore.update_temperature core))
                    g) as (c & t & g' & E).
        rewrite (bind_ok _ _ _ _ _ E). unfold ret.
        eexists _, _. split; [reflexivity|]. now eexists.
  - rewrite (core_tick_idle core g T). now eexists _, _.
Qed.

(** The tick loop unbinds exactly the finished tasks, and records nothing. *)
Lemma tick_cores_bound_count (cores : list CPUCore.t) :
  forall power g cores' power' g',
    SoC.tick_cores cores power g = Py.Ok (cores', power', g') ->
    (SoC.bound_count cores' + finished_bound cores)%nat
    = SoC.bound_count cores.
Proof.
  induction cores as [|core rest IH]; intros power g cores' power' g' E.
  - cbn in E. unfold ret in E. now inversion E.
  - cbn [SoC.tick_cores] in E.
    destruct (core_tick_binding core g) as (core1 & g1 & E1 & B).
    rewrite (bind_ok _ _ _ _ _ E1) in E.
    destruct (tick_cores_total rest
                (power + CPUCore.get_current_power_draw core1)%float g1)
      as (rest' & p2 & g2 & E2 & _).
    rewrite (bind_ok _ _ _ _ _ E2) in E. unfold ret in E. inversion E; subst.
    specialize (IH _ _ _ _ _ E2).
    unfold SoC.bound_count, finished_bound in *. cbn [filter].
    destruct (CPUCore.current_task core) as [task|].
    + destruct (Task.is_finished task).
      * rewrite B. cbn [List.length]. lia.
      * destruct B as (task' & ->). cbn [List.length]. lia.
    + rewrite B. lia.
Qed.

Lemma arrivals_loop_length (tick : Z) (master queue master' queue' : list Task.t) :
  SoC.arrivals_loop tick master queue = (master', queue') ->
  (List.length master' + List.length queue')%nat
  = (List.length master + List.length queue)%nat.
Proof.
  intros E. apply arrivals_keep_tasks in E.
  apply (f_equal (@List.length Task.t)) in E.
  rewrite !length_app in E. lia.
Qed.

(** The defect behind C1 and C2 in general: in a tick whose ready queue is
    empty after the arrivals, every finished task held by a core disappears
    from the four containers. *)
Lemma empty_queue_tick_loses_finished (s : SoC.t) (g : Rng) :
  SoC.task_queue (SoC.check_for_new_arrivals s) = [] ->
  exists s' g',
    SoC.run_simulation_tick s g = Py.Ok (s', g')
    /\ SoC.completed_tasks s' = SoC.completed_tasks s
    /\ (SoC.task_count s' + finished_bound (SoC.all_cores s))%nat
       = SoC.task_count s.
Proof.
  intros Q. unfold SoC.run_simulation_tick.
  rewrite (schedule_empty_queue _ Q).
  destruct (tick_cores_total
              (SoC.all_cores (SoC.check_for_new_arrivals s))
              (SoC.total_power_consumed (SoC.check_for_new_arrivals s)) g)
    as (cores' & power' & g' & E & _).
  rewrite (bind_ok _ _ _ _ _ E). unfold ret.
  eexists _, g'. split; [reflexivity|].
  pose proof (tick_cores_bound_count _ _ _ _ _ _ E) as B.
  revert Q E B. unfold SoC.check_for_new_arrivals, SoC.task_count.
  destruct (SoC.arrivals_loop _ _ _) as [m q] eqn:A.
  apply arrivals_loop_length in A.
  cbn [SoC.all_cores SoC.master_task_list SoC.task_queue SoC.completed_tasks
       SoC.total_power_consumed].
  intros _ _ B. split; [reflexivity | lia].
Qed.

(** C1 fails on the code.  In the run of [SoC(1, 0, 1)] above, the single
    task is counted once up to tick 25, when it is bound to the core with
    all its 50 cycles done.  At tick 26 the queue is empty, so the scheduler
    returns before it reclaims the task, and the core's own tick clears the
    binding without recording the task: the four containers then hold no
    task at all, and the completed record stays empty for ever after. *)
Theorem finished_task_is_lost :
  option_map SoC.task_count (lone_task_run 0) = Some 1%nat
  /\ option_map SoC.task_count (lone_task_run 25) = Some 1%nat
  /\ option_map SoC.task_count (lone_task_run 26) = Some 0%nat
  /\ option_map SoC.completed_tasks (lone_task_run 26) = Some []
  /\ option_map SoC.completed_tasks (lone_task_run 100) = Some [].
Proof. repeat split; vm_compute; reflexivity. Qed.

(** C2 fails on the code.  When the ready queue is empty the scheduling
    phase returns at once and changes nothing.  In the state reached after
    25 ticks of the run above the only core holds a finished task and the
    queue is empty; the scheduling phase of the next tick leaves the state
    as it is: the task is still bound and the completed record still
    empty. *)
Theorem schedule_skips_reclaim :
  exists s core task,
    lone_task_run 25 = Some s
    /\ SoC.task_queue (SoC.check_for_new_arrivals s) = []
    /\ SoC.all_cores s = [core]
    /\ CPUCore.current_task core = Some task
    /\ Task.is_finished task = true
    /\ SoC.schedule_rule_based (SoC.check_for_new_arrivals s) = s
    /\ SoC.all_cores
         (SoC.schedule_rule_based (SoC.check_for_new_arrivals s)) = [core]
    /\ SoC.completed_tasks
         (SoC.schedule_rule_based (SoC.check_for_new_arrivals s)) = [].
Proof.
  eexists _, _, _.
  split; [vm_compute; reflexivity|].
  split; [reflexivity|]. split; [reflexivity|]. split; [reflexivity|].
  split; [vm_compute; reflexivity|]. repeat split.
Qed.

(** ** The statements at concrete inputs *)

(** C5 at a fresh I/O-bound task with [io_frequency] 3: two of the hundred
    draws fire the event. *)
Lemma io_event_after_progress_witness :
  Task.type io_task_3 = "I/O-Bound"
  /\ Task.is_waiting_for_io io_task_3 = false
  /\ firing_draws io_task_3 2.0 (fun _ => 0) = 2%nat.
Proof.
  split; [reflexivity|]. split; [reflexivity|].
  destruct (io_event_after_progress io_task_3 2.0 (fun _ => 0)
              eq_refl eq_refl)
    as (d & g1 & w & g2 & task' & g' & _ & _ & _ & _ & _ & _ & _ & _ & Hcount).
  exact (Hcount ltac:(cbn; lia)).
Defined.


(** * Further properties of the code *)

(** ** Task generation *)

Lemma generate_loop_spec (ids : list Z) (num_tasks : Z) :
  (ids <> [] -> 0 <= num_tasks) ->
  forall (tasks : list Task.t) (g : Rng),
  exists new g',
    SoC.generate_loop ids num_tasks tasks g = Py.Ok (tasks ++ new, g')
    /\ Forall2 (fun i task =>
                  fresh_task i (Task.arrival_time task) task
                  /\ 0 <= Task.arrival_time task <= num_tasks * 5)
               ids new.
Proof.
  intros Hn. induction ids as [|i rest IH]; intros tasks g.
  - exists [], g. cbn. rewrite app_nil_r. split; [reflexivity | constructor].
  - cbn [SoC.generate_loop].
    assert (H0 : 0 <= num_tasks) by (apply Hn; discriminate).
    rewrite (bind_ok _ _ _ _ _ (randint_ok 0 (num_tasks * 5) g ltac:(lia))).
    pose proof (randint_bounds 0 (num_tasks * 5) (g 0%nat) ltac:(lia)) as Hb.
    destruct (task_init_total i (0 + g 0%nat mod (num_tasks * 5 - 0 + 1))
                (fun n => g (S n))) as (task & g1 & E & Hfresh).
    rewrite (bind_ok _ _ _ _ _ E).
    destruct (IH (fun _ => H0) (tasks ++ [task]) g1) as (new & g2 & E2 & F).
    exists (task :: new), g2. rewrite E2, <- app_assoc. split; [reflexivity|].
    constructor; [|exact F].
    pose proof Hfresh as (_ & Ha & _). rewrite Ha. split; [exact Hfresh | lia].
Qed.

Lemma insert_by_arrival_perm (task : Task.t) (tasks : list Task.t) :
  Permutation (SoC.insert_by_arrival task tasks) (task :: tasks).
Proof.
  induction tasks as [|x rest IH]; cbn [SoC.insert_by_arrival];
    [reflexivity|].
  destruct (_ <? _); [reflexivity|].
  rewrite IH. apply perm_swap.
Qed.

Lemma sort_by_arrival_perm (tasks : list Task.t) :
  Permutation (SoC.sort_by_arrival tasks) tasks.
Proof.
  unfold SoC.sort_by_arrival.
  enough (H : forall acc,
    Permutation
      (fold_left (fun sorted task => SoC.insert_by_arrival task sorted)
                 tasks acc) (acc ++ tasks))
    by (rewrite H; reflexivity).
  induction tasks as [|x rest IH]; intros acc; cbn [fold_left].
  - now rewrite app_nil_r.
  - rewrite IH, insert_by_arrival_perm. apply Permutation_middle.
Qed.

Lemma insert_by_arrival_sorted (task : Task.t) (tasks : list Task.t) :
  StronglySorted arrives_before tasks ->
  Forall (fun x => Task.id x < Task.id task) tasks ->
  StronglySorted arrives_before (SoC.insert_by_arrival task tasks).
Proof.
  induction 1 as [|x rest Hs IH Hx]; intros Hid;
    cbn [SoC.insert_by_arrival].
  - repeat constructor.
  - inversion Hid as [|? ? Hidx Hidrest]; subst.
    destruct (Z.ltb_spec (Task.arrival_time task) (Task.arrival_time x)).
    + constructor; [now constructor|].
      constructor; [now left|].
      apply Forall_forall. intros y Hy.
      apply (proj1 (Forall_forall _ _) Hx) in Hy.
      unfold arrives_before in *. lia.
    + constructor; [now apply IH|].
      apply (Permutation_Forall
               (Permutation_sym (insert_by_arrival_perm task rest))).
      constructor; [|exact Hx]. unfold arrives_before. lia.
Qed.

Lemma sort_by_arrival_sorted (tasks : list Task.t) :
  StronglySorted Z.lt (map Task.id tasks) ->
  StronglySorted arrives_before (SoC.sort_by_arrival tasks).
Proof.
  unfold SoC.sort_by_arrival.
  enough (H : forall acc,
    StronglySorted arrives_before acc ->
    StronglySorted Z.lt (map Task.id tasks) ->
    Forall (fun x => Forall (fun y => Task.id x < Task.id y) tasks) acc ->
    StronglySorted arrives_before
      (fold_left (fun sorted task => SoC.insert_by_arrival task sorted)
                 tasks acc))
    by (intros; apply H; auto; constructor).
  induction tasks as [|t rest IH]; intros acc Hacc Hids Hlt; cbn [fold_left];
    [assumption|].
  cbn [map] in Hids. inversion Hids as [|? ? Hrest Ht]; subst.
  apply IH; [|assumption|].
  - apply insert_by_arrival_sorted; [assumption|].
    apply Forall_forall. intros x Hx.
    apply (proj1 (Forall_forall _ _) Hlt) in Hx. now inversion Hx.
  - apply (Permutation_Forall
             (Permutation_sym (insert_by_arrival_perm t acc))).
    constructor.
    + apply Forall_forall. intros y Hy.
      apply (proj1 (Forall_forall _ _) Ht). now apply in_map.
    + apply Forall_forall. intros x Hx.
      apply (proj1 (Forall_forall _ _) Hlt) in Hx. now inversion Hx.
Qed.

Lemma range_increasing (n : Z) : StronglySorted Z.lt (Py.range n).
Proof.
  unfold Py.range. generalize (Z.to_nat n) as k. generalize 0%nat as a.
  intros a k. revert a. induction k as [|k IH]; intros a; cbn [seq map];
    constructor; [apply IH|].
  apply Forall_forall. intros y Hy. apply in_map_iff in Hy.
  destruct Hy as (m & <- & Hm). apply in_seq in Hm. lia.
Qed.

Lemma generated_ids (ids : list Z) (num_tasks : Z) (new : list Task.t) :
  Forall2 (fun i task =>
             fresh_task i (Task.arrival_time task) task
             /\ 0 <= Task.arrival_time task <= num_tasks * 5) ids new ->
  map Task.id new = ids
  /\ Forall (fun task =>
               fresh_task (Task.id task) (Task.arrival_time task) task
               /\ 0 <= Task.arrival_time task <= num_tasks * 5) new.
Proof.
  induction 1 as [|i task ids new [Hf Ha] _ [IH1 IH2]];
    [split; [reflexivity | constructor]|].
  pose proof Hf as (Hid & _). cbn [map]. rewrite IH1, Hid.
  split; [reflexivity|]. constructor; [|exact IH2]. now rewrite Hid.
Qed.

Lemma generate_tasks_spec (num_tasks : Z) (g : Rng) :
  exists tasks g',
    SoC.generate_tasks num_tasks g = Py.Ok (tasks, g')
    /\ StronglySorted arrives_before tasks
    /\ Permutation (map Task.id tasks) (Py.range num_tasks)
    /\ Forall (fun task =>
                 fresh_task (Task.id task) (Task.arrival_time task) task
                 /\ 0 <= Task.arrival_time task <= num_tasks * 5) tasks.
Proof.
  unfold SoC.generate_tasks.
  destruct (generate_loop_spec (Py.range num_tasks) num_tasks
              (range_nonempty num_tasks) [] g) as (new & g' & E & F).
  rewrite (bind_ok _ _ _ _ _ E). unfold ret. cbn [app].
  destruct (generated_ids _ _ _ F) as [Hids Hall].
  eexists _, g'. split; [reflexivity|]. split; [|split].
  - apply sort_by_arrival_sorted. rewrite Hids. apply range_increasing.
  - rewrite <- Hids. apply Permutation_map, sort_by_arrival_perm.
  - exact (Permutation_Forall
             (Permutation_sym (sort_by_arrival_perm new)) Hall).
Qed.

(** X1: the constructor leaves the master list sorted by arrival time, and
    tasks that arrive at the same tick are in the order of their ids (the
    sort is stable and the tasks are created in id order). *)
Theorem master_list_sorted (num_p_cores num_e_cores num_tasks : Z) (g : Rng) :
  exists s g',
    SoC.init num_p_cores num_e_cores num_tasks g = Py.Ok (s, g')
    /\ StronglySorted arrives_before (SoC.master_task_list s).
Proof.
  destruct (init_total num_p_cores num_e_cores num_tasks g)
    as (master & g' & E & G & _).
  destruct (generate_tasks_spec num_tasks g) as (tasks & g1 & G1 & Hs & _).
  rewrite G in G1. inversion G1; subst.
  eexists _, _. split; [exact E | exact Hs].
Qed.

(** X2: [generate_tasks] never raises and returns exactly one task for each
    id of [range(num_tasks)]; every task has an arrival time in
    [[0, 5 * num_tasks]], no progress, no I/O wait, and one of the two
    profiles: CPU-bound with 200 to 500 cycles and [io_frequency] 0, or
    I/O-bound with 50 to 100 cycles and [io_frequency] 3 to 8. *)
Theorem generated_tasks_profile (num_tasks : Z) (g : Rng) :
  exists tasks g',
    SoC.generate_tasks num_tasks g = Py.Ok (tasks, g')
    /\ Permutation (map Task.id tasks) (Py.range num_tasks)
    /\ Forall (fun task =>
                 fresh_task (Task.id task) (Task.arrival_time task) task
                 /\ 0 <= Task.arrival_time task <= num_tasks * 5) tasks.
Proof.
  destruct (generate_tasks_spec num_tasks g) as (tasks & g' & E & _ & P & F).
  now exists tasks, g'.
Qed.

(** ** Arrival admission *)

Lemma sorted_suffix {A} (R : A -> A -> Prop) (l1 l2 : list A) :
  StronglySorted R (l1 ++ l2) -> StronglySorted R l2.
Proof.
  induction l1 as [|x l1 IH]; cbn; [trivial|].
  intros H. inversion H; subst. now apply IH.
Qed.

Lemma sorted_no_later (tasks : list Task.t) :
  StronglySorted arrives_before tasks ->
  StronglySorted arrives_no_later tasks.
Proof.
  induction 1 as [|x rest _ IH Hx]; constructor; [exact IH|].
  apply Forall_forall. intros y Hy.
  apply (proj1 (Forall_forall _ _) Hx) in Hy.
  unfold arrives_before, arrives_no_later in *. lia.
Qed.

Lemma arrivals_loop_split (tick : Z) (master : list Task.t) :
  forall queue master' queue',
    SoC.arrivals_loop tick master queue = (master', queue') ->
    exists moved,
      master = moved ++ master'
      /\ queue' = queue ++ moved
      /\ Forall (fun t => Task.arrival_time t <= tick) moved
      /\ match master' with
         | [] => True
         | t :: _ => tick < Task.arrival_time t
         end.
Proof.
  induction master as [|task rest IH]; intros queue master' queue' E.
  - cbn in E. inversion E; subst. exists [].
    split; [reflexivity|]. split; [now rewrite app_nil_r|].
    split; [constructor | exact I].
  - cbn [SoC.arrivals_loop] in E.
    destruct (Z.leb_spec (Task.arrival_time task) tick) as [Hle | Hgt].
    + destruct (IH _ _ _ E) as (moved & -> & -> & F & Hhead).
      exists (task :: moved). rewrite <- app_assoc.
      repeat split; try assumption. now constructor.
    + inversion E; subst. exists [].
      split; [reflexivity|]. split; [now rewrite app_nil_r|].
      split; [constructor | exact Hgt].
Qed.

Lemma arrivals_loop_rest (tick : Z) (master queue master' queue' : list Task.t) :
  StronglySorted arrives_no_later master ->
  SoC.arrivals_loop tick master queue = (master', queue') ->
  Forall (fun t => tick < Task.arrival_time t) master'.
Proof.
  intros Hs E.
  destruct (arrivals_loop_split _ _ _ _ _ E) as (moved & -> & _ & _ & Hhead).
  apply sorted_suffix in Hs. destruct master' as [|t rest]; [constructor|].
  inversion Hs as [|? ? _ Ht]; subst. constructor; [exact Hhead|].
  apply Forall_forall. intros y Hy.
  apply (proj1 (Forall_forall _ _) Ht) in Hy.
  unfold arrives_no_later in Hy. lia.
Qed.

Lemma arrivals_loop_again (tick : Z) (master : list Task.t) :
  forall queue master' queue',
    SoC.arrivals_loop tick master queue = (master', queue') ->
    SoC.arrivals_loop tick master' queue' = (master', queue').
Proof.
  induction master as [|task rest IH]; intros queue master' queue' E.
  - cbn in E. now inversion E.
  - cbn [SoC.arrivals_loop] in E.
    destruct (Task.arrival_time task <=? tick) eqn:A.
    + exact (IH _ _ _ E).
    + inversion E; subst. cbn [SoC.arrivals_loop]. now rewrite A.
Qed.

(** X3: on a master list sorted by arrival time, [check_for_new_arrivals]
    moves exactly the tasks that have arrived: a front part of the master
    list, all with [arrival_time <= current_tick], is appended to the ready
    queue in the same order, every task left behind has
    [arrival_time > current_tick], and nothing else changes. *)
Theorem arrivals_move_arrived (s : SoC.t) :
  StronglySorted arrives_no_later (SoC.master_task_list s) ->
  exists moved,
    SoC.master_task_list s
    = moved ++ SoC.master_task_list (SoC.check_for_new_arrivals s)
    /\ SoC.task_queue (SoC.check_for_new_arrivals s)
       = SoC.task_queue s ++ moved
    /\ Forall (fun t => Task.arrival_time t <= SoC.current_tick s) moved
    /\ Forall (fun t => SoC.current_tick s < Task.arrival_time t)
              (SoC.master_task_list (SoC.check_for_new_arrivals s))
    /\ SoC.all_cores (SoC.check_for_new_arrivals s) = SoC.all_cores s
    /\ SoC.completed_tasks (SoC.check_for_new_arrivals s)
       = SoC.completed_tasks s
    /\ SoC.current_tick (SoC.check_for_new_arrivals s) = SoC.current_tick s
    /\ SoC.total_power_consumed (SoC.check_for_new_arrivals s)
       = SoC.total_power_consumed s.
Proof.
  intros Hs. unfold SoC.check_for_new_arrivals.
  destruct (SoC.arrivals_loop _ _ _) as [m q] eqn:A.
  destruct (arrivals_loop_split _ _ _ _ _ A) as (moved & Hm & Hq & F & _).
  exists moved. cbn [SoC.master_task_list SoC.task_queue SoC.all_cores
    SoC.completed_tasks SoC.current_tick SoC.total_power_consumed].
  repeat split; try assumption.
  exact (arrivals_loop_rest _ _ _ _ _ Hs A).
Qed.

(** X4: [check_for_new_arrivals] is idempotent: a second call at the same
    tick changes nothing, whatever the order of the master list. *)
Theorem arrivals_idempotent (s : SoC.t) :
  SoC.check_for_new_arrivals (SoC.check_for_new_arrivals s)
  = SoC.check_for_new_arrivals s.
Proof.
  unfold SoC.check_for_new_arrivals.
  destruct (SoC.arrivals_loop (SoC.current_tick s) _ _) as [m q] eqn:A.
  cbn [SoC.master_task_list SoC.task_queue SoC.all_cores
    SoC.completed_tasks SoC.current_tick SoC.total_power_consumed].
  now rewrite (arrivals_loop_again _ _ _ _ _ A).
Qed.

(** ** The scheduling phase *)

Lemma remove_at_perm (i : nat) :
  forall (queue : list Task.t) (task : Task.t),
    nth_error queue i = Some task ->
    Permutation (task :: SoC.remove_at i queue) queue.
Proof.
  induction i as [|i IH]; intros [|x q] task H; try discriminate.
  - cbn in H. inversion H; subst. reflexivity.
  - cbn in H. cbn [SoC.remove_at]. rewrite perm_swap.
    apply perm_skip. now apply IH.
Qed.

Lemma scan_valid (ty : string) (queue : list Task.t) :
  forall i, SoC.scan ty queue = Some i ->
            exists task, nth_error queue i = Some task.
Proof.
  induction queue as [|x q IH]; intros i H; cbn [SoC.scan] in H;
    [discriminate|].
  destruct (String.eqb (Task.type x) ty).
  - inversion H; subst. now exists x.
  - destruct (SoC.scan ty q) as [j|]; [|discriminate].
    inversion H; subst. exact (IH j eq_refl).
Qed.

(** On a non-empty queue the selection always names a task of the queue. *)
Lemma select_valid (core : CPUCore.t) (x : Task.t) (q : list Task.t) :
  exists i task,
    SoC.select core (x :: q) = Some i /\ nth_error (x :: q) i = Some task.
Proof.
  unfold SoC.select.
  destruct (if String.eqb (CPUCore.type core) "P-core"
            then SoC.scan "CPU-Bound" (x :: q)
            else SoC.scan "I/O-Bound" (x :: q)) as [i|] eqn:S.
  - assert (H : exists task, nth_error (x :: q) i = Some task).
    { destruct (String.eqb (CPUCore.type core) "P-core");
        exact (scan_valid _ _ _ S). }
    destruct H as (task & H). now exists i, task.
  - now exists 0%nat, x.
Qed.

Lemma reclaim_spec (core : CPUCore.t) (completed : list Task.t) :
  exists extra,
    SoC.reclaim core completed
    = (CPUCore.set_current_task core
         (match CPUCore.current_task core with
          | Some task =>
              if Task.is_finished task then None else Some task
          | None => None
          end), completed ++ extra)
    /\ Forall (fun t => Task.is_finished t = true) extra
    /\ Permutation (task_of (fst (SoC.reclaim core completed)) ++ extra)
                   (task_of core).
Proof.
  unfold SoC.reclaim, task_of.
  destruct (CPUCore.current_task core) as [task|] eqn:T.
  - destruct (Task.is_finished task) eqn:F.
    + exists [task]. cbn. repeat split; [now constructor | reflexivity].
    + exists []. cbn [fst]. rewrite T, app_nil_r.
      repeat split; [|constructor | reflexivity].
      destruct core; cbn in *. now subst.
  - exists []. cbn [fst]. rewrite T, app_nil_r.
    repeat split; [|constructor | reflexivity].
    destruct core; cbn in *. now subst.
Qed.

Lemma assign_spec (core : CPUCore.t) (queue : list Task.t) :
  Permutation (task_of (fst (SoC.assign core queue))
               ++ snd (SoC.assign core queue))
              (task_of core ++ queue)
  /\ (CPUCore.current_task (fst (SoC.assign core queue)) <> None
      \/ (queue = [] /\ SoC.assign core queue = (core, []))).
Proof.
  unfold SoC.assign, task_of.
  destruct (CPUCore.current_task core) as [task|] eqn:T.
  - cbn [fst snd]. rewrite T. split; [reflexivity | left; discriminate].
  - destruct queue as [|x q].
    + cbn [fst snd]. rewrite T. split; [reflexivity | now right].
    + destruct (select_valid core x q) as (i & t & -> & N). rewrite N.
      cbn [fst snd CPUCore.assign_task CPUCore.current_task
           CPUCore.set_current_task].
      split; [|left; discriminate].
      cbn [app]. now apply remove_at_perm.
Qed.

Lemma schedule_cores_spec (cores : list CPUCore.t) :
  forall queue completed cores' queue' completed',
    SoC.schedule_cores cores queue completed = (cores', queue', completed') ->
    Permutation (live_tasks cores' queue' completed')
                (live_tasks cores queue completed)
    /\ (exists extra, completed' = completed ++ extra
                      /\ Forall (fun t => Task.is_finished t = true) extra)
    /\ (queue' = [] \/ Forall busy cores')
    /\ (queue <> [] -> cores <> [] -> bound_tasks cores' <> []).
Proof.
  induction cores as [|core rest IH];
    intros queue completed cores' queue' completed' E.
  - cbn in E. inversion E; subst. split; [reflexivity|].
    split; [exists []; now rewrite app_nil_r|].
    split; [right; constructor | congruence].
  - cbn [SoC.schedule_cores] in E.
    destruct (reclaim_spec core completed) as (extra1 & R & F1 & P1).
    destruct (SoC.reclaim core completed) as [core1 completed1].
    inversion R; subst. clear R. cbn [fst] in P1.
    set (core1 := CPUCore.set_current_task core _) in *.
    destruct (assign_spec core1 queue) as (P2 & B2).
    destruct (SoC.assign core1 queue) as [core2 queue2].
    cbn [fst snd] in P2, B2.
    destruct (SoC.schedule_cores rest queue2 (completed ++ extra1))
      as [[rest' q'] d'] eqn:S.
    inversion E; subst. clear E.
    destruct (IH _ _ _ _ _ S) as (P & (extra & -> & F) & W & _).
    split; [|split; [|split]].
    + unfold live_tasks, bound_tasks in *. cbn [flat_map].
      set (B := flat_map task_of rest) in *.
      set (B' := flat_map task_of rest') in *.
      transitivity (task_of core2 ++ B ++ queue2 ++ completed ++ extra1).
      { rewrite <- (app_assoc (task_of core2)).
        apply Permutation_app_head. exact P. }
      transitivity (B ++ (task_of core2 ++ queue2) ++ completed ++ extra1).
      { rewrite <- (app_assoc (task_of core2) queue2).
        apply Permutation_app_swap_app. }
      transitivity (B ++ (task_of core1 ++ queue) ++ completed ++ extra1).
      { apply Permutation_app_head, Permutation_app_tail. exact P2. }
      transitivity ((task_of core1 ++ extra1) ++ B ++ queue ++ completed).
      { rewrite <- (app_assoc (task_of core1) queue).
        rewrite <- (app_assoc (task_of core1) extra1).
        rewrite (Permutation_app_swap_app B (task_of core1)).
        apply Permutation_app_head.
        transitivity ((B ++ queue ++ completed) ++ extra1);
          [now rewrite <- !app_assoc | apply Permutation_app_comm]. }
      rewrite <- (app_assoc (task_of core) B).
      apply Permutation_app_tail. exact P1.
    + exists (extra1 ++ extra). rewrite app_assoc. split; [reflexivity|].
      apply Forall_app. now split.
    + destruct B2 as [Hbusy | [-> Ha]].
      * destruct W as [-> | W]; [now left|]. right. now constructor.
      * left. pose proof (schedule_cores_empty_queue rest (completed ++ extra1))
          as Hnil.
        inversion Ha; subst. rewrite S in Hnil. exact Hnil.
    + intros Hq _. destruct B2 as [Hbusy | [-> _]]; [|congruence].
      unfold bound_tasks. cbn [flat_map]. unfold task_of at 1.
      destruct (CPUCore.current_task core2); [discriminate | congruence].
Qed.

Lemma schedule_rule_based_spec (s : SoC.t) :
  Permutation
    (live_tasks (SoC.all_cores (SoC.schedule_rule_based s))
       (SoC.task_queue (SoC.schedule_rule_based s))
       (SoC.completed_tasks (SoC.schedule_rule_based s)))
    (live_tasks (SoC.all_cores s) (SoC.task_queue s) (SoC.completed_tasks s))
  /\ (exists extra,
        SoC.completed_tasks (SoC.schedule_rule_based s)
        = SoC.completed_tasks s ++ extra
        /\ Forall (fun t => Task.is_finished t = true) extra)
  /\ (SoC.task_queue (SoC.schedule_rule_based s) = []
      \/ Forall busy (SoC.all_cores (SoC.schedule_rule_based s)))
  /\ (SoC.task_queue s <> [] -> SoC.all_cores s <> [] ->
      bound_tasks (SoC.all_cores (SoC.schedule_rule_based s)) <> [])
  /\ SoC.master_task_list (SoC.schedule_rule_based s) = SoC.master_task_list s
  /\ SoC.current_tick (SoC.schedule_rule_based s) = SoC.current_tick s
  /\ SoC.total_power_consumed (SoC.schedule_rule_based s)
     = SoC.total_power_consumed s.
Proof.
  unfold SoC.schedule_rule_based.
  destruct (SoC.schedule_cores (SoC.all_cores s) (SoC.task_queue s)
              (SoC.completed_tasks s)) as [[cores' q'] d'] eqn:S.
  destruct (schedule_cores_spec _ _ _ _ _ _ S) as (P & X & W & B).
  destruct (SoC.task_queue s) as [|x q] eqn:Q.
  - rewrite Q. split; [reflexivity|].
    split; [exists []; rewrite app_nil_r; split; [reflexivity | constructor]|].
    split; [now left|]. split; [congruence|]. repeat split.
  - cbn [SoC.all_cores SoC.task_queue SoC.completed_tasks
         SoC.master_task_list SoC.current_tick SoC.total_power_consumed].
    repeat split; assumption.
Qed.

(** X5: the scheduling phase neither loses nor duplicates a task: the tasks
    bound to cores, queued and completed after [schedule_rule_based] are a
    rearrangement of those before it, and the master list, the tick counter
    and the power total are untouched. *)
Theorem scheduling_conserves_tasks (s : SoC.t) :
  Permutation
    (live_tasks (SoC.all_cores (SoC.schedule_rule_based s))
       (SoC.task_queue (SoC.schedule_rule_based s))
       (SoC.completed_tasks (SoC.schedule_rule_based s)))
    (live_tasks (SoC.all_cores s) (SoC.task_queue s) (SoC.completed_tasks s))
  /\ SoC.task_count (SoC.schedule_rule_based s) = SoC.task_count s
  /\ SoC.master_task_list (SoC.schedule_rule_based s) = SoC.master_task_list s
  /\ SoC.current_tick (SoC.schedule_rule_based s) = SoC.current_tick s
  /\ SoC.total_power_consumed (SoC.schedule_rule_based s)
     = SoC.total_power_consumed s.
Proof.
  destruct (schedule_rule_based_spec s) as (P & _ & _ & _ & M & T & W).
  repeat split; try assumption.
  apply Permutation_length in P. unfold live_tasks in P.
  rewrite !length_app in P. unfold SoC.task_count. rewrite M.
  assert (H : forall cores,
             SoC.bound_count cores = List.length (bound_tasks cores)).
  { induction cores as [|c cores IH]; [reflexivity|].
    unfold SoC.bound_count, bound_tasks in *. cbn [filter flat_map].
    rewrite length_app. unfold task_of at 1.
    destruct (CPUCore.current_task c); cbn [List.length]; lia. }
  rewrite !H. lia.
Qed.

(** X6: the scheduling phase is work-conserving: when it ends, the ready
    queue is empty or every core holds a task. *)
Theorem scheduling_leaves_no_idle_core (s : SoC.t) :
  SoC.task_queue (SoC.schedule_rule_based s) = []
  \/ Forall busy (SoC.all_cores (SoC.schedule_rule_based s)).
Proof. exact (proj1 (proj2 (proj2 (schedule_rule_based_spec s)))). Qed.

Lemma assign_efficiency (core : CPUCore.t) (queue : list Task.t) :
  CPUCore.type core <> "P-core" ->
  CPUCore.current_task core = None ->
  (exists t, In t queue /\ Task.type t = "I/O-Bound") ->
  exists i task,
    nth_error queue i = Some task
    /\ Task.type task = "I/O-Bound"
    /\ (forall j t, (j < i)%nat -> nth_error queue j = Some t ->
                    Task.type t <> "I/O-Bound")
    /\ SoC.assign core queue
       = (CPUCore.assign_task core task, SoC.remove_at i queue).
Proof.
  intros Hp Hidle Hio.
  destruct (scan_found "I/O-Bound" queue Hio) as (i & task & Hs & Hn & Ht & Hf).
  exists i, task. repeat split; try assumption.
  unfold SoC.assign, SoC.select. apply String.eqb_neq in Hp.
  rewrite Hidle, Hp, Hs.
  destruct queue as [|x rest]; [destruct i; discriminate|].
  now rewrite Hn.
Qed.

(** ** What an assignment leaves: the binding and the queue *)

Lemma assign_task_binds (core : CPUCore.t) (task : Task.t) :
  CPUCore.current_task (CPUCore.assign_task core task) = Some task
  /\ same_hardware core (CPUCore.assign_task core task)
  /\ CPUCore.temperature (CPUCore.assign_task core task)
     = CPUCore.temperature core.
Proof. repeat split. Qed.

Lemma remove_at_split (i : nat) :
  forall (queue : list Task.t) (task : Task.t),
    nth_error queue i = Some task ->
    exists front back,
      queue = front ++ task :: back
      /\ List.length front = i
      /\ SoC.remove_at i queue = front ++ back.
Proof.
  induction i as [|i IH]; intros [|x rest] task H; try discriminate.
  - inversion H; subst. exists [], rest. repeat split.
  - destruct (IH rest task H) as (front & back & -> & L & R).
    exists (x :: front), back. cbn [SoC.remove_at app List.length].
    rewrite R, L. repeat split.
Qed.

Lemma front_before (P : Task.t -> Prop) (front back : list Task.t)
  (task : Task.t) :
  (forall j t, (j < List.length front)%nat ->
               nth_error (front ++ task :: back) j = Some t -> P t) ->
  Forall P front.
Proof.
  intros H. apply Forall_forall. intros t Hin.
  destruct (In_nth_error _ _ Hin) as (j & Hj).
  assert (Hlt : (j < List.length front)%nat)
    by (apply nth_error_Some; congruence).
  apply (H j t Hlt). now rewrite nth_error_app1.
Qed.

Lemma assign_by_affinity (ty : string) (core : CPUCore.t)
  (queue : list Task.t) :
  (CPUCore.type core = "P-core" /\ ty = "CPU-Bound")
  \/ (CPUCore.type core <> "P-core" /\ ty = "I/O-Bound") ->
  CPUCore.current_task core = None ->
  (exists t, In t queue /\ Task.type t = ty) ->
  exists front task back core',
    queue = front ++ task :: back
    /\ Forall (fun t => Task.type t <> ty) front
    /\ Task.type task = ty
    /\ SoC.assign core queue = (core', front ++ back)
    /\ CPUCore.current_task core' = Some task
    /\ same_hardware core core'
    /\ CPUCore.temperature core' = CPUCore.temperature core.
Proof.
  intros Hty Hidle Hex.
  assert (H : exists i task,
             nth_error queue i = Some task
             /\ Task.type task = ty
             /\ (forall j t, (j < i)%nat -> nth_error queue j = Some t ->
                             Task.type t <> ty)
             /\ SoC.assign core queue
                = (CPUCore.assign_task core task, SoC.remove_at i queue)).
  { destruct Hty as [[Hp ->] | [Hp ->]].
    - exact (assign_performance core queue Hp Hidle Hex).
    - exact (assign_efficiency core queue Hp Hidle Hex). }
  destruct H as (i & task & Hn & Ht & Hf & Ha).
  destruct (remove_at_split i queue task Hn) as (front & back & Hq & L & R).
  exists front, task, back, (CPUCore.assign_task core task).
  split; [exact Hq|]. split.
  { apply (front_before _ front back task). rewrite L, <- Hq. exact Hf. }
  split; [exact Ht|]. split; [now rewrite Ha, R|].
  apply assign_task_binds.
Qed.

Lemma assign_front (core : CPUCore.t) (task : Task.t) (rest : list Task.t) :
  CPUCore.current_task core = None ->
  (CPUCore.type core = "P-core" ->
   forall t, In t (task :: rest) -> Task.type t <> "CPU-Bound") ->
  (CPUCore.type core <> "P-core" ->
   forall t, In t (task :: rest) -> Task.type t <> "I/O-Bound") ->
  SoC.assign core (task :: rest) = (CPUCore.assign_task core task, rest).
Proof.
  intros Hidle HP HE.
  unfold SoC.assign, SoC.select. rewrite Hidle.
  destruct (String.eqb (CPUCore.type core) "P-core") eqn:E.
  - apply String.eqb_eq in E. now rewrite (scan_none _ _ (HP E)).
  - apply String.eqb_neq in E. now rewrite (scan_none _ _ (HE E)).
Qed.

(** X7: an idle core of any type other than ["P-core"] that faces a queue
    holding an I/O-bound task is bound to the first I/O-bound task of the
    queue: after the assignment the core's [current_task] is that task, the
    core is otherwise unchanged, and the queue is the old queue with that
    one task taken out, the tasks in front of it (none of them I/O-bound)
    and behind it in their old order. *)
Theorem efficiency_core_affinity (core : CPUCore.t) (queue : list Task.t) :
  CPUCore.type core <> "P-core" ->
  CPUCore.current_task core = None ->
  (exists t, In t queue /\ Task.type t = "I/O-Bound") ->
  exists front task back core',
    queue = front ++ task :: back
    /\ Forall (fun t => Task.type t <> "I/O-Bound") front
    /\ Task.type task = "I/O-Bound"
    /\ SoC.assign core queue = (core', front ++ back)
    /\ CPUCore.current_task core' = Some task
    /\ same_hardware core core'
    /\ CPUCore.temperature core' = CPUCore.temperature core.
Proof.
  intros Hp Hidle Hio.
  apply (assign_by_affinity "I/O-Bound" core queue); try assumption.
  right. now split.
Qed.

(** ** One tick, phase by phase *)

Lemma thinned_refl {A} (l : list A) : thinned l l.
Proof. induction l; constructor; assumption. Qed.

Lemma thinned_app {A} (l1' l1 l2' l2 : list A) :
  thinned l1' l1 -> thinned l2' l2 -> thinned (l1' ++ l2') (l1 ++ l2).
Proof. induction 1; cbn; intros; try constructor; auto. Qed.

Lemma thinned_In {A} (l' l : list A) (x : A) :
  thinned l' l -> In x l' -> In x l.
Proof.
  induction 1; cbn; intros Hin; [assumption | | right; auto].
  destruct Hin; [now left | right; auto].
Qed.

Lemma thinned_NoDup {A} (l' l : list A) :
  thinned l' l -> NoDup l -> NoDup l'.
Proof.
  induction 1 as [|x l' l T IH|x l' l T IH]; intros H; [assumption| |];
    inversion H; subst; [|now apply IH].
  constructor; [|now apply IH].
  intros Hin. apply (thinned_In _ _ _ T) in Hin. contradiction.
Qed.

Lemma thinned_length {A} (l' l : list A) :
  thinned l' l -> (List.length l' <= List.length l)%nat.
Proof. induction 1; cbn; lia. Qed.

Lemma bound_count_length (cores : list CPUCore.t) :
  SoC.bound_count cores = List.length (bound_tasks cores).
Proof.
  induction cores as [|c cores IH]; [reflexivity|].
  unfold SoC.bound_count, bound_tasks in *. cbn [filter flat_map].
  rewrite length_app. unfold task_of at 1.
  destruct (CPUCore.current_task c); cbn [List.length]; lia.
Qed.

Lemma same_hardware_refl (c : CPUCore.t) : same_hardware c c.
Proof. repeat split. Qed.

Lemma same_hardware_trans (c1 c2 c3 : CPUCore.t) :
  same_hardware c1 c2 -> same_hardware c2 c3 -> same_hardware c1 c3.
Proof. unfold same_hardware. intuition congruence. Qed.

Lemma hardware_refl (cores : list CPUCore.t) :
  Forall2 same_hardware cores cores.
Proof. induction cores; constructor; [apply same_hardware_refl | assumption]. Qed.

Lemma hardware_trans (l1 l2 l3 : list CPUCore.t) :
  Forall2 same_hardware l1 l2 -> Forall2 same_hardware l2 l3 ->
  Forall2 same_hardware l1 l3.
Proof.
  intros H. revert l3. induction H as [|a b la lb Hab _ IH]; intros l3 H2;
    inversion H2; subst; constructor;
    [exact (same_hardware_trans _ _ _ Hab H1) | now apply IH].
Qed.

(** What a core's tick does to its task: a finished task is dropped, a
    waiting one is kept as it is, a working one keeps everything but its
    progress and its wait timer. *)
Lemma core_tick_task (core : CPUCore.t) (g : Rng) :
  exists core' g',
    CPUCore.tick core g = Py.Ok (core', g')
    /\ same_hardware core core'
    /\ match CPUCore.current_task core with
       | None => CPUCore.current_task core' = None
       | Some task =>
           if Task.is_finished task then CPUCore.current_task core' = None
           else if Task.is_waiting_for_io task
                then CPUCore.current_task core' = Some task /\ g' = g
                else exists cycles timer,
                    CPUCore.current_task core'
                    = Some (Task.set_io_wait_timer
                              (Task.set_cycles_done task cycles) timer)
       end.
Proof.
  destruct (CPUCore.current_task core) as [task|] eqn:T.
  - destruct (Task.is_finished task) eqn:F.
    + rewrite (core_tick_finished core task g T F).
      eexists _, _. repeat split.
    + destruct (Task.is_waiting_for_io task) eqn:W.
      * rewrite (core_tick_waiting core task g T F W).
        eexists _, _. repeat split. exact T.
      * rewrite (core_tick_working core task g T F W).
        destruct (work_total task
                    (CPUCore.get_current_speed (CPUCore.update_temperature core))
                    g) as (c & t & g' & E).
        rewrite (bind_ok _ _ _ _ _ E). unfold ret.
        eexists _, _. split; [reflexivity|]. split; [repeat split|].
        now exists c, t.
  - rewrite (core_tick_idle core g T). eexists _, _. repeat split. exact T.
Qed.

Lemma core_tick_ids (core : CPUCore.t) (g : Rng) :
  exists core' g',
    CPUCore.tick core g = Py.Ok (core', g')
    /\ same_hardware core core'
    /\ thinned (map profile (task_of core')) (map profile (task_of core)).
Proof.
  destruct (core_tick_task core g) as (core' & g' & E & H & T).
  exists core', g'. split; [exact E|]. split; [exact H|].
  unfold task_of. destruct (CPUCore.current_task core) as [task|].
  - destruct (Task.is_finished task).
    + rewrite T. repeat constructor.
    + destruct (Task.is_waiting_for_io task).
      * destruct T as [-> _]. apply thinned_refl.
      * destruct T as (c & t & ->). exact (thinned_refl [profile task]).
  - rewrite T. constructor.
Qed.

Lemma tick_cores_ids (cores : list CPUCore.t) :
  forall power g cores' power' g',
    SoC.tick_cores cores power g = Py.Ok (cores', power', g') ->
    Forall2 same_hardware cores cores'
    /\ thinned (map profile (bound_tasks cores'))
               (map profile (bound_tasks cores)).
Proof.
  induction cores as [|core rest IH]; intros power g cores' power' g' E.
  - cbn in E. unfold ret in E. inversion E; subst. split; constructor.
  - cbn [SoC.tick_cores] in E.
    destruct (core_tick_ids core g) as (core1 & g1 & E1 & H1 & T1).
    rewrite (bind_ok _ _ _ _ _ E1) in E.
    destruct (tick_cores_total rest
                (power + CPUCore.get_current_power_draw core1)%float g1)
      as (rest' & p2 & g2 & E2 & _).
    rewrite (bind_ok _ _ _ _ _ E2) in E. unfold ret in E. inversion E; subst.
    destruct (IH _ _ _ _ _ E2) as [H2 T2].
    split; [now constructor|].
    unfold bound_tasks. cbn [flat_map]. rewrite !map_app.
    now apply thinned_app.
Qed.

Lemma schedule_cores_hardware (cores : list CPUCore.t) :
  forall queue completed,
    Forall2 same_hardware cores
            (fst (fst (SoC.schedule_cores cores queue completed))).
Proof.
  induction cores as [|core rest IH]; intros queue completed; [constructor|].
  cbn [SoC.schedule_cores].
  destruct (SoC.reclaim core completed) as [core1 completed1] eqn:R.
  destruct (SoC.assign core1 queue) as [core2 queue2] eqn:A.
  specialize (IH queue2 completed1).
  destruct (SoC.schedule_cores rest queue2 completed1) as [[rest' q'] d'].
  cbn [fst] in *. constructor; [|exact IH].
  apply (same_hardware_trans _ core1).
  - unfold SoC.reclaim in R. destruct (CPUCore.current_task core) as [t|].
    + destruct (Task.is_finished t); inversion R; subst; repeat split.
    + inversion R; subst. repeat split.
  - unfold SoC.assign in A. destruct (CPUCore.current_task core1).
    + inversion A; subst. repeat split.
    + destruct queue as [|x q]; [inversion A; subst; repeat split|].
      destruct (SoC.select core1 (x :: q)) as [i|];
        [|inversion A; subst; repeat split].
      destruct (nth_error (x :: q) i); inversion A; subst; repeat split.
Qed.

(** A tick, split into what each phase contributes. *)
Lemma run_simulation_tick_spec (s : SoC.t) (g : Rng) :
  let s2 := SoC.schedule_rule_based (SoC.check_for_new_arrivals s) in
  exists s' g',
    SoC.run_simulation_tick s g = Py.Ok (s', g')
    /\ SoC.tick_cores (SoC.all_cores s2) (SoC.total_power_consumed s2) g
       = Py.Ok (SoC.all_cores s', SoC.total_power_consumed s', g')
    /\ SoC.master_task_list s' = SoC.master_task_list s2
    /\ SoC.task_queue s' = SoC.task_queue s2
    /\ SoC.completed_tasks s' = SoC.completed_tasks s2
    /\ SoC.current_tick s' = SoC.current_tick s + 1.
Proof.
  intros s2. unfold SoC.run_simulation_tick. fold s2.
  destruct (tick_cores_total (SoC.all_cores s2) (SoC.total_power_consumed s2) g)
    as (cores' & power' & g' & E & _).
  rewrite (bind_ok _ _ _ _ _ E). unfold ret.
  eexists _, g'. split; [reflexivity|].
  cbn [SoC.all_cores SoC.total_power_consumed SoC.master_task_list
       SoC.task_queue SoC.completed_tasks SoC.current_tick].
  repeat split; try assumption.
  subst s2.
  destruct (schedule_rule_based_spec (SoC.check_for_new_arrivals s))
    as (_ & _ & _ & _ & _ & -> & _).
  unfold SoC.check_for_new_arrivals.
  now destruct (SoC.arrivals_loop _ _ _).
Qed.

Lemma check_all_tasks (s : SoC.t) :
  Permutation (all_tasks (SoC.check_for_new_arrivals s)) (all_tasks s)
  /\ SoC.all_cores (SoC.check_for_new_arrivals s) = SoC.all_cores s
  /\ SoC.completed_tasks (SoC.check_for_new_arrivals s)
     = SoC.completed_tasks s
  /\ SoC.current_tick (SoC.check_for_new_arrivals s) = SoC.current_tick s.
Proof.
  unfold SoC.check_for_new_arrivals, all_tasks, live_tasks.
  destruct (SoC.arrivals_loop _ _ _) as [m q] eqn:A.
  apply arrivals_keep_tasks in A.
  cbn [SoC.master_task_list SoC.task_queue SoC.all_cores
       SoC.completed_tasks SoC.current_tick].
  repeat split.
  set (B := bound_tasks (SoC.all_cores s)).
  transitivity (B ++ (q ++ m) ++ SoC.completed_tasks s).
  - rewrite (Permutation_app_swap_app m B).
    apply Permutation_app_head. rewrite app_assoc.
    apply Permutation_app_tail, Permutation_app_comm.
  - rewrite A, <- app_assoc.
    rewrite (Permutation_app_swap_app (SoC.master_task_list s) B).
    apply Permutation_app_head.
    rewrite !app_assoc. apply Permutation_app_tail, Permutation_app_comm.
Qed.

Lemma schedule_all_tasks (s : SoC.t) :
  Permutation (all_tasks (SoC.schedule_rule_based s)) (all_tasks s).
Proof.
  destruct (schedule_rule_based_spec s) as (P & _ & _ & _ & M & _).
  unfold all_tasks. rewrite M. now apply Permutation_app_head.
Qed.

Lemma tick_all_tasks (s : SoC.t) (g : Rng) :
  exists s' g',
    SoC.run_simulation_tick s g = Py.Ok (s', g')
    /\ exists mid,
         Permutation mid (all_tasks s)
         /\ thinned (map profile (all_tasks s')) (map profile mid)
         /\ Forall2 same_hardware (SoC.all_cores s) (SoC.all_cores s').
Proof.
  destruct (run_simulation_tick_spec s g)
    as (s' & g' & E & T & Hm & Hq & Hc & _).
  exists s', g'. split; [exact E|].
  set (s1 := SoC.check_for_new_arrivals s) in *.
  set (s2 := SoC.schedule_rule_based s1) in *.
  exists (all_tasks s2). split; [|split].
  - subst s2 s1. rewrite schedule_all_tasks. apply check_all_tasks.
  - destruct (tick_cores_ids _ _ _ _ _ _ T) as [_ Th].
    unfold all_tasks, live_tasks. rewrite Hm, Hq, Hc, !map_app.
    repeat apply thinned_app; try apply thinned_refl. exact Th.
  - destruct (tick_cores_ids _ _ _ _ _ _ T) as [H _].
    assert (H1 : Forall2 same_hardware (SoC.all_cores s) (SoC.all_cores s2)).
    { subst s2. destruct (proj2 (check_all_tasks s)) as (<- & _).
      fold s1. unfold SoC.schedule_rule_based.
      pose proof (schedule_cores_hardware (SoC.all_cores s1)
                    (SoC.task_queue s1) (SoC.completed_tasks s1)) as Hh.
      destruct (SoC.schedule_cores _ _ _) as [[c q] d]. cbn [fst] in Hh.
      destruct (SoC.task_queue s1); [apply hardware_refl | exact Hh]. }
    exact (hardware_trans _ _ _ H1 H).
Qed.

Lemma task_count_all (s : SoC.t) :
  SoC.task_count s = List.length (all_tasks s).
Proof.
  unfold SoC.task_count, all_tasks, live_tasks.
  rewrite !length_app, bound_count_length. lia.
Qed.

(** ** Whole runs *)

(** X8: ticks never raise, whatever the state and the random source; [n]
    ticks advance the tick counter by [n]; the cores are never created,
    destroyed or reordered and keep their id, type, speed, power, heat and
    cooling parameters: only their temperature and binding change. *)
Theorem run_never_raises (n : nat) :
  forall (s : SoC.t) (g : Rng),
  exists s' g',
    SoC.run_ticks n s g = Py.Ok (s', g')
    /\ SoC.current_tick s' = SoC.current_tick s + Z.of_nat n
    /\ Forall2 same_hardware (SoC.all_cores s) (SoC.all_cores s').
Proof.
  induction n as [|n IH]; intros s g.
  - exists s, g. cbn [SoC.run_ticks]. unfold ret.
    repeat split; [lia | apply hardware_refl].
  - cbn [SoC.run_ticks].
    destruct (tick_all_tasks s g) as (s1 & g1 & E1 & _ & _ & _ & H1).
    destruct (run_simulation_tick_spec s g)
      as (s1' & g1' & E1' & _ & _ & _ & _ & T1).
    rewrite E1 in E1'. inversion E1'; subst s1' g1'.
    rewrite (bind_ok _ _ _ _ _ E1).
    destruct (IH s1 g1) as (s2 & g2 & E2 & T2 & H2).
    exists s2, g2. split; [exact E2|]. split; [lia|].
    exact (hardware_trans _ _ _ H1 H2).
Qed.

Lemma tick_completed (s : SoC.t) (g : Rng) :
  exists s' g' extra,
    SoC.run_simulation_tick s g = Py.Ok (s', g')
    /\ SoC.completed_tasks s' = SoC.completed_tasks s ++ extra
    /\ Forall (fun t => Task.is_finished t = true) extra.
Proof.
  destruct (run_simulation_tick_spec s g)
    as (s' & g' & E & _ & _ & _ & Hc & _).
  destruct (schedule_rule_based_spec (SoC.check_for_new_arrivals s))
    as (_ & (extra & Hx & F) & _).
  exists s', g', extra. split; [exact E|]. split; [|exact F].
  rewrite Hc, Hx. now destruct (check_all_tasks s) as (_ & _ & -> & _).
Qed.

(** X9: the completed record only grows, by appending, and only finished
    tasks are ever appended: after any number of ticks it is the old record
    followed by tasks with [cycles_done >= total_cycles]. *)
Theorem completed_record_append_only (n : nat) :
  forall (s : SoC.t) (g : Rng),
  exists s' g' extra,
    SoC.run_ticks n s g = Py.Ok (s', g')
    /\ SoC.completed_tasks s' = SoC.completed_tasks s ++ extra
    /\ Forall (fun t => Task.is_finished t = true) extra.
Proof.
  induction n as [|n IH]; intros s g.
  - exists s, g, []. cbn [SoC.run_ticks]. unfold ret.
    rewrite app_nil_r. repeat split. constructor.
  - cbn [SoC.run_ticks].
    destruct (tick_completed s g) as (s1 & g1 & x1 & E1 & C1 & F1).
    rewrite (bind_ok _ _ _ _ _ E1).
    destruct (IH s1 g1) as (s2 & g2 & x2 & E2 & C2 & F2).
    exists s2, g2, (x1 ++ x2). split; [exact E2|].
    rewrite C2, C1, app_assoc. split; [reflexivity|].
    apply Forall_app. now split.
Qed.

Lemma thinned_map {A B} (f : A -> B) (l' l : list A) :
  thinned l' l -> thinned (map f l') (map f l).
Proof. induction 1; cbn; constructor; assumption. Qed.

Lemma map_id_profile (l : list Task.t) :
  map Task.id l = map profile_id (map profile l).
Proof. rewrite map_map. now apply map_ext. Qed.

Lemma tick_ids_ok (N : Z) (s : SoC.t) (g : Rng) s' g' :
  ids_ok N s -> SoC.run_simulation_tick s g = Py.Ok (s', g') -> ids_ok N s'.
Proof.
  intros [Hnd Hin] E.
  destruct (tick_all_tasks s g) as (s1 & g1 & E1 & mid & P & T & _).
  rewrite E in E1. inversion E1; subst s1 g1.
  apply (thinned_map profile_id) in T. rewrite <- !map_id_profile in T.
  pose proof (Permutation_map Task.id P) as Pm. split.
  - apply (thinned_NoDup _ _ T).
    exact (Permutation_NoDup (Permutation_sym Pm) Hnd).
  - intros i Hi. apply Hin.
    apply (Permutation_in _ Pm). exact (thinned_In _ _ _ T Hi).
Qed.

Lemma run_ticks_ids_ok (N : Z) (n : nat) :
  forall s g s' g',
    ids_ok N s -> SoC.run_ticks n s g = Py.Ok (s', g') -> ids_ok N s'.
Proof.
  induction n as [|n IH]; intros s g s' g' H E.
  - cbn in E. unfold ret in E. inversion E. now subst.
  - cbn [SoC.run_ticks] in E.
    destruct (run_simulation_tick_total s g) as (s1 & g1 & E1 & _).
    rewrite (bind_ok _ _ _ _ _ E1) in E.
    exact (IH _ _ _ _ (tick_ids_ok _ _ _ _ _ H E1) E).
Qed.

Lemma increasing_NoDup (l : list Z) : StronglySorted Z.lt l -> NoDup l.
Proof.
  induction 1 as [|x l _ IH Hx]; constructor; [|exact IH].
  intros Hin. apply (proj1 (Forall_forall _ _) Hx) in Hin. lia.
Qed.

Lemma built_cores_idle (num_p_cores num_e_cores : Z) :
  bound_tasks (built_cores num_p_cores num_e_cores) = [].
Proof.
  assert (H : forall cores, Forall is_fresh_core cores -> bound_tasks cores = []).
  { induction 1 as [|c cores (i & ty & ->) _ IH]; [reflexivity|].
    unfold bound_tasks in *. cbn [flat_map]. rewrite IH.
    unfold task_of, CPUCore.init. now destruct (String.eqb ty "P-core"). }
  apply H, built_cores_fresh.
Qed.

Lemma init_ids_ok (num_p_cores num_e_cores num_tasks : Z) (g : Rng) s g' :
  SoC.init num_p_cores num_e_cores num_tasks g = Py.Ok (s, g') ->
  ids_ok num_tasks s /\ SoC.task_count s = Z.to_nat num_tasks
  /\ SoC.completed_tasks s = []
  /\ StronglySorted arrives_no_later (SoC.master_task_list s)
  /\ Forall (fun t => 0 <= Task.arrival_time t <= num_tasks * 5)
            (SoC.master_task_list s).
Proof.
  intros E.
  destruct (init_total num_p_cores num_e_cores num_tasks g)
    as (master & g1 & E1 & G & L).
  rewrite E in E1. inversion E1; subst s g1. clear E1.
  destruct (generate_tasks_spec num_tasks g) as (tasks & g2 & G2 & Hs & P & F).
  rewrite G in G2. inversion G2; subst tasks g2. clear G2.
  assert (A : all_tasks
                (SoC.mk (built_cores num_p_cores num_e_cores) master [] []
                   0 0%float) = master).
  { unfold all_tasks, live_tasks.
    cbn [SoC.master_task_list SoC.all_cores SoC.task_queue SoC.completed_tasks].
    now rewrite built_cores_idle, !app_nil_r. }
  split; [|split; [|split; [|split]]].
  - unfold ids_ok. rewrite A. split.
    + apply (Permutation_NoDup (Permutation_sym P)).
      apply increasing_NoDup, range_increasing.
    + intros i Hi. apply (Permutation_in _ P) in Hi.
      unfold Py.range in Hi. apply in_map_iff in Hi.
      destruct Hi as (k & <- & Hk). apply in_seq in Hk. lia.
  - now rewrite task_count_all, A.
  - reflexivity.
  - now apply sorted_no_later.
  - cbn [SoC.master_task_list].
    apply (Forall_impl _ (P := fun task =>
             fresh_task (Task.id task) (Task.arrival_time task) task
             /\ 0 <= Task.arrival_time task <= num_tasks * 5));
      [intros t [_ Ht]; exact Ht | exact F].
Qed.

(** X10: no task is ever duplicated: in every run of every constructed
    simulator the tasks of the four containers have pairwise distinct ids,
    all within [range(num_tasks)]; so a task is in at most one container,
    at most once, and there are never more than [num_tasks] tasks. *)
Theorem tasks_never_duplicated
  (num_p_cores num_e_cores num_tasks : Z) (ticks : nat) (g : Rng) :
  exists s g',
    (s0 <- SoC.init num_p_cores num_e_cores num_tasks ;;
     SoC.run_ticks ticks s0) g = Py.Ok (s, g')
    /\ NoDup (map Task.id (all_tasks s))
    /\ (forall task, In task (all_tasks s) ->
                     0 <= Task.id task < num_tasks)
    /\ (SoC.task_count s <= Z.to_nat num_tasks)%nat.
Proof.
  destruct (init_total num_p_cores num_e_cores num_tasks g)
    as (master & g1 & E & _).
  destruct (init_ids_ok _ _ _ _ _ _ E) as (Hids & _).
  rewrite (bind_ok _ _ _ _ _ E).
  destruct (run_ticks_total ticks
              (SoC.mk (built_cores num_p_cores num_e_cores) master [] []
                 0 0%float) g1) as (s & g2 & E2 & _).
  exists s, g2. split; [exact E2|].
  destruct (run_ticks_ids_ok _ _ _ _ _ _ Hids E2) as [Hnd Hin].
  split; [exact Hnd|]. split.
  - intros task Ht. apply Hin. now apply in_map.
  - rewrite task_count_all, <- (length_map Task.id).
    rewrite <- (range_length num_tasks).
    apply NoDup_incl_length; [exact Hnd|].
    intros i Hi. apply in_range. now apply Hin.
Qed.

Lemma tick_never_all (N : nat) (s : SoC.t) (g : Rng) s' g' :
  (SoC.task_count s <= N)%nat ->
  (List.length (SoC.completed_tasks s) < N)%nat ->
  SoC.run_simulation_tick s g = Py.Ok (s', g') ->
  (SoC.task_count s' <= N)%nat
  /\ (List.length (SoC.completed_tasks s') < N)%nat.
Proof.
  intros Hcount Hdone E.
  destruct (tick_all_tasks s g) as (s1 & g1 & E1 & mid & P & T & _).
  rewrite E in E1. inversion E1; subst s1 g1. clear E1.
  split.
  - rewrite task_count_all.
    apply thinned_length in T. rewrite !length_map in T.
    apply Permutation_length in P. rewrite task_count_all in Hcount. lia.
  - destruct (run_simulation_tick_spec s g)
      as (s1 & g1 & E1 & _ & _ & _ & Hc & _).
    rewrite E in E1. inversion E1; subst s1 g1. clear E1. rewrite Hc.
    set (s1 := SoC.check_for_new_arrivals s).
    destruct (check_all_tasks s) as (P1 & _ & C1 & _). fold s1 in P1, C1.
    destruct (SoC.task_queue s1) as [|x q] eqn:Q.
    { rewrite (schedule_empty_queue _ Q), C1. exact Hdone. }
    destruct (SoC.all_cores s1) as [|c cs] eqn:A.
    { unfold SoC.schedule_rule_based. rewrite Q, A. cbn. rewrite C1.
      exact Hdone. }
    destruct (schedule_rule_based_spec s1) as (P2 & _ & _ & B & M & _).
    assert (HB : bound_tasks (SoC.all_cores (SoC.schedule_rule_based s1))
                 <> []) by (apply B; congruence).
    apply Permutation_length in P1, P2.
    rewrite task_count_all in Hcount.
    unfold all_tasks in P1 at 1. rewrite length_app in P1.
    unfold live_tasks in P2 at 1. rewrite !length_app in P2.
    destruct (bound_tasks (SoC.all_cores (SoC.schedule_rule_based s1)));
      [congruence|].
    cbn [List.length] in P2. lia.
Qed.

Lemma run_ticks_never_all (N : nat) (n : nat) :
  forall s g s' g',
    (SoC.task_count s <= N)%nat ->
    (List.length (SoC.completed_tasks s) < N)%nat ->
    SoC.run_ticks n s g = Py.Ok (s', g') ->
    (SoC.task_count s' <= N)%nat
    /\ (List.length (SoC.completed_tasks s') < N)%nat.
Proof.
  induction n as [|n IH]; intros s g s' g' H1 H2 E.
  - cbn in E. unfold ret in E. inversion E; subst. now split.
  - cbn [SoC.run_ticks] in E.
    destruct (run_simulation_tick_total s g) as (s1 & g1 & E1 & _).
    rewrite (bind_ok _ _ _ _ _ E1) in E.
    destruct (tick_never_all _ _ _ _ _ H1 H2 E1) as [H1' H2'].
    exact (IH _ _ _ _ H1' H2' E).
Qed.

(** X11: a run never records every task as completed.  The scheduler
    records a finished task only while the ready queue is non-empty, and
    then some other task is still queued or has just been bound; so with at
    least one task, [len(completed_tasks) < num_tasks] after any number of
    ticks of any constructed simulator. *)
Theorem never_all_completed
  (num_p_cores num_e_cores num_tasks : Z) (ticks : nat) (g : Rng) :
  1 <= num_tasks ->
  exists s g',
    (s0 <- SoC.init num_p_cores num_e_cores num_tasks ;;
     SoC.run_ticks ticks s0) g = Py.Ok (s, g')
    /\ Z.of_nat (List.length (SoC.completed_tasks s)) < num_tasks.
Proof.
  intros Hn.
  destruct (init_total num_p_cores num_e_cores num_tasks g)
    as (master & g1 & E & _).
  destruct (init_ids_ok _ _ _ _ _ _ E) as (_ & Hc & Hd & _).
  rewrite (bind_ok _ _ _ _ _ E).
  destruct (run_ticks_total ticks
              (SoC.mk (built_cores num_p_cores num_e_cores) master [] []
                 0 0%float) g1) as (s & g2 & E2 & _).
  exists s, g2. split; [exact E2|].
  destruct (run_ticks_never_all (Z.to_nat num_tasks) _ _ _ _ _
              ltac:(rewrite Hc; lia) ltac:(rewrite Hd; cbn; lia) E2)
    as [_ H].
  lia.
Qed.

Lemma tick_master (s : SoC.t) (g : Rng) s' g' :
  StronglySorted arrives_no_later (SoC.master_task_list s) ->
  SoC.run_simulation_tick s g = Py.Ok (s', g') ->
  StronglySorted arrives_no_later (SoC.master_task_list s')
  /\ (exists moved,
        SoC.master_task_list s = moved ++ SoC.master_task_list s')
  /\ Forall (fun t => SoC.current_tick s' <= Task.arrival_time t)
            (SoC.master_task_list s')
  /\ SoC.current_tick s' = SoC.current_tick s + 1.
Proof.
  intros Hs E.
  destruct (run_simulation_tick_spec s g)
    as (s1 & g1 & E1 & _ & Hm & _ & _ & Ht).
  rewrite E in E1. inversion E1; subst s1 g1. clear E1.
  destruct (schedule_rule_based_spec (SoC.check_for_new_arrivals s))
    as (_ & _ & _ & _ & M & _).
  rewrite M in Hm. clear M. revert Hm. unfold SoC.check_for_new_arrivals.
  destruct (SoC.arrivals_loop _ _ _) as [m q] eqn:A.
  cbn [SoC.master_task_list]. intros ->.
  destruct (arrivals_loop_split _ _ _ _ _ A) as (moved & Hsplit & _).
  pose proof (arrivals_loop_rest _ _ _ _ _ Hs A) as Hrest.
  split; [|split; [|split]].
  - rewrite Hsplit in Hs. exact (sorted_suffix _ _ _ Hs).
  - now exists moved.
  - apply (Forall_impl _ (P := fun t => SoC.current_tick s
                                         < Task.arrival_time t));
      [intros t; lia | exact Hrest].
  - exact Ht.
Qed.

Lemma run_ticks_master (n : nat) :
  forall s g s' g',
    StronglySorted arrives_no_later (SoC.master_task_list s) ->
    SoC.run_ticks n s g = Py.Ok (s', g') ->
    (exists moved, SoC.master_task_list s = moved ++ SoC.master_task_list s')
    /\ ((1 <= n)%nat ->
        Forall (fun t => SoC.current_tick s' <= Task.arrival_time t)
               (SoC.master_task_list s')).
Proof.
  induction n as [|n IH]; intros s g s' g' Hs E.
  - cbn in E. unfold ret in E. inversion E; subst.
    split; [now exists [] | lia].
  - cbn [SoC.run_ticks] in E.
    destruct (run_simulation_tick_total s g) as (s1 & g1 & E1 & _).
    rewrite (bind_ok _ _ _ _ _ E1) in E.
    destruct (tick_master _ _ _ _ Hs E1) as (Hs1 & (mv1 & M1) & F1 & _).
    destruct (IH _ _ _ _ Hs1 E) as ((mv2 & M2) & F2).
    split.
    + exists (mv1 ++ mv2). now rewrite M1, M2, app_assoc.
    + intros _. destruct n as [|n]; [|apply F2; lia].
      cbn in E. unfold ret in E. inversion E; subst. exact F1.
Qed.

(** X12: arrivals are never missed.  After [ticks] ticks of a constructed
    simulator every task still in the master list arrives at tick [ticks]
    or later (and no later than [5 * num_tasks]); so once more than
    [5 * num_tasks] ticks have run the master list is empty. *)
Theorem master_list_drains
  (num_p_cores num_e_cores num_tasks : Z) (ticks : nat) (g : Rng) :
  exists s g',
    (s0 <- SoC.init num_p_cores num_e_cores num_tasks ;;
     SoC.run_ticks ticks s0) g = Py.Ok (s, g')
    /\ Forall (fun t => Z.of_nat ticks <= Task.arrival_time t
                        <= num_tasks * 5)
              (SoC.master_task_list s)
    /\ (num_tasks * 5 < Z.of_nat ticks -> SoC.master_task_list s = []).
Proof.
  destruct (init_total num_p_cores num_e_cores num_tasks g)
    as (master & g1 & E & _).
  destruct (init_ids_ok _ _ _ _ _ _ E) as (_ & _ & _ & Hs & Hb).
  rewrite (bind_ok _ _ _ _ _ E).
  destruct (run_ticks_total ticks
              (SoC.mk (built_cores num_p_cores num_e_cores) master [] []
                 0 0%float) g1) as (s & g2 & E2 & _ & T).
  exists s, g2. split; [exact E2|].
  destruct (run_ticks_master _ _ _ _ _ Hs E2) as ((moved & M) & F).
  cbn [SoC.master_task_list SoC.current_tick] in *.
  rewrite M in Hb. apply Forall_app in Hb. destruct Hb as [_ Hb].
  assert (H : Forall (fun t => Z.of_nat ticks <= Task.arrival_time t
                               <= num_tasks * 5) (SoC.master_task_list s)).
  { destruct ticks as [|k].
    - apply (Forall_impl _ (P := fun t => 0 <= Task.arrival_time t
                                           <= num_tasks * 5));
        [intros t; lia | exact Hb].
    - specialize (F ltac:(lia)). rewrite T in F.
      apply Forall_forall. intros t Ht.
      pose proof (proj1 (Forall_forall _ _) F t Ht).
      pose proof (proj1 (Forall_forall _ _) Hb t Ht). cbn beta in *. lia. }
  split; [exact H|]. intros Hlate.
  destruct (SoC.master_task_list s) as [|t rest]; [reflexivity|].
  inversion H; subst. lia.
Qed.

(** ** The main loop *)

Lemma bind_assoc {A B C} (c : M A) (k : A -> M B) (h : B -> M C) (g : Rng) :
  bind (bind c k) h g = bind c (fun x => bind (k x) h) g.
Proof. unfold bind. now destruct (c g) as [[a g']|]. Qed.

Lemma loop_is_run_ticks (N max_ticks : Z) (fuel : nat) :
  forall s g,
    (SoC.task_count s <= Z.to_nat N)%nat ->
    (List.length (SoC.completed_tasks s) < Z.to_nat N)%nat ->
    (Z.to_nat (max_ticks - SoC.current_tick s) <= fuel)%nat ->
    Main.loop fuel N max_ticks s g
    = (s' <- SoC.run_ticks (Z.to_nat (max_ticks - SoC.current_tick s)) s ;;
       ret (Some s')) g.
Proof.
  induction fuel as [|fuel IH]; intros s g Hc Hd Hf.
  - cbn [Main.loop]. replace (Z.to_nat (max_ticks - SoC.current_tick s))
      with 0%nat by lia.
    assert (Ht : (SoC.current_tick s <? max_ticks) = false)
      by (apply Z.ltb_ge; lia).
    rewrite Ht, andb_false_r. reflexivity.
  - cbn [Main.loop].
    assert (Hlt : (Z.of_nat (List.length (SoC.completed_tasks s)) <? N) = true)
      by (apply Z.ltb_lt; lia).
    rewrite Hlt. cbn [andb].
    destruct (Z.ltb_spec (SoC.current_tick s) max_ticks) as [Ht | Ht].
    + destruct (run_simulation_tick_spec s g)
        as (s1 & g1 & E1 & _ & _ & _ & _ & T1).
      destruct (tick_never_all _ _ _ _ _ Hc Hd E1) as [Hc1 Hd1].
      replace (Z.to_nat (max_ticks - SoC.current_tick s))
        with (S (Z.to_nat (max_ticks - SoC.current_tick s1))) by lia.
      cbn [SoC.run_ticks]. rewrite (bind_ok _ _ _ _ _ E1).
      rewrite (IH s1 g1 Hc1 Hd1 ltac:(lia)).
      now rewrite bind_assoc, (bind_ok _ _ _ _ _ E1).
    + replace (Z.to_nat (max_ticks - SoC.current_tick s)) with 0%nat by lia.
      reflexivity.
Qed.

(** X13: with at least one task the main loop never stops because the work
    is done: it makes exactly [max_ticks] calls of [run_simulation_tick]
    (fuel for that many iterations is enough), leaves [current_tick] at the
    budget and the completed record short of [num_tasks].  In particular
    [main], with 2 + 4 cores, 20 tasks and a budget of 1000 ticks, always
    runs all 1000 ticks.  With no task at all the loop body never runs. *)
Theorem main_loop_exhausts_budget :
  (forall num_p_cores num_e_cores num_tasks max_ticks (fuel : nat) (g : Rng),
     1 <= num_tasks -> 0 <= max_ticks -> (Z.to_nat max_ticks <= fuel)%nat ->
     exists s g',
       (soc <- SoC.init num_p_cores num_e_cores num_tasks ;;
        Main.loop fuel num_tasks max_ticks soc) g = Py.Ok (Some s, g')
       /\ (soc <- SoC.init num_p_cores num_e_cores num_tasks ;;
           SoC.run_ticks (Z.to_nat max_ticks) soc) g = Py.Ok (s, g')
       /\ SoC.current_tick s = max_ticks
       /\ Z.of_nat (List.length (SoC.completed_tasks s)) < num_tasks)
  /\ (forall (fuel : nat) (g : Rng),
        (1000 <= fuel)%nat ->
        exists s g',
          Main.main fuel g = Py.Ok (Some s, g')
          /\ SoC.current_tick s = 1000
          /\ Z.of_nat (List.length (SoC.completed_tasks s)) < 20)
  /\ (forall num_p_cores num_e_cores num_tasks max_ticks (fuel : nat) (g : Rng),
        num_tasks <= 0 ->
        (soc <- SoC.init num_p_cores num_e_cores num_tasks ;;
         Main.loop fuel num_tasks max_ticks soc) g
        = Py.Ok (Some (SoC.mk (built_cores num_p_cores num_e_cores) [] [] []
                         0 0%float), g)).
Proof.
  assert (Hgen : forall p e n max_ticks (fuel : nat) g,
    1 <= n -> 0 <= max_ticks -> (Z.to_nat max_ticks <= fuel)%nat ->
    exists s g',
      (soc <- SoC.init p e n ;; Main.loop fuel n max_ticks soc) g
      = Py.Ok (Some s, g')
      /\ (soc <- SoC.init p e n ;; SoC.run_ticks (Z.to_nat max_ticks) soc) g
         = Py.Ok (s, g')
      /\ SoC.current_tick s = max_ticks
      /\ Z.of_nat (List.length (SoC.completed_tasks s)) < n).
  { intros p e n max_ticks fuel g Hn Hmax Hfuel.
    destruct (init_total p e n g) as (master & g1 & E & _).
    destruct (init_ids_ok _ _ _ _ _ _ E) as (_ & Hc & Hd & _).
    set (s0 := SoC.mk (built_cores p e) master [] [] 0 0%float) in *.
    rewrite !(bind_ok _ _ _ _ _ E).
    assert (H0 : Z.to_nat (max_ticks - SoC.current_tick s0)
                 = Z.to_nat max_ticks) by (cbn; f_equal; lia).
    rewrite (loop_is_run_ticks n max_ticks fuel s0 g1
               ltac:(rewrite Hc; lia) ltac:(rewrite Hd; cbn; lia)
               ltac:(rewrite H0; exact Hfuel)).
    rewrite H0.
    destruct (run_ticks_total (Z.to_nat max_ticks) s0 g1)
      as (s & g2 & E2 & _ & T).
    rewrite (bind_ok _ _ _ _ _ E2). unfold ret.
    exists s, g2. split; [reflexivity|]. split; [exact E2|].
    split; [rewrite T; cbn; lia|].
    destruct (run_ticks_never_all (Z.to_nat n) _ _ _ _ _
                ltac:(rewrite Hc; lia) ltac:(rewrite Hd; cbn; lia) E2)
      as [_ H].
    lia. }
  split; [exact Hgen | split].
  - intros fuel g Hfuel. unfold Main.main.
    destruct (Hgen Main.NUM_P_CORES Main.NUM_E_CORES Main.NUM_TASKS
                Main.MAX_TICKS fuel g)
      as (s & g' & E & _ & T & C);
      try (unfold Main.NUM_TASKS, Main.MAX_TICKS; lia).
    now exists s, g'.
  - intros p e n max_ticks fuel g Hn.
    assert (E : SoC.init p e n g
                = Py.Ok (SoC.mk (built_cores p e) [] [] [] 0 0%float, g)).
    { unfold SoC.init, SoC.generate_tasks.
      rewrite (range_nonpositive n Hn). reflexivity. }
    rewrite (bind_ok _ _ _ _ _ E).
    assert (Hlt : (Z.of_nat (@List.length Task.t []) <? n) = false)
      by (apply Z.ltb_ge; cbn; lia).
    destruct fuel; cbn [Main.loop SoC.completed_tasks]; now rewrite Hlt.
Qed.

(** ** A task in I/O wait *)

Lemma schedule_cores_keeps (cores : list CPUCore.t) :
  forall (i : nat) core task queue completed,
    nth_error cores i = Some core ->
    CPUCore.current_task core = Some task ->
    Task.is_finished task = false ->
    nth_error (fst (fst (SoC.schedule_cores cores queue completed))) i
    = Some core.
Proof.
  induction cores as [|c rest IH]; intros i core task queue completed N T F;
    [destruct i; discriminate|].
  cbn [SoC.schedule_cores].
  destruct i as [|i].
  - cbn in N. inversion N; subst c.
    unfold SoC.reclaim. rewrite T, F. unfold SoC.assign. rewrite T.
    now destruct (SoC.schedule_cores rest queue completed) as [[? ?] ?].
  - cbn in N.
    destruct (SoC.reclaim c completed) as [c1 completed1].
    destruct (SoC.assign c1 queue) as [c2 queue2].
    specialize (IH i core task queue2 completed1 N T F).
    now destruct (SoC.schedule_cores rest queue2 completed1) as [[? ?] ?].
Qed.

Lemma tick_cores_nth (cores : list CPUCore.t) :
  forall (i : nat) core power g cores' power' g',
    nth_error cores i = Some core ->
    SoC.tick_cores cores power g = Py.Ok (cores', power', g') ->
    exists core' ga gb,
      nth_error cores' i = Some core'
      /\ CPUCore.tick core ga = Py.Ok (core', gb).
Proof.
  induction cores as [|c rest IH]; intros i core power g cores' power' g' N E;
    [destruct i; discriminate|].
  cbn [SoC.tick_cores] in E.
  destruct (core_tick_floor c g) as (c1 & g1 & E1 & _).
  rewrite (bind_ok _ _ _ _ _ E1) in E.
  destruct (tick_cores_total rest
              (power + CPUCore.get_current_power_draw c1)%float g1)
    as (rest' & p2 & g2 & E2 & _).
  rewrite (bind_ok _ _ _ _ _ E2) in E. unfold ret in E. inversion E; subst.
  destruct i as [|i].
  - cbn in N. inversion N; subst c. now exists c1, g, g1.
  - cbn in N. exact (IH _ _ _ _ _ _ _ N E2).
Qed.

Lemma tick_keeps_waiting (s : SoC.t) (g : Rng) (i : nat) core task :
  nth_error (SoC.all_cores s) i = Some core ->
  CPUCore.current_task core = Some task ->
  Task.is_finished task = false ->
  Task.is_waiting_for_io task = true ->
  exists s' g' core',
    SoC.run_simulation_tick s g = Py.Ok (s', g')
    /\ nth_error (SoC.all_cores s') i = Some core'
    /\ CPUCore.current_task core' = Some task.
Proof.
  intros N T F W.
  destruct (run_simulation_tick_spec s g) as (s' & g' & E & Tk & _).
  exists s', g'.
  set (s1 := SoC.check_for_new_arrivals s) in *.
  assert (N2 : nth_error (SoC.all_cores (SoC.schedule_rule_based s1)) i
               = Some core).
  { assert (N1 : nth_error (SoC.all_cores s1) i = Some core)
      by (subst s1; now destruct (check_all_tasks s) as (_ & -> & _)).
    unfold SoC.schedule_rule_based.
    pose proof (schedule_cores_keeps (SoC.all_cores s1) i core task
                  (SoC.task_queue s1) (SoC.completed_tasks s1) N1 T F) as K.
    destruct (SoC.schedule_cores _ _ _) as [[c q] d]. cbn [fst] in K.
    now destruct (SoC.task_queue s1). }
  destruct (tick_cores_nth _ _ _ _ _ _ _ _ N2 Tk) as (core' & ga & gb & N' & E').
  rewrite (core_tick_waiting core task ga T F W) in E'.
  inversion E'; subst. eexists. split; [exact E|]. split; [exact N'|].
  exact T.
Qed.

(** X14: an I/O wait never ends inside the simulator.  [CPUCore.tick] does
    not call [work] on a waiting task, so the wait timer is never counted
    down: a core that holds an unfinished task waiting for I/O holds that
    very task, with the same progress and the same timer, after any number
    of simulation ticks. *)
Theorem io_wait_never_ends (n : nat) :
  forall (s : SoC.t) (g : Rng) (i : nat) core task,
    nth_error (SoC.all_cores s) i = Some core ->
    CPUCore.current_task core = Some task ->
    Task.is_finished task = false ->
    Task.is_waiting_for_io task = true ->
    exists s' g' core',
      SoC.run_ticks n s g = Py.Ok (s', g')
      /\ nth_error (SoC.all_cores s') i = Some core'
      /\ CPUCore.current_task core' = Some task.
Proof.
  induction n as [|n IH]; intros s g i core task N T F W.
  - exists s, g, core. now repeat split.
  - cbn [SoC.run_ticks].
    destruct (tick_keeps_waiting s g i core task N T F W)
      as (s1 & g1 & core1 & E1 & N1 & T1).
    rewrite (bind_ok _ _ _ _ _ E1).
    exact (IH s1 g1 i core1 task N1 T1 F W).
Qed.

(** ** Sequences of work calls *)

Lemma work_seq_waiting (amounts : list float) :
  forall (task : Task.t) (g : Rng),
    Z.of_nat (List.length amounts) <= Task.io_wait_timer task ->
    work_seq amounts task g
    = Py.Ok (Task.set_io_wait_timer task
               (Task.io_wait_timer task - Z.of_nat (List.length amounts)), g).
Proof.
  induction amounts as [|a rest IH]; intros task g H.
  - cbn [work_seq List.length]. change (Z.of_nat 0) with 0.
    rewrite Z.sub_0_r. unfold ret. now destruct task.
  - cbn [List.length] in H. cbn [work_seq].
    assert (W : Task.is_waiting_for_io task = true)
      by (apply Z.ltb_lt; lia).
    rewrite (bind_ok _ _ _ _ _ (work_waiting task a g W)).
    rewrite IH by (cbn [Task.io_wait_timer Task.set_io_wait_timer]; lia).
    unfold Task.set_io_wait_timer.
    cbn [Task.id Task.arrival_time Task.type Task.total_cycles
         Task.io_frequency Task.cycles_done Task.io_wait_timer List.length].
    do 3 f_equal. lia.
Qed.

(** X15: a wait lasts exactly [io_wait_timer] work calls.  Any [k] work
    calls on a task whose timer is at least [k] only count the timer down
    by [k]: whatever the amounts, the progress is untouched and nothing is
    drawn from the random source. *)
Theorem wait_counts_down (amounts : list float) (task : Task.t) (g : Rng) :
  Z.of_nat (List.length amounts) <= Task.io_wait_timer task ->
  work_seq amounts task g
  = Py.Ok (Task.set_io_wait_timer task
             (Task.io_wait_timer task - Z.of_nat (List.length amounts)), g).
Proof. apply work_seq_waiting. Qed.

Lemma work_timer_range (task : Task.t) (amount : float) (g : Rng) :
  0 <= Task.io_wait_timer task <= 10 ->
  exists task' g',
    Task.work task amount g = Py.Ok (task', g')
    /\ 0 <= Task.io_wait_timer task' <= 10.
Proof.
  intros H. destruct (Task.is_waiting_for_io task) eqn:W.
  - rewrite (work_waiting _ _ _ W). eexists _, _. split; [reflexivity|].
    apply Z.ltb_lt in W.
    cbn [Task.io_wait_timer Task.set_io_wait_timer]. lia.
  - destruct (String.eqb (Task.type task) "I/O-Bound") eqn:T.
    + rewrite (work_io _ _ _ W T). destruct (_ <? _).
      * eexists _, _. split; [reflexivity|].
        pose proof (Z.mod_pos_bound (g 1%nat) 6).
        cbn [Task.io_wait_timer Task.set_io_wait_timer]. lia.
      * eexists _, _. split; [reflexivity | exact H].
    + rewrite (work_not_io _ _ _ W T). eexists _, _.
      split; [reflexivity | exact H].
Qed.

(** X16: the wait timer is never negative and never above 10: every
    sequence of work calls on a task whose timer is in [[0, 10]] (0 for a
    fresh task) returns, and leaves the timer in [[0, 10]]. *)
Theorem wait_timer_in_range (amounts : list float) :
  forall (task : Task.t) (g : Rng),
    0 <= Task.io_wait_timer task <= 10 ->
    exists task' g',
      work_seq amounts task g = Py.Ok (task', g')
      /\ 0 <= Task.io_wait_timer task' <= 10.
Proof.
  induction amounts as [|a rest IH]; intros task g H.
  - exists task, g. now split.
  - cbn [work_seq].
    destruct (work_timer_range task a g H) as (t1 & g1 & E1 & H1).
    rewrite (bind_ok _ _ _ _ _ E1). exact (IH t1 g1 H1).
Qed.

(** X17: a task that is not I/O-bound never waits and never consumes
    randomness: every sequence of work calls on such a task with no pending
    wait adds the amounts to [cycles_done] in order, and leaves the timer
    and the random source as they were. *)
Theorem cpu_bound_work_is_deterministic (amounts : list float) :
  forall (task : Task.t) (g : Rng),
    Task.type task <> "I/O-Bound" ->
    Task.io_wait_timer task <= 0 ->
    work_seq amounts task g
    = Py.Ok (Task.set_cycles_done task
               (fold_left PrimFloat.add amounts (Task.cycles_done task)), g).
Proof.
  induction amounts as [|a rest IH]; intros task g Hty Hw.
  - cbn. unfold ret. now destruct task.
  - cbn [work_seq fold_left].
    assert (W : Task.is_waiting_for_io task = false)
      by (apply Z.ltb_ge; lia).
    apply String.eqb_neq in Hty.
    rewrite (bind_ok _ _ _ _ _ (work_not_io task a g W Hty)).
    rewrite IH; [now destruct task | now apply String.eqb_neq | exact Hw].
Qed.

(** ** Profiles and queue order *)

Lemma run_ticks_profiles (n : nat) :
  forall s g s' g',
    SoC.run_ticks n s g = Py.Ok (s', g') ->
    forall p, In p (map profile (all_tasks s')) ->
              In p (map profile (all_tasks s)).
Proof.
  induction n as [|n IH]; intros s g s' g' E p Hp.
  - cbn in E. unfold ret in E. inversion E; subst. exact Hp.
  - cbn [SoC.run_ticks] in E.
    destruct (tick_all_tasks s g) as (s1 & g1 & E1 & mid & P & T & _).
    rewrite (bind_ok _ _ _ _ _ E1) in E.
    apply (IH _ _ _ _ E) in Hp.
    apply (Permutation_in _ (Permutation_map profile P)).
    exact (thinned_In _ _ _ T Hp).
Qed.

(** X18: the id, arrival time, type, cycle budget and I/O frequency of a
    task never change after its creation.  A [work] call returns the task
    with these five fields as they were.  After any number of ticks from
    any state, every task of the simulator, in whatever container, is a
    task that was there at the start, with the same five fields.  So in
    every run of a constructed simulator every task still has the id,
    arrival time, type, cycle budget and I/O frequency of one of the tasks
    the constructor created: an arrival time in [[0, 5 * num_tasks]] and
    one of the two profiles of [Task.__init__]. *)
Theorem tasks_keep_profile :
  (forall (task : Task.t) (amount : float) (g : Rng),
   exists task' g',
     Task.work task amount g = Py.Ok (task', g')
     /\ Task.id task' = Task.id task
     /\ Task.arrival_time task' = Task.arrival_time task
     /\ Task.type task' = Task.type task
     /\ Task.total_cycles task' = Task.total_cycles task
     /\ Task.io_frequency task' = Task.io_frequency task)
  /\ (forall (ticks : nat) (s : SoC.t) (g : Rng),
      exists s' g',
        SoC.run_ticks ticks s g = Py.Ok (s', g')
        /\ forall task', In task' (all_tasks s') ->
             exists task,
               In task (all_tasks s)
               /\ Task.id task' = Task.id task
               /\ Task.arrival_time task' = Task.arrival_time task
               /\ Task.type task' = Task.type task
               /\ Task.total_cycles task' = Task.total_cycles task
               /\ Task.io_frequency task' = Task.io_frequency task)
  /\ (forall (num_p_cores num_e_cores num_tasks : Z) (ticks : nat) (g : Rng),
      exists s0 g0 s g',
        SoC.init num_p_cores num_e_cores num_tasks g = Py.Ok (s0, g0)
        /\ SoC.run_ticks ticks s0 g0 = Py.Ok (s, g')
        /\ forall task', In task' (all_tasks s) ->
             exists task,
               In task (SoC.master_task_list s0)
               /\ fresh_task (Task.id task) (Task.arrival_time task) task
               /\ Task.id task' = Task.id task
               /\ Task.arrival_time task' = Task.arrival_time task
               /\ Task.type task' = Task.type task
               /\ Task.total_cycles task' = Task.total_cycles task
               /\ Task.io_frequency task' = Task.io_frequency task
               /\ 0 <= Task.arrival_time task' <= num_tasks * 5
               /\ ((Task.type task' = "CPU-Bound"
                    /\ 200 <= Task.total_cycles task' <= 500
                    /\ Task.io_frequency task' = 0)
                   \/ (Task.type task' = "I/O-Bound"
                       /\ 50 <= Task.total_cycles task' <= 100
                       /\ 3 <= Task.io_frequency task' <= 8))).
Proof.
  assert (Hrun : forall ticks s g s' g' task',
            SoC.run_ticks ticks s g = Py.Ok (s', g') ->
            In task' (all_tasks s') ->
            exists task, In task (all_tasks s) /\ profile task' = profile task).
  { intros ticks s g s' g' task' E Hin.
    pose proof (run_ticks_profiles _ _ _ _ _ E (profile task')
                  (in_map profile _ _ Hin)) as Hp.
    apply in_map_iff in Hp. destruct Hp as (task & Hprof & Hin0).
    exists task. split; [exact Hin0 | now symmetry]. }
  split; [|split].
  - intros task amount g.
    destruct (work_cycles task amount g) as (timer & g' & E).
    eexists _, g'. split; [exact E|]. repeat split.
  - intros ticks s g.
    destruct (run_ticks_total ticks s g) as (s' & g' & E & _).
    exists s', g'. split; [exact E|]. intros task' Hin.
    destruct (Hrun _ _ _ _ _ _ E Hin) as (task & Hin0 & Hprof).
    exists task. split; [exact Hin0|].
    unfold profile in Hprof. repeat split; congruence.
  - intros p e n ticks g.
    destruct (init_total p e n g) as (master & g1 & E & G & _).
    destruct (generate_tasks_spec n g) as (tasks & g2 & G2 & _ & _ & F).
    rewrite G in G2. inversion G2; subst tasks g2. clear G2.
    destruct (run_ticks_total ticks
                (SoC.mk (built_cores p e) master [] [] 0 0%float) g1)
      as (s & g2 & E2 & _).
    eexists _, g1, s, g2. split; [exact E|]. split; [exact E2|].
    intros task' Hin.
    destruct (Hrun _ _ _ _ _ _ E2 Hin) as (task & Hin0 & Hprof).
    unfold all_tasks, live_tasks in Hin0.
    cbn [SoC.master_task_list SoC.all_cores SoC.task_queue
         SoC.completed_tasks] in Hin0.
    rewrite built_cores_idle, !app_nil_r in Hin0.
    pose proof (proj1 (Forall_forall _ _) F task Hin0) as [Hfresh Harr].
    unfold profile in Hprof.
    assert (H1 : Task.id task' = Task.id task) by congruence.
    assert (H2 : Task.arrival_time task' = Task.arrival_time task)
      by congruence.
    assert (H3 : Task.type task' = Task.type task) by congruence.
    assert (H4 : Task.total_cycles task' = Task.total_cycles task)
      by congruence.
    assert (H5 : Task.io_frequency task' = Task.io_frequency task)
      by congruence.
    exists task. cbn [SoC.master_task_list].
    split; [exact Hin0|]. split; [exact Hfresh|].
    do 5 (split; [assumption|]).
    rewrite H2, H3, H4, H5. split; [exact Harr|].
    now destruct Hfresh as (_ & _ & _ & _ & Hcases).
Qed.

Lemma remove_at_thinned (i : nat) :
  forall queue : list Task.t, thinned (SoC.remove_at i queue) queue.
Proof.
  induction i as [|i IH]; intros [|x q]; cbn [SoC.remove_at];
    try constructor; try apply thinned_refl. apply IH.
Qed.

Lemma thinned_trans {A} (l1 l2 l3 : list A) :
  thinned l1 l2 -> thinned l2 l3 -> thinned l1 l3.
Proof.
  intros H12 H23. revert l1 H12.
  induction H23 as [|x l2 l3 _ IH|x l2 l3 _ IH]; intros l1 H12.
  - exact H12.
  - inversion H12; subst; constructor; now apply IH.
  - constructor. now apply IH.
Qed.

Lemma schedule_cores_queue (cores : list CPUCore.t) :
  forall queue completed,
    thinned (snd (fst (SoC.schedule_cores cores queue completed))) queue.
Proof.
  induction cores as [|core rest IH]; intros queue completed;
    [apply thinned_refl|].
  cbn [SoC.schedule_cores].
  destruct (SoC.reclaim core completed) as [core1 completed1].
  destruct (SoC.assign core1 queue) as [core2 queue2] eqn:A.
  specialize (IH queue2 completed1).
  destruct (SoC.schedule_cores rest queue2 completed1) as [[rest' q'] d'].
  cbn [fst snd] in *. apply (thinned_trans _ _ _ IH).
  unfold SoC.assign in A. destruct (CPUCore.current_task core1);
    [inversion A; apply thinned_refl|].
  destruct queue as [|x q]; [inversion A; apply thinned_refl|].
  destruct (SoC.select core1 (x :: q)) as [i|];
    [|inversion A; apply thinned_refl].
  destruct (nth_error (x :: q) i); inversion A; subst;
    [apply remove_at_thinned | apply thinned_refl].
Qed.

(** X19: the scheduling phase never reorders the ready queue and never adds
    to it: the queue it leaves is the queue it found with the assigned
    tasks taken out, the others in their old order. *)
Theorem scheduling_keeps_queue_order (s : SoC.t) :
  thinned (SoC.task_queue (SoC.schedule_rule_based s)) (SoC.task_queue s).
Proof.
  unfold SoC.schedule_rule_based.
  pose proof (schedule_cores_queue (SoC.all_cores s) (SoC.task_queue s)
                (SoC.completed_tasks s)) as H.
  destruct (SoC.schedule_cores _ _ _) as [[c q] d]. cbn [fst snd] in H.
  destruct (SoC.task_queue s) eqn:Q; [rewrite Q; constructor | exact H].
Qed.

(** ** The further statements at concrete inputs *)

(** X3 at tick 3 with one task that has arrived and one that has not. *)
Lemma arrivals_move_arrived_witness :
  StronglySorted arrives_no_later (SoC.master_task_list arrival_state)
  /\ exists moved,
       SoC.master_task_list arrival_state
       = moved ++ SoC.master_task_list (SoC.check_for_new_arrivals arrival_state)
       /\ SoC.task_queue (SoC.check_for_new_arrivals arrival_state)
          = SoC.task_queue arrival_state ++ moved
       /\ Forall (fun t => Task.arrival_time t <= SoC.current_tick arrival_state)
                 moved.
Proof.
  assert (H : StronglySorted arrives_no_later
                (SoC.master_task_list arrival_state)).
  { repeat constructor. unfold arrives_no_later. cbn. lia. }
  split; [exact H|].
  destruct (arrivals_move_arrived arrival_state H)
    as (moved & Hm & Hq & Hf & _).
  exists moved. repeat split; assumption.
Defined.

(** X7 at an efficiency core facing a CPU-bound then an I/O-bound task. *)
Lemma efficiency_core_affinity_witness :
  exists front task back core',
    [cpu_task_200; io_task_3] = front ++ task :: back
    /\ Forall (fun t => Task.type t <> "I/O-Bound") front
    /\ Task.type task = "I/O-Bound"
    /\ SoC.assign (CPUCore.init 0 "E-core") [cpu_task_200; io_task_3]
       = (core', front ++ back)
    /\ CPUCore.current_task core' = Some task
    /\ same_hardware (CPUCore.init 0 "E-core") core'
    /\ CPUCore.temperature core'
       = CPUCore.temperature (CPUCore.init 0 "E-core").
Proof.
  apply (efficiency_core_affinity (CPUCore.init 0 "E-core")
           [cpu_task_200; io_task_3]).
  - simpl. discriminate.
  - reflexivity.
  - exists io_task_3. split; [right; left; reflexivity | reflexivity].
Defined.

(** X11 and X12 on the run of the single task used above. *)
Lemma never_all_completed_witness :
  exists s g',
    (s0 <- SoC.init 1 0 1 ;; SoC.run_ticks 30 s0) lone_task_draws
    = Py.Ok (s, g')
    /\ Z.of_nat (List.length (SoC.completed_tasks s)) < 1.
Proof.
  exact (never_all_completed 1 0 1 30%nat lone_task_draws ltac:(lia)).
Defined.

Lemma master_list_drains_witness :
  exists s g',
    (s0 <- SoC.init 1 0 1 ;; SoC.run_ticks 30 s0) lone_task_draws
    = Py.Ok (s, g')
    /\ SoC.master_task_list s = [].
Proof.
  destruct (master_list_drains 1 0 1 30%nat lone_task_draws)
    as (s & g' & E & _ & H).
  exists s, g'. split; [exact E|]. apply H. cbn. lia.
Defined.

(** X13 with one core, one task and a budget of 30 ticks, and for [main]. *)
Lemma main_loop_exhausts_budget_witness :
  (exists s g',
     (soc <- SoC.init 1 0 1 ;; Main.loop 30 1 30 soc) lone_task_draws
     = Py.Ok (Some s, g')
     /\ SoC.current_tick s = 30)
  /\ (exists s g',
        Main.main 1000 (fun _ => 0) = Py.Ok (Some s, g')
        /\ SoC.current_tick s = 1000).
Proof.
  split.
  - destruct (proj1 main_loop_exhausts_budget 1 0 1 30 30%nat lone_task_draws
                ltac:(lia) ltac:(lia) ltac:(lia))
      as (s & g' & E & _ & T & _).
    exists s, g'. split; [exact E | exact T].
  - assert (H : (1000 <= 1000)%nat) by apply le_n.
    destruct (proj1 (proj2 main_loop_exhausts_budget) 1000%nat (fun _ => 0) H)
      as (s & g' & E & T & _).
    exists s, g'. split; [exact E | exact T].
Defined.

(** X14 at a core that holds a task in the middle of a wait. *)
Lemma io_wait_never_ends_witness :
  exists s' g' core',
    SoC.run_ticks 10 waiting_state (fun _ => 0) = Py.Ok (s', g')
    /\ nth_error (SoC.all_cores s') 0 = Some core'
    /\ CPUCore.current_task core' = Some waiting_task.
Proof.
  exact (io_wait_never_ends 10 waiting_state (fun _ => 0) 0%nat
           (CPUCore.assign_task (CPUCore.init 0 "P-core") waiting_task)
           waiting_task eq_refl eq_refl eq_refl eq_refl).
Defined.

(** X15, X16 and X17 at two work calls. *)
Lemma wait_counts_down_witness :
  work_seq [1.0%float; 2.0%float] waiting_task (fun _ => 0)
  = Py.Ok (Task.set_io_wait_timer waiting_task (5 - 2), fun _ => 0).
Proof.
  exact (wait_counts_down [1.0%float; 2.0%float] waiting_task (fun _ => 0)
           ltac:(cbn; lia)).
Defined.

Lemma wait_timer_in_range_witness :
  exists task' g',
    work_seq [2.0%float; 2.0%float] io_task_3 (fun _ => 0) = Py.Ok (task', g')
    /\ 0 <= Task.io_wait_timer task' <= 10.
Proof.
  exact (wait_timer_in_range [2.0%float; 2.0%float] io_task_3 (fun _ => 0)
           ltac:(cbn; lia)).
Defined.

Lemma cpu_bound_work_is_deterministic_witness :
  work_seq [2.0%float; 1.0%float] cpu_task_200 (fun _ => 0)
  = Py.Ok (Task.set_cycles_done cpu_task_200 (0 + 2.0 + 1.0)%float,
           fun _ => 0).
Proof.
  exact (cpu_bound_work_is_deterministic [2.0%float; 1.0%float] cpu_task_200
           (fun _ => 0) ltac:(cbn; discriminate) ltac:(cbn; lia)).
Defined.

(** * Admission without cores, and assignment in full *)

Lemma run_ticks_no_cores_moved (ticks : nat) :
  forall master queue tick g,
    StronglySorted arrives_no_later master ->
    Forall (fun t => tick <= Task.arrival_time t) master ->
    exists moved rest,
      SoC.run_ticks ticks (SoC.mk [] master queue [] tick 0%float) g
      = Py.Ok (SoC.mk [] rest (queue ++ moved) []
                 (tick + Z.of_nat ticks) 0%float, g)
      /\ master = moved ++ rest
      /\ Forall (fun t => Task.arrival_time t < tick + Z.of_nat ticks) moved
      /\ Forall (fun t => tick + Z.of_nat ticks <= Task.arrival_time t) rest.
Proof.
  induction ticks as [|n IH]; intros master queue tick g Hs Hlate.
  - exists [], master. cbn [SoC.run_ticks]. unfold ret.
    rewrite app_nil_r, Z.add_0_r.
    split; [reflexivity|]. split; [reflexivity|].
    split; [constructor | exact Hlate].
  - cbn [SoC.run_ticks].
    destruct (SoC.arrivals_loop tick master queue) as [m1 q1] eqn:A.
    assert (E : SoC.run_simulation_tick
                  (SoC.mk [] master queue [] tick 0%float) g
                = Py.Ok (SoC.mk [] m1 q1 [] (tick + 1) 0%float, g)).
    { unfold SoC.run_simulation_tick, SoC.check_for_new_arrivals,
        SoC.schedule_rule_based.
      cbn [SoC.master_task_list SoC.task_queue SoC.current_tick].
      rewrite A.
      cbn [SoC.master_task_list SoC.task_queue SoC.all_cores
           SoC.completed_tasks SoC.current_tick SoC.total_power_consumed].
      now destruct q1. }
    rewrite (bind_ok _ _ _ _ _ E).
    destruct (arrivals_loop_split _ _ _ _ _ A) as (mv1 & Hm & Hq & Hmv & _).
    pose proof (arrivals_loop_rest _ _ _ _ _ Hs A) as Hrest.
    assert (Hs1 : StronglySorted arrives_no_later m1)
      by (rewrite Hm in Hs; exact (sorted_suffix _ _ _ Hs)).
    assert (Hlate1 : Forall (fun t => tick + 1 <= Task.arrival_time t) m1).
    { apply Forall_forall. intros t Ht.
      pose proof (proj1 (Forall_forall _ _) Hrest t Ht). cbn in *. lia. }
    destruct (IH m1 q1 (tick + 1) g Hs1 Hlate1)
      as (mv2 & rest & E2 & Hm2 & Hmv2 & Hrest2).
    exists (mv1 ++ mv2), rest. rewrite E2, Hq, Hm, Hm2, <- !app_assoc.
    replace (tick + 1 + Z.of_nat n) with (tick + Z.of_nat (S n)) in * by lia.
    split; [reflexivity|]. split; [reflexivity|].
    split; [|exact Hrest2].
    apply Forall_app. split; [|exact Hmv2].
    apply Forall_forall. intros t Ht.
    pose proof (proj1 (Forall_forall _ _) Hmv t Ht). cbn in *. lia.
Qed.

(** C4, amended: the tick operation never faults and advances the tick
    counter by 1 per call.  With zero tasks the task containers stay empty
    and every core stays idle at 25.0, but each call adds every core's idle
    draw 0.1 to [total_power_consumed], which therefore stays unchanged
    only when there are no cores either.  With zero cores
    [total_power_consumed] stays 0.0 and nothing completes, but arrival
    admission still moves the tasks: after [ticks] calls the ready queue
    holds, unchanged and in order, exactly the generated tasks with
    [arrival_time < ticks], and the master list the others; once more than
    [5 * num_tasks] calls have been made every generated task is in the
    ready queue, all [num_tasks] of them. *)
Theorem tick_without_cores_or_tasks :
  (forall num_p_cores num_e_cores num_tasks (ticks : nat) (g : Rng),
     num_tasks <= 0 ->
     (s0 <- SoC.init num_p_cores num_e_cores num_tasks ;;
      SoC.run_ticks ticks s0) g
     = Py.Ok (SoC.mk (built_cores num_p_cores num_e_cores) [] [] []
                (Z.of_nat ticks)
                (idle_power ticks (built_cores num_p_cores num_e_cores) 0),
              g))
  /\ (forall num_p_cores num_e_cores num_tasks (ticks : nat) (g : Rng),
        num_p_cores <= 0 -> num_e_cores <= 0 -> num_tasks <= 0 ->
        (s0 <- SoC.init num_p_cores num_e_cores num_tasks ;;
         SoC.run_ticks ticks s0) g
        = Py.Ok (SoC.mk [] [] [] [] (Z.of_nat ticks) 0%float, g))
  /\ (forall num_p_cores num_e_cores num_tasks (ticks : nat) (g : Rng),
        num_p_cores <= 0 -> num_e_cores <= 0 ->
        exists tasks g' master queue,
          SoC.generate_tasks num_tasks g = Py.Ok (tasks, g')
          /\ (s0 <- SoC.init num_p_cores num_e_cores num_tasks ;;
              SoC.run_ticks ticks s0) g
             = Py.Ok (SoC.mk [] master queue [] (Z.of_nat ticks) 0%float, g')
          /\ queue ++ master = tasks
          /\ List.length tasks = Z.to_nat num_tasks
          /\ Forall (fun t => Task.arrival_time t < Z.of_nat ticks) queue
          /\ Forall (fun t => Z.of_nat ticks <= Task.arrival_time t) master
          /\ (num_tasks * 5 < Z.of_nat ticks ->
              queue = tasks /\ master = [])).
Proof.
  assert (Hzero : forall p e n ticks g, n <= 0 ->
    (s0 <- SoC.init p e n ;; SoC.run_ticks ticks s0) g
    = Py.Ok (SoC.mk (built_cores p e) [] [] [] (Z.of_nat ticks)
               (idle_power ticks (built_cores p e) 0), g)).
  { intros p e n ticks g Hn.
    assert (E : SoC.init p e n g
                = Py.Ok (SoC.mk (built_cores p e) [] [] [] 0 0%float, g)).
    { unfold SoC.init, SoC.generate_tasks.
      rewrite (range_nonpositive n Hn). reflexivity. }
    rewrite (bind_ok _ _ _ _ _ E).
    now rewrite (run_ticks_no_tasks _ ticks (built_cores_fresh p e)). }
  split; [exact Hzero | split].
  - intros p e n ticks g Hp He Hn. rewrite (Hzero p e n ticks g Hn).
    unfold built_cores.
    rewrite (range_nonpositive p Hp), (range_nonpositive e He).
    cbn [map app]. do 3 f_equal.
    induction ticks as [|k IH]; [reflexivity | exact IH].
  - intros p e n ticks g Hp He.
    destruct (init_total p e n g) as (tasks & g' & E & G & L).
    destruct (generate_tasks_spec n g) as (tasks' & g2 & G2 & Hs & _ & F).
    rewrite G in G2. inversion G2; subst tasks' g2. clear G2.
    assert (B : built_cores p e = []).
    { unfold built_cores.
      now rewrite (range_nonpositive p Hp), (range_nonpositive e He). }
    rewrite B in E.
    assert (Hlate : Forall (fun t => 0 <= Task.arrival_time t) tasks).
    { apply Forall_forall. intros t Ht.
      pose proof (proj1 (Forall_forall _ _) F t Ht) as [_ Ha]. lia. }
    destruct (run_ticks_no_cores_moved ticks tasks [] 0 g'
                (sorted_no_later _ Hs) Hlate)
      as (moved & rest & R & Hm & Hmv & Hrest).
    cbn [app] in R. rewrite !Z.add_0_l in *.
    exists tasks, g', rest, moved. split; [exact G|].
    split; [now rewrite (bind_ok _ _ _ _ _ E), R|].
    split; [now symmetry|]. split; [exact L|].
    split; [exact Hmv|]. split; [exact Hrest|].
    intros Hn.
    assert (Hnil : rest = []).
    { destruct rest as [|t rest']; [reflexivity|]. exfalso.
      assert (Hin : In t tasks) by (rewrite Hm; apply in_or_app; right; now left).
      pose proof (proj1 (Forall_forall _ _) F t Hin) as [_ Ha].
      inversion Hrest as [|t' r' Ht' _]; subst. lia. }
    split; [|exact Hnil]. now rewrite Hm, Hnil, app_nil_r.
Qed.

(** C4 at concrete configurations, three ticks each: two performance cores
    and one efficiency core without tasks; an empty simulator; and no cores
    with two tasks, of which the one that arrives at tick 0 is moved to the
    ready queue and the one that arrives at tick 7 is not. *)
Lemma tick_without_cores_or_tasks_witness :
  (s0 <- SoC.init 2 1 0 ;; SoC.run_ticks 3 s0) (fun _ => 0)
  = Py.Ok (SoC.mk (built_cores 2 1) [] [] [] 3
             (idle_power 3 (built_cores 2 1) 0), fun _ => 0)
  /\ (s0 <- SoC.init 0 0 0 ;; SoC.run_ticks 3 s0) (fun _ => 0)
     = Py.Ok (SoC.mk [] [] [] [] 3 0%float, fun _ => 0)
  /\ (exists tasks g' master queue,
        SoC.generate_tasks 2 two_task_draws = Py.Ok (tasks, g')
        /\ (s0 <- SoC.init 0 0 2 ;; SoC.run_ticks 3 s0) two_task_draws
           = Py.Ok (SoC.mk [] master queue [] 3 0%float, g')
        /\ queue ++ master = tasks
        /\ List.length tasks = Z.to_nat 2
        /\ Forall (fun t => Task.arrival_time t < 3) queue
        /\ Forall (fun t => 3 <= Task.arrival_time t) master
        /\ (2 * 5 < 3 -> queue = tasks /\ master = []))
  /\ (exists g',
        (s0 <- SoC.init 0 0 2 ;; SoC.run_ticks 3 s0) two_task_draws
        = Py.Ok (SoC.mk [] [late_io_task] [io_task_3] [] 3 0%float, g')).
Proof.
  split; [|split; [|split]].
  - exact (proj1 tick_without_cores_or_tasks 2 1 0 3%nat (fun _ => 0)
             ltac:(lia)).
  - exact (proj1 (proj2 tick_without_cores_or_tasks) 0 0 0 3%nat (fun _ => 0)
             ltac:(lia) ltac:(lia) ltac:(lia)).
  - exact (proj2 (proj2 tick_without_cores_or_tasks) 0 0 2 3%nat
             two_task_draws ltac:(lia) ltac:(lia)).
  - eexists. reflexivity.
Defined.

(** C6: an idle performance core facing a queue that holds a CPU-bound task
    (and an I/O-bound one) is bound to the first CPU-bound task of the
    queue, scanning from the front: after the assignment the core's
    [current_task] is that task, never an I/O-bound one, the core is
    otherwise unchanged, and the queue is the old queue with that one task
    taken out.  This is what the scheduling phase does for a core at any
    position of the core list, with the queue that the cores before it have
    left; the later cores only take further tasks out of that queue.  A
    core for which the queue holds no task of its preferred type is bound
    to the front task, which leaves the queue.  The constructor lists
    performance cores before efficiency cores, and the scheduling loop
    serves the cores in list order: the later cores face the queue the
    earlier ones left. *)
Theorem affinity_assignment :
  (forall core queue,
     CPUCore.type core = "P-core" ->
     CPUCore.current_task core = None ->
     (exists t, In t queue /\ Task.type t = "CPU-Bound") ->
     (exists t, In t queue /\ Task.type t = "I/O-Bound") ->
     exists front task back core',
       queue = front ++ task :: back
       /\ Forall (fun t => Task.type t <> "CPU-Bound") front
       /\ Task.type task = "CPU-Bound" /\ Task.type task <> "I/O-Bound"
       /\ SoC.assign core queue = (core', front ++ back)
       /\ CPUCore.current_task core' = Some task
       /\ same_hardware core core'
       /\ CPUCore.temperature core' = CPUCore.temperature core)
  /\ (forall s before core rest served queue completed,
        SoC.all_cores s = before ++ core :: rest ->
        SoC.schedule_cores before (SoC.task_queue s) (SoC.completed_tasks s)
        = (served, queue, completed) ->
        CPUCore.type core = "P-core" ->
        CPUCore.current_task core = None ->
        (exists t, In t queue /\ Task.type t = "CPU-Bound") ->
        exists front task back core' rest',
          queue = front ++ task :: back
          /\ Forall (fun t => Task.type t <> "CPU-Bound") front
          /\ Task.type task = "CPU-Bound"
          /\ SoC.all_cores (SoC.schedule_rule_based s)
             = served ++ core' :: rest'
          /\ CPUCore.current_task core' = Some task
          /\ same_hardware core core'
          /\ thinned (SoC.task_queue (SoC.schedule_rule_based s))
                     (front ++ back))
  /\ (forall core task rest,
        CPUCore.current_task core = None ->
        (CPUCore.type core = "P-core" ->
         forall t, In t (task :: rest) -> Task.type t <> "CPU-Bound") ->
        (CPUCore.type core <> "P-core" ->
         forall t, In t (task :: rest) -> Task.type t <> "I/O-Bound") ->
        exists core',
          SoC.assign core (task :: rest) = (core', rest)
          /\ CPUCore.current_task core' = Some task
          /\ same_hardware core core'
          /\ CPUCore.temperature core' = CPUCore.temperature core)
  /\ (forall num_p_cores num_e_cores num_tasks g s g',
        SoC.init num_p_cores num_e_cores num_tasks g = Py.Ok (s, g') ->
        SoC.all_cores s
        = map (fun i => CPUCore.init i "P-core") (Py.range num_p_cores)
          ++ map (fun i => CPUCore.init (i + num_p_cores) "E-core")
                 (Py.range num_e_cores))
  /\ (forall p_cores e_cores queue completed,
        SoC.schedule_cores (p_cores ++ e_cores) queue completed
        = let '(p_done, queue1, completed1) :=
            SoC.schedule_cores p_cores queue completed in
          let '(e_done, queue2, completed2) :=
            SoC.schedule_cores e_cores queue1 completed1 in
          (p_done ++ e_done, queue2, completed2)).
Proof.
  split; [|split; [|split; [|split]]].
  - intros core queue Hp Hidle Hcpu _.
    destruct (assign_by_affinity "CPU-Bound" core queue
                (or_introl (conj Hp eq_refl)) Hidle Hcpu)
      as (front & task & back & core' & Hq & Hf & Ht & Ha & Hb & Hh & Htemp).
    exists front, task, back, core'.
    split; [exact Hq|]. split; [exact Hf|]. split; [exact Ht|].
    split; [rewrite Ht; discriminate|].
    split; [exact Ha|]. split; [exact Hb|]. split; [exact Hh | exact Htemp].
  - intros s before core rest served queue completed Hcores Hsched Hp Hidle Hcpu.
    destruct (assign_by_affinity "CPU-Bound" core queue
                (or_introl (conj Hp eq_refl)) Hidle Hcpu)
      as (front & task & back & core' & Hq & Hf & Ht & Ha & Hb & Hh & _).
    unfold SoC.schedule_rule_based.
    destruct (SoC.task_queue s) as [|x q] eqn:Hqs.
    { pose proof (schedule_cores_empty_queue before (SoC.completed_tasks s))
        as Hnil.
      rewrite Hsched in Hnil. cbn [fst snd] in Hnil. subst queue.
      destruct front; discriminate. }
    rewrite Hcores, schedule_cores_app, Hsched. cbn [SoC.schedule_cores].
    unfold SoC.reclaim. rewrite Hidle, Ha.
    pose proof (schedule_cores_queue rest (front ++ back) completed) as Hthin.
    destruct (SoC.schedule_cores rest _ _) as [[rest' q'] d'].
    cbn [fst snd] in Hthin.
    exists front, task, back, core', rest'.
    cbn [SoC.all_cores SoC.task_queue].
    split; [exact Hq|]. split; [exact Hf|]. split; [exact Ht|].
    split; [reflexivity|]. split; [exact Hb|]. split; [exact Hh | exact Hthin].
  - intros core task rest Hidle HP HE.
    exists (CPUCore.assign_task core task).
    split; [exact (assign_front core task rest Hidle HP HE)|].
    apply assign_task_binds.
  - intros p e n g s g' E.
    destruct (init_total p e n g) as (master & g1 & E1 & _).
    rewrite E1 in E. inversion E; subst. reflexivity.
  - intros. apply schedule_cores_app.
Qed.

(** C6 at concrete queues: an idle performance core facing an I/O-bound
    task followed by a CPU-bound one; a performance core served after an
    efficiency core that took the first I/O-bound task; and a performance
    core facing I/O-bound tasks only. *)
Lemma affinity_assignment_witness :
  (exists front task back core',
     [io_task_3; cpu_task_200] = front ++ task :: back
     /\ Forall (fun t => Task.type t <> "CPU-Bound") front
     /\ Task.type task = "CPU-Bound" /\ Task.type task <> "I/O-Bound"
     /\ SoC.assign (CPUCore.init 0 "P-core") [io_task_3; cpu_task_200]
        = (core', front ++ back)
     /\ CPUCore.current_task core' = Some task
     /\ same_hardware (CPUCore.init 0 "P-core") core'
     /\ CPUCore.temperature core'
        = CPUCore.temperature (CPUCore.init 0 "P-core"))
  /\ (exists front task back core' rest',
        [io_task_51; cpu_task_200] = front ++ task :: back
        /\ Forall (fun t => Task.type t <> "CPU-Bound") front
        /\ Task.type task = "CPU-Bound"
        /\ SoC.all_cores (SoC.schedule_rule_based affinity_state)
           = [CPUCore.assign_task (CPUCore.init 0 "E-core") io_task_3]
             ++ core' :: rest'
        /\ CPUCore.current_task core' = Some task
        /\ same_hardware (CPUCore.init 1 "P-core") core'
        /\ thinned (SoC.task_queue (SoC.schedule_rule_based affinity_state))
                   (front ++ back))
  /\ (exists core',
        SoC.assign (CPUCore.init 0 "P-core") [io_task_3; io_task_51]
        = (core', [io_task_51])
        /\ CPUCore.current_task core' = Some io_task_3
        /\ same_hardware (CPUCore.init 0 "P-core") core'
        /\ CPUCore.temperature core'
           = CPUCore.temperature (CPUCore.init 0 "P-core"))
  /\ SoC.assign (CPUCore.init 0 "P-core") [io_task_3; cpu_task_200]
     = (CPUCore.mk 0 "P-core" (Some cpu_task_200) 2.0 4.0 0.8 0.1 25.0 90.0
          0.4,
        [io_task_3]).
Proof.
  split; [|split; [|split]].
  - apply (proj1 affinity_assignment (CPUCore.init 0 "P-core")
             [io_task_3; cpu_task_200] eq_refl eq_refl).
    + exists cpu_task_200. split; [right; left; reflexivity | reflexivity].
    + exists io_task_3. split; [left; reflexivity | reflexivity].
  - apply (proj1 (proj2 affinity_assignment) affinity_state
             [CPUCore.init 0 "E-core"] (CPUCore.init 1 "P-core") []
             [CPUCore.assign_task (CPUCore.init 0 "E-core") io_task_3]
             [io_task_51; cpu_task_200] [] eq_refl eq_refl eq_refl eq_refl).
    exists cpu_task_200. split; [right; left; reflexivity | reflexivity].
  - apply (proj1 (proj2 (proj2 affinity_assignment))
             (CPUCore.init 0 "P-core") io_task_3 [io_task_51] eq_refl).
    + intros _ t [<- | [<- | []]]; discriminate.
    + intros H. exfalso. apply H. reflexivity.
  - reflexivity.
Defined.
